(** * Meteoflux: the DBF -> InfluxDB synchronisation loop and the WinMeteo
      supervisor of [meteoflux.py], embedded in Rocq.

    The Python functions are translated one by one, under their own names.
    Exceptions are an explicit result type, the operating system (process
    table, clock), the sink and a log of the calls made are an explicit
    [world] that every function threads, and the local variables of [main]
    are a record next to it.  What the outside world answers in one
    iteration (the content of the DBF file, whether the batch write is
    accepted, what [taskkill] and [Popen] do) is an input of the model.

    The clock of the world counts whole seconds and moves only when the
    program sleeps.  The calls of the program take time as well, more than
    none and little against a second: a reading of [time.time()] is the
    count of the clock and, in place of the fraction of a second, the number
    of calls made so far.  Of the messages the program prints, the trace
    keeps the two that report a problem: the unknown column and the [ERROR]
    line of the two handlers. *)

From Stdlib Require Import ZArith List String Ascii Bool Lia Permutation.
Import ListNotations.

Open Scope string_scope.
Open Scope Z_scope.

(** ** Exceptions and results *)

(** The exception classes the program can meet.  All of them derive from
    [Exception], so the two [except Exception] handlers of [main] catch every
    one of them.  [Unfinished] is not a Python exception: it marks a loop of
    the model that was cut off by its iteration budget, and no handler
    catches it. *)
Inductive exn : Type :=
| KeyError            (* row['DAT'] on a row without that column *)
| ValueError          (* strptime, float(str), max(()), sleep(<0) *)
| TypeError           (* float(None) *)
| OSError             (* termination timed out; Popen / taskkill not launched *)
| CalledProcessError  (* taskkill exited with a non-zero status *)
| ZeroDivisionError   (* kill_timer // timer *)
| SourceError         (* DBF(...) could not load the file *)
| SinkError           (* the InfluxDB client raised *)
| Unfinished.

Inductive res (A : Type) : Type :=
| Ok (a : A)
| Raise (e : exn).
Arguments Ok {A} a.
Arguments Raise {A} e.

Definition is_ok {A} (r : res A) : bool :=
  match r with Ok _ => true | Raise _ => false end.

(** ** A state-and-exception monad *)

Definition SE (S A : Type) : Type := S -> res A * S.

Definition ret {S A} (a : A) : SE S A := fun s => (Ok a, s).

Definition bind {S A B} (m : SE S A) (k : A -> SE S B) : SE S B :=
  fun s => match m s with
           | (Ok a, s') => k a s'
           | (Raise e, s') => (Raise e, s')
           end.

Definition raise {S A} (e : exn) : SE S A := fun s => (Raise e, s).

Definition gets {S A} (f : S -> A) : SE S A := fun s => (Ok (f s), s).

Definition modify {S} (f : S -> S) : SE S unit := fun s => (Ok tt, f s).

(** A pure computation that may raise, run inside the monad. *)
Definition lift {S A} (r : res A) : SE S A := fun s => (r, s).

Declare Scope se_scope.
Delimit Scope se_scope with se.
Notation "x <- m ;; k" := (bind m (fun x => k))
  (at level 61, m at next level, right associativity) : se_scope.
Notation "m ;; k" := (bind m (fun _ => k))
  (at level 61, right associativity) : se_scope.
Open Scope se_scope.

(** [try: body / except Exception as e: handler e / else: orelse].  An
    exception raised by [handler] or by [orelse] is not caught. *)
Definition try_except_else {S A} (body : SE S unit)
    (handler : exn -> SE S A) (orelse : SE S A) : SE S A :=
  fun s => match body s with
           | (Ok _, s') => orelse s'
           | (Raise Unfinished, s') => (Raise Unfinished, s')
           | (Raise e, s') => handler e s'
           end.

(** [[f x for x in xs]] for a pure [f] that may raise. *)
Fixpoint map_res {A B} (f : A -> res B) (xs : list A) : res (list B) :=
  match xs with
  | [] => Ok []
  | x :: rest =>
      match f x with
      | Raise e => Raise e
      | Ok y => match map_res f rest with
                | Raise e => Raise e
                | Ok ys => Ok (y :: ys)
                end
      end
  end.

(** ** Time stamps

    Every [datetime] the program compares carries the same [tzinfo] object
    ([local_zone]): the parsed rows by [replace(tzinfo=local_zone)], the seed
    by [astimezone(local_zone)] or [datetime.min.replace(...)].  Python then
    compares the wall-clock values and ignores the zone, so a [datetime] is a
    point of one linear time line: microseconds since 0001-01-01 00:00. *)
Definition datetime : Type := Z.

(** [datetime.min] *)
Definition datetime_min : datetime := 0.

(** [max(iterable)]: [ValueError] on an empty one. *)
Definition py_max (ts : list datetime) : res datetime :=
  match ts with
  | [] => Raise ValueError
  | t :: rest => Ok (fold_left Z.max rest t)
  end.

(** [a // b] on Python integers. *)
Definition floordiv (a b : Z) : res Z :=
  if b =? 0 then Raise ZeroDivisionError else Ok (a / b).

(** ** What the model takes from the Python runtime

    The cells of a DBF row are Python objects ([str], [int], [float],
    [date], [None]); the program only formats them into text and converts
    them with [float].  [strptime] stands for
    [datetime.strptime(s, '%Y-%m-%d %H:%M').replace(tzinfo=local_zone)]. *)
Class PyLib : Type := {
  value : Type;
  float : Type;
  py_str : value -> string;            (* f"{v}" *)
  py_float : value -> res float;       (* float(v) *)
  strptime : string -> res datetime;
  astimezone_utc : datetime -> datetime;   (* t.astimezone(utc_zone) *)
  astimezone_local : datetime -> datetime  (* t.replace(tzinfo=utc_zone).astimezone(local_zone) *)
}.

(** ** meteoconfig.py *)
Record config : Type := {
  timer : Z;
  error_timer : Z;
  kill_timer : Z;
  wait_for_kill : Z;
  influxdb_measurement : string;
  dbf_path : string;
  winmeteo_path : string
}.

Definition meteoconfig : config := {|
  timer := 30;
  error_timer := 120;
  kill_timer := 180;
  wait_for_kill := 20;
  influxdb_measurement := "winmeteo";
  dbf_path := "C:/WinMeteo/Data/meteo.DBF";
  winmeteo_path := "C:/WinMeteo/WinMeteo.exe"
|}.

(** [Path(p).name] and [Path(p).parent]: the text after, and before, the last
    separator. *)
Definition is_sep (c : ascii) : bool :=
  (c =? "/")%char || (c =? "\")%char.

Definition has_sep (p : string) : bool :=
  existsb is_sep (list_ascii_of_string p).

Fixpoint path_name (p : string) : string :=
  match p with
  | EmptyString => EmptyString
  | String c rest =>
      if has_sep rest then path_name rest
      else if is_sep c then rest else String c rest
  end.

Fixpoint path_parent (p : string) : string :=
  match p with
  | EmptyString => EmptyString
  | String c rest =>
      if has_sep rest then String c (path_parent rest) else EmptyString
  end.

(** ** Field mapper: the [match key] of [write_to_influxdb] *)

Inductive column : Type :=
| Ignored                  (* [continue] without a message *)
| Mapped (name : string)   (* [name = ...], then [point.field(name, float(value))] *)
| Unknown.                 (* [case _]: report the column, then [continue] *)

Definition map_column (key : string) : column :=
  match key with
  | "DAT" | "CAS" | "EX" | "RESETCNT" | "RESETTYP" | "_NullFlags" =>
      Ignored  (* system columns *)
  | "PWD_ERR" | "PWD_V01" | "PWD_V10" | "PWD_P01" | "PWD_P15"
  | "PWD_WI" | "PWD_WS" | "PWD_SS" | "PWD_T" | "PWD_BL" =>
      Ignored  (* currently not used columns *)
  | "VLVZD" => Mapped "humi"
  | "TEP2M" => Mapped "temp"
  | "TEP2M_I" => Mapped "temp_min"
  | "TEP2M_X" => Mapped "temp_max"
  | "TLAK" => Mapped "press"
  | "TLAK_M" => Mapped "press_sea"
  | "SRAZKY" => Mapped "rain"
  | "RYCHV" => Mapped "wind_speed"
  | "SMERV" => Mapped "wind_dir"
  | "RYCHV_P" => Mapped "wind_speed_avg"
  | "SMERV_P" => Mapped "wind_dir_avg"
  | "RYCHV_X" => Mapped "wind_speed_max"
  | "SMERV_X" => Mapped "wind_dir_max"
  | "CASV_X" => Mapped "wind_time_max"
  | "NABAT_E" => Mapped "volt_exp"
  | "NABAT" => Mapped "volt"
  | "NABAT_I" => Mapped "volt_min"
  | _ => Unknown
  end.

(** The three tables the [match] spells out, as data. *)
Definition system_columns : list string :=
  ["DAT"; "CAS"; "EX"; "RESETCNT"; "RESETTYP"; "_NullFlags"].

Definition unused_columns : list string :=
  ["PWD_ERR"; "PWD_V01"; "PWD_V10"; "PWD_P01"; "PWD_P15";
   "PWD_WI"; "PWD_WS"; "PWD_SS"; "PWD_T"; "PWD_BL"].

Definition translation : list (string * string) :=
  [("VLVZD", "humi"); ("TEP2M", "temp"); ("TEP2M_I", "temp_min");
   ("TEP2M_X", "temp_max"); ("TLAK", "press"); ("TLAK_M", "press_sea");
   ("SRAZKY", "rain"); ("RYCHV", "wind_speed"); ("SMERV", "wind_dir");
   ("RYCHV_P", "wind_speed_avg"); ("SMERV_P", "wind_dir_avg");
   ("RYCHV_X", "wind_speed_max"); ("SMERV_X", "wind_dir_max");
   ("CASV_X", "wind_time_max"); ("NABAT_E", "volt_exp"); ("NABAT", "volt");
   ("NABAT_I", "volt_min")].

Definition known_columns : list string :=
  system_columns ++ unused_columns ++ map fst translation.

Definition is_known (key : string) : bool :=
  existsb (String.eqb key) known_columns.

Definition is_unknown (key : string) : bool :=
  match map_column key with Unknown => true | _ => false end.

Section Meteoflux.

Context {L : PyLib}.
Variable cfg : config.

(** ** Rows, points, processes, events *)

(** One record of the DBF table: the ordered dictionary [dbfread] yields. *)
Definition row : Type := list (string * value).

(** [row[key]] *)
Fixpoint row_get (key : string) (r : row) : res value :=
  match r with
  | [] => Raise KeyError
  | (k, v) :: rest => if String.eqb k key then Ok v else row_get key rest
  end.

(** [datetime.strptime(f"{row['DAT']} {row['CAS']}", '%Y-%m-%d %H:%M')
      .replace(tzinfo=local_zone)] *)
Definition row_time (r : row) : res datetime :=
  match row_get "DAT" r with
  | Raise e => Raise e
  | Ok d =>
      match row_get "CAS" r with
      | Raise e => Raise e
      | Ok c => strptime (py_str d ++ " " ++ py_str c)
      end
  end.

(** An [influxdb_client.Point]: the fields are a dictionary. *)
Record point : Type := mkPoint {
  p_measurement : string;
  p_fields : list (string * float);
  p_time : option datetime
}.

Definition Point (measurement : string) : point :=
  mkPoint measurement [] None.

Fixpoint dict_set {V} (k : string) (v : V) (d : list (string * V))
  : list (string * V) :=
  match d with
  | [] => [(k, v)]
  | (k', v') :: rest =>
      if String.eqb k' k then (k', v) :: rest else (k', v') :: dict_set k v rest
  end.

(** [point.field(name, x)] *)
Definition point_field (name : string) (x : float) (p : point) : point :=
  mkPoint (p_measurement p) (dict_set name x (p_fields p)) (p_time p).

(** [point.time(t, WritePrecision.NS)] *)
Definition point_time (t : datetime) (p : point) : point :=
  mkPoint (p_measurement p) (p_fields p) (Some t).

(** A process of the operating system: its executable name and, once a
    forceful kill was accepted for it, the clock reading from which it is no
    longer listed. *)
Record proc : Type := mkProc {
  proc_name : string;
  gone_at : option Z
}.

(** What the program does to the outside, in the order it does it. *)
Inductive event : Type :=
| EvStart (name : string)             (* start_winmeteo_if_not_running called *)
| EvKill (name : string) (limit : Z)  (* kill_winmeteo called *)
| EvEnum (name : string) (found : bool)   (* any(... psutil.process_iter()) *)
| EvPopen (path cwd : string)         (* subprocess.Popen *)
| EvTaskkill (name : string)          (* subprocess.run(["taskkill", ...]) *)
| EvSleep (secs : Z)                  (* time.sleep *)
| EvLoad (path : string)              (* DBF(dbf_path, load=True) *)
| EvWrite (points : list point)       (* write_api.write *)
| EvConnect                           (* InfluxDBClient(...) and the query *)
| EvUnknownColumn (key : string)      (* print("ERROR: Unknown column: ...") *)
| EvError (e : exn).                  (* print(f"ERROR: {e}") in a handler *)

Record world : Type := mkWorld {
  clock : Z;                   (* time.time(), in seconds *)
  procs : list proc;
  sink : list (list point);    (* the batches InfluxDB accepted *)
  trace : list event
}.

Definition W (A : Type) : Type := SE world A.

Definition log (e : event) (w : world) : world :=
  mkWorld (clock w) (procs w) (sink w) (trace w ++ [e]).

Definition emit (e : event) : W unit := modify (log e).

(** A reading of [time.time()], a float.  The clock of the world counts the
    whole seconds the program has slept; the real clock is ahead of that
    count by the time the calls of the program have taken, which is more
    than nothing after any call and, the calls being short, less than a
    second however many they are.  A reading is the count of seconds and, in
    place of the fraction, the number of calls the trace holds. *)
Record reading : Type := mkReading {
  seconds : Z;
  calls : nat
}.

Definition time_time : W reading :=
  gets (fun w => mkReading (clock w) (List.length (trace w))).

(** [now - start_time > limit] for a whole number [limit] of seconds: the
    seconds between the two readings exceed the limit, or they equal it and
    [now] was read after more calls than [start_time]. *)
Definition elapsed_exceeds (now start_time : reading) (limit : Z) : bool :=
  (seconds now - seconds start_time >? limit)
  || ((seconds now - seconds start_time =? limit)
      && (calls start_time <? calls now)%nat).

(** [datetime.now()], to the second. *)
Definition datetime_now : W Z := gets clock.

(** [time.sleep(secs)] *)
Definition sleep (secs : Z) : W unit :=
  if secs <? 0 then raise ValueError
  else emit (EvSleep secs) ;;
       modify (fun w => mkWorld (clock w + secs) (procs w) (sink w) (trace w)).

Definition listed (now : Z) (p : proc) : bool :=
  match gone_at p with
  | None => true
  | Some t => now <? t
  end.

(** [psutil.process_iter()], as names *)
Definition process_iter (w : world) : list string :=
  map proc_name (filter (listed (clock w)) (procs w)).

(** [any(proc.name() == process_name for proc in psutil.process_iter())] *)
Definition process_exists (process_name : string) : W bool :=
  found <- gets (fun w =>
             existsb (fun n => String.eqb n process_name) (process_iter w)) ;;
  emit (EvEnum process_name found) ;;
  ret found.

(** [subprocess.Popen(process_path, cwd=working_dir)]; [launched] tells
    whether the operating system could start the executable. *)
Definition Popen (launched : bool) (process_path working_dir : string)
  : W unit :=
  emit (EvPopen process_path working_dir) ;;
  if launched then
    modify (fun w => mkWorld (clock w)
                       (procs w ++ [mkProc (path_name process_path) None])
                       (sink w) (trace w))
  else raise OSError.

(** What [taskkill /f /im name] does. *)
Inductive taskkill_result : Type :=
| TkAccepted (gone_after : option Z)
    (* exit status 0; the processes of that name leave the process list
       [gone_after] seconds later, or never *)
| TkExit          (* non-zero exit status: CalledProcessError *)
| TkNotLaunched.  (* taskkill itself could not be run: OSError *)

Definition doom (name : string) (t : Z) (p : proc) : proc :=
  if String.eqb (proc_name p) name then
    mkProc (proc_name p)
           (match gone_at p with
            | None => Some t
            | Some t0 => Some (Z.min t0 t)
            end)
  else p.

(** [subprocess.run(["taskkill", "/f", "/im", process_name], check=True)] *)
Definition taskkill (tk : taskkill_result) (process_name : string) : W unit :=
  emit (EvTaskkill process_name) ;;
  match tk with
  | TkAccepted (Some d) =>
      modify (fun w => mkWorld (clock w)
                         (map (doom process_name (clock w + d)) (procs w))
                         (sink w) (trace w))
  | TkAccepted None => ret tt
  | TkExit => raise CalledProcessError
  | TkNotLaunched => raise OSError
  end.

(** [influx_write_api.write(bucket=..., org=..., record=points)]; [accepted]
    tells whether the sink took the batch. *)
Definition influx_write (accepted : bool) (points : list point) : W unit :=
  emit (EvWrite points) ;;
  if accepted then
    modify (fun w => mkWorld (clock w) (procs w) (sink w ++ [points]) (trace w))
  else raise SinkError.

(** ** get_last_timestamp *)

(** The answer of the query: tables of records, each with its time. *)
Definition get_last_timestamp (tables : list (list datetime))
  : option datetime :=
  match List.concat tables with
  | [] => None
  | t :: _ => Some (astimezone_local t)
  end.

(** ** write_to_influxdb *)

(** [for key, value in row.items(): ...] on one row *)
Fixpoint fields_loop (items : row) (p : point) : W point :=
  match items with
  | [] => ret p
  | (key, v) :: rest =>
      match map_column key with
      | Ignored => fields_loop rest p
      | Unknown => emit (EvUnknownColumn key) ;; fields_loop rest p
      | Mapped name =>
          x <- lift (py_float v) ;;
          fields_loop rest (point_field name x p)
      end
  end.

(** The body of [for row in data] *)
Definition make_point (r : row) : W point :=
  p <- fields_loop r (Point (influxdb_measurement cfg)) ;;
  timestamp <- lift (row_time r) ;;
  ret (point_time (astimezone_utc timestamp) p).

Fixpoint points_loop (data : list row) (points : list point)
  : W (list point) :=
  match data with
  | [] => ret points
  | r :: rest =>
      p <- make_point r ;;
      points_loop rest (points ++ [p])
  end.

Definition write_to_influxdb (accepted : bool) (data : list row) : W unit :=
  points <- points_loop data [] ;;
  influx_write accepted points.

(** ** read_new_rows_from_dbf *)

(** [for record in table: ...], a pure loop over the loaded table *)
Fixpoint new_rows_loop (table : list row) (last_timestamp : datetime)
    (new_rows : list row) : res (list row) :=
  match table with
  | [] => Ok new_rows
  | record :: rest =>
      match row_time record with
      | Raise e => Raise e
      | Ok record_time =>
          if last_timestamp <? record_time
          then new_rows_loop rest last_timestamp (new_rows ++ [record])
          else new_rows_loop rest last_timestamp new_rows
      end
  end.

(** [file] is what [DBF(dbf_path, load=True)] finds: the table, or nothing
    when the file cannot be loaded. *)
Definition read_new_rows_from_dbf (file : option (list row))
    (last_timestamp : datetime) : W (list row) :=
  emit (EvLoad (dbf_path cfg)) ;;
  match file with
  | None => raise SourceError
  | Some table => lift (new_rows_loop table last_timestamp [])
  end.

(** ** start_winmeteo_if_not_running *)

Definition start_winmeteo_if_not_running (launched : bool)
    (process_name process_path working_dir : string) : W unit :=
  emit (EvStart process_name) ;;
  running <- process_exists process_name ;;
  if negb running then Popen launched process_path working_dir
  else ret tt.

(** ** kill_winmeteo *)

(** The [while True] loop.  Every round that does not leave the loop sleeps
    one second, so the elapsed time grows by one per round and the loop
    leaves after at most [kill_time_limit + 1] rounds: [rounds] is that
    budget. *)
Fixpoint wait_gone (rounds : nat) (process_name : string)
    (kill_time_limit : Z) (start_time : reading) : W unit :=
  match rounds with
  | O => raise Unfinished
  | S n =>
      process_exists <- process_exists process_name ;;
      if negb process_exists then ret tt
      else
        now <- time_time ;;
        if elapsed_exceeds now start_time kill_time_limit then raise OSError
        else sleep 1 ;;
             wait_gone n process_name kill_time_limit start_time
  end.

Definition wait_rounds (kill_time_limit : Z) : nat :=
  S (Z.to_nat kill_time_limit).

Definition kill_winmeteo (tk : taskkill_result) (process_name : string)
    (kill_time_limit : Z) : W unit :=
  emit (EvKill process_name kill_time_limit) ;;
  process_exists <- process_exists process_name ;;
  if process_exists then
    fun w =>
      match taskkill tk process_name w with
      | (Raise CalledProcessError, w') => (Ok tt, w')   (* report, [return] *)
      | (Raise e, w') => (Raise e, w')
      | (Ok _, w') =>
          (start_time <- time_time ;;
           wait_gone (wait_rounds kill_time_limit) process_name
                     kill_time_limit start_time) w'
      end
  else ret tt.

(** ** main *)

(** The local variables of [main] that the loop reads and assigns. *)
Record locals : Type := mkLocals {
  last_timestamp : datetime;
  iterations : Z;
  zeros : Z;
  restarts : Z;
  last_restart : Z
}.

Record state : Type := mkState {
  vars : locals;
  os : world
}.

Definition M (A : Type) : Type := SE state A.

(** A call of one of the functions above: it sees the world, never the
    local variables of [main]. *)
Definition call {A} (m : W A) : M A :=
  fun s => let (r, w) := m (os s) in (r, mkState (vars s) w).

Definition assign (f : locals -> locals) : M unit :=
  modify (fun s => mkState (f (vars s)) (os s)).

Definition read {A} (f : locals -> A) : M A := gets (fun s => f (vars s)).

Definition set_last_timestamp (t : datetime) (l : locals) : locals :=
  mkLocals t (iterations l) (zeros l) (restarts l) (last_restart l).
Definition set_iterations (n : Z) (l : locals) : locals :=
  mkLocals (last_timestamp l) n (zeros l) (restarts l) (last_restart l).
Definition set_zeros (n : Z) (l : locals) : locals :=
  mkLocals (last_timestamp l) (iterations l) n (restarts l) (last_restart l).
Definition set_restarts (n : Z) (l : locals) : locals :=
  mkLocals (last_timestamp l) (iterations l) (zeros l) n (last_restart l).
Definition set_last_restart (t : Z) (l : locals) : locals :=
  mkLocals (last_timestamp l) (iterations l) (zeros l) (restarts l) t.

Definition winmeteo_process : string := path_name (winmeteo_path cfg).
Definition winmeteo_dir : string := path_parent (winmeteo_path cfg).

(** What the outside world answers during one iteration of the main loop. *)
Record answers : Type := mkAnswers {
  dbf_file : option (list row);      (* the table in the DBF file, if it loads *)
  write_accepted : bool;             (* does InfluxDB take the batch *)
  taskkill_does : taskkill_result;
  popen_launches : bool
}.

(** [max(strptime(...) for row in new_rows)] *)
Definition max_row_time (new_rows : list row) : res datetime :=
  match map_res row_time new_rows with
  | Raise e => Raise e
  | Ok ts => py_max ts
  end.

(** The [try] block of the main loop, in three steps.  First the poll:
    [new_rows = read_new_rows_from_dbf(last_timestamp)] and the
    [if new_rows: ... else: ...] that follows it. *)
Definition poll_and_write (a : answers) : M unit :=
  watermark <- read last_timestamp ;;
  new_rows <- call (read_new_rows_from_dbf (dbf_file a) watermark) ;;
  match new_rows with
  | _ :: _ =>
      call (write_to_influxdb (write_accepted a) new_rows) ;;
      newest <- lift (max_row_time new_rows) ;;
      assign (set_last_timestamp newest) ;;
      assign (set_zeros 0)
  | [] =>
      assign (fun l => set_zeros (zeros l + 1) l)
  end.

(** Then [if zeros >= max_zeros: ...]. *)
Definition restart_if_stalled (max_zeros : Z) (a : answers) : M unit :=
  z <- read zeros ;;
  if z >=? max_zeros then
    call (kill_winmeteo (taskkill_does a) winmeteo_process
                        (wait_for_kill cfg)) ;;
    call (start_winmeteo_if_not_running (popen_launches a) winmeteo_process
                        (winmeteo_path cfg) winmeteo_dir) ;;
    assign (fun l => set_restarts (restarts l + 1) l) ;;
    now <- call datetime_now ;;
    assign (set_last_restart now) ;;
    assign (set_zeros 0)
  else ret tt.

Definition iteration_body (max_zeros : Z) (a : answers) : M unit :=
  assign (fun l => set_iterations (iterations l + 1) l) ;;
  poll_and_write a ;;
  restart_if_stalled max_zeros a.

(** One turn of [while True]: the [try], its [except Exception] and its
    [else]. *)
Definition iteration (max_zeros : Z) (a : answers) : M unit :=
  try_except_else
    (iteration_body max_zeros a)
    (fun e => call (emit (EvError e)) ;; call (sleep (error_timer cfg)))
    (call (sleep (timer cfg))).

(** The main loop for as many turns as there are answers. *)
Fixpoint main_loop (max_zeros : Z) (script : list answers) : M unit :=
  match script with
  | [] => ret tt
  | a :: rest => iteration max_zeros a ;; main_loop max_zeros rest
  end.

(** The connect loop.  An attempt is what the client and the query give:
    the tables of the answer, or nothing when anything in the [try] raises.
    The loop has no way out but success: when the attempts run out it is
    still turning. *)
Fixpoint connect_loop (attempts : list (option (list (list datetime))))
  : W datetime :=
  match attempts with
  | [] => raise Unfinished
  | attempt :: rest =>
      emit EvConnect ;;
      match attempt with
      | Some tables =>
          ret (match get_last_timestamp tables with
               | Some t => t
               | None => datetime_min
               end)
      | None =>
          emit (EvError SinkError) ;;
          sleep (error_timer cfg) ;;
          connect_loop rest
      end
  end.

(** [main], up to the main loop: the state the loop starts from and the
    stall threshold. *)
Definition startup (launched : bool)
    (attempts : list (option (list (list datetime)))) : W (locals * Z) :=
  start_winmeteo_if_not_running launched winmeteo_process
                                (winmeteo_path cfg) winmeteo_dir ;;
  watermark <- connect_loop attempts ;;
  now <- datetime_now ;;
  max_zeros <- lift (floordiv (kill_timer cfg) (timer cfg)) ;;
  ret (mkLocals watermark 0 0 0 now, max_zeros).

Definition main (launched : bool)
    (attempts : list (option (list (list datetime))))
    (script : list answers) : W locals :=
  fun w =>
    match startup launched attempts w with
    | (Raise e, w') => (Raise e, w')
    | (Ok (l, max_zeros), w') =>
        match main_loop max_zeros script (mkState l w') with
        | (Raise e, s) => (Raise e, os s)
        | (Ok _, s) => (Ok (vars s), os s)
        end
    end.

(** ** Vocabulary of the properties *)

(** The row carries a date and a time that [strptime] reads. *)
Definition well_formed (r : row) : bool := is_ok (row_time r).

(** The row's time stamp is strictly after the watermark. *)
Definition newer (watermark : datetime) (r : row) : bool :=
  match row_time r with
  | Ok t => watermark <? t
  | Raise _ => false
  end.

(** Every cell of a translated column converts with [float]. *)
Definition coercible (r : row) : bool :=
  forallb (fun kv => match map_column (fst kv) with
                     | Mapped _ => is_ok (py_float (snd kv))
                     | _ => true
                     end) r.

(** The row without the columns the mapper does not know. *)
Definition drop_unknown (r : row) : row :=
  filter (fun kv => negb (is_unknown (fst kv))) r.

Definition unknown_keys (r : row) : list string :=
  filter is_unknown (map fst r).

(** The file loads, every row is well formed and none is newer than the
    watermark: the poll finds nothing. *)
Definition polls_empty (watermark : datetime) (a : answers) : bool :=
  match dbf_file a with
  | Some table =>
      forallb (fun r => well_formed r && negb (newer watermark r)) table
  | None => false
  end.

(** A process of that name is in the process list at clock reading [t]. *)
Definition listed_at (name : string) (t : Z) (ps : list proc) : bool :=
  existsb (fun p => String.eqb (proc_name p) name && listed t p) ps.

(** The process table once [taskkill] has answered. *)
Definition procs_after (tk : taskkill_result) (name : string) (w : world)
  : list proc :=
  match tk with
  | TkAccepted (Some d) => map (doom name (clock w + d)) (procs w)
  | _ => procs w
  end.

(** The number of one-second sleeps after which [kill_winmeteo] gives up:
    the limit itself, the look after that many sleeps being made more than
    [kill_time_limit] seconds after the start; none for a negative limit. *)
Definition patience (kill_time_limit : Z) : Z := Z.max 0 kill_time_limit.

(** A process of that name is still listed when [kill_winmeteo] gives up. *)
Definition outlives_wait (tk : taskkill_result) (name : string)
    (kill_time_limit : Z) (w : world) : bool :=
  listed_at name (clock w + patience kill_time_limit) (procs_after tk name w).

(** What a call of [kill_winmeteo] in world [w] comes to. *)
Definition kill_result (tk : taskkill_result) (name : string)
    (kill_time_limit : Z) (w : world) : res unit :=
  if listed_at name (clock w) (procs w) then
    match tk with
    | TkExit => Ok tt
    | TkNotLaunched => Raise OSError
    | TkAccepted _ =>
        if outlives_wait tk name kill_time_limit w then Raise OSError
        else Ok tt
    end
  else Ok tt.

(** The calls of the two supervisor functions in a trace. *)
Definition is_supervisor_call (e : event) : bool :=
  match e with
  | EvStart _ | EvKill _ _ => true
  | _ => false
  end.

Definition supervisor_calls (tr : list event) : list event :=
  filter is_supervisor_call tr.

Definition is_start (e : event) : bool :=
  match e with EvStart _ => true | _ => false end.

Definition is_popen (e : event) : bool :=
  match e with EvPopen _ _ => true | _ => false end.

(** From [w] to [w'] nothing happened but entries in the trace, none of them
    a call of a supervisor function. *)
Definition is_write (e : event) : bool :=
  match e with EvWrite _ => true | _ => false end.

Definition is_kill (e : event) : bool :=
  match e with EvKill _ _ => true | _ => false end.

Definition only_logged (w w' : world) : Prop :=
  clock w' = clock w /\ procs w' = procs w /\ sink w' = sink w
  /\ exists delta, trace w' = (trace w ++ delta)%list
                   /\ supervisor_calls delta = []
                   /\ filter is_write delta = [].

(** [taskkill] is accepted and the processes leave the process list before
    [kill_winmeteo] gives up. *)
Definition dies_in_time (kill_time_limit : Z) (tk : taskkill_result) : bool :=
  match tk with
  | TkAccepted (Some d) => d <=? patience kill_time_limit
  | _ => false
  end.

(** In state [s] the turn answered by [a] polls nothing, reaches the stall
    threshold and asks a running process to end, which is accepted, but a
    process of that name is still listed when [kill_winmeteo] gives up. *)
Definition termination_times_out (max_zeros : Z) (a : answers) (s : state)
  : Prop :=
  polls_empty (last_timestamp (vars s)) a = true
  /\ max_zeros <= zeros (vars s) + 1
  /\ listed_at winmeteo_process (clock (os s)) (procs (os s)) = true
  /\ (exists g, taskkill_does a = TkAccepted g)
  /\ outlives_wait (taskkill_does a) winmeteo_process (wait_for_kill cfg)
                   (os s) = true.

(** The events of a call of [kill_winmeteo] that gives up: the call, the
    first enumeration, the kill, then one enumeration per second. *)
Definition timeout_events (name : string) (kill_time_limit : Z)
    (rounds : list event) : list event :=
  ([EvKill name kill_time_limit; EvEnum name true; EvTaskkill name]
     ++ rounds ++ [EvEnum name true])%list.

(** Three readings of the specification that the program does not follow.

    The first: whatever the table in the file, [read_new_rows_from_dbf]
    returns its rows that are newer than the watermark. *)
Definition returns_newer_rows_of_every_file : Prop :=
  forall (table : list row) (watermark : datetime) (w : world),
    fst (read_new_rows_from_dbf (Some table) watermark w) =
    Ok (filter (newer watermark) table).

(** The second: with a sink that takes every batch, a batch of well-formed
    rows is always written, one point per row, whatever cells [float]
    refuses. *)
Definition writes_despite_coercion_failure : Prop :=
  forall (data : list row) (w : world),
    forallb well_formed data = true ->
    fst (write_to_influxdb true data w) = Ok tt
    /\ exists pts, sink (snd (write_to_influxdb true data w))
                   = (sink w ++ [pts])%list
                   /\ List.length pts = List.length data.

(** The third: after a turn in which the termination timed out, a run of
    empty polls shorter than the threshold brings no further call of
    [kill_winmeteo]. *)
Definition restart_waits_for_new_run (max_zeros : Z) : Prop :=
  forall (a : answers) (s : state) (script : list answers),
    termination_times_out max_zeros a s ->
    let s1 := snd (iteration max_zeros a s) in
    Forall (fun x => polls_empty (last_timestamp (vars s1)) x = true) script ->
    Z.of_nat (List.length script) < max_zeros ->
    filter is_kill (trace (os (snd (main_loop max_zeros script s1)))) =
    filter is_kill (trace (os s1)).

(** [n] rounds of the waiting loop that found the process and slept. *)
Fixpoint poll_rounds (n : nat) (name : string) : list event :=
  match n with
  | O => []
  | S k => EvEnum name true :: EvSleep 1 :: poll_rounds k name
  end.

(** What one failed connection attempt leaves in the trace. *)
Definition failed_attempt : list event :=
  [EvConnect; EvError SinkError; EvSleep (error_timer cfg)].

Definition is_taskkill (e : event) : bool :=
  match e with EvTaskkill _ => true | _ => false end.

Definition is_sleep (e : event) : bool :=
  match e with EvSleep _ => true | _ => false end.

(** The point [p] is what [write_to_influxdb] makes of the row [r]: the
    configured measurement, the row's time stamp converted to UTC, and as
    fields, each name once, exactly the cells of the translated columns,
    converted with [float], under the names of the translation table. *)
Definition rendered (r : row) (p : point) : Prop :=
  p_measurement p = influxdb_measurement cfg
  /\ (exists t, row_time r = Ok t /\ p_time p = Some (astimezone_utc t))
  /\ NoDup (map fst (p_fields p))
  /\ (forall name x,
        In (name, x) (p_fields p) <->
        exists key v, In (key, v) r /\ map_column key = Mapped name
                      /\ py_float v = Ok x).

(** [Unfinished] marks a loop of the model that was cut off: a result of
    the Python runtime is a value or a Python exception, never that mark.
    The runtime answers a row when reading its time stamp and converting
    each of its cells gives such a result, and a turn when it answers every
    row of the file of that turn. *)
Definition python_result {A} (r : res A) : bool :=
  match r with
  | Raise Unfinished => false
  | _ => true
  end.

Definition runtime_answers_row (r : row) : bool :=
  python_result (row_time r)
  && forallb (fun kv => python_result (py_float (snd kv))) r.

Definition runtime_answers (a : answers) : bool :=
  match dbf_file a with
  | Some table => forallb runtime_answers_row table
  | None => true
  end.

(** The turn answered by [a] cannot complete its poll: the file does not
    load, or one of its rows has no readable date and time. *)
Definition source_unreadable (a : answers) : Prop :=
  match dbf_file a with
  | None => True
  | Some table => forallb well_formed table = false
  end.

End Meteoflux.

(** ** A reference runtime, to run the program on concrete rows

    The cells are text.  [float] is read for plain decimal notation (an
    optional sign, digits, an optional point and more digits; CPython also
    takes exponents, [inf], [nan], blanks around and underscores between the
    digits, which this reader refuses), and kept as an exact decimal.
    [strptime] follows the regular expression CPython builds for
    ['%Y-%m-%d %H:%M'] on ASCII text (but for a day padded with a blank,
    which is refused here): four digits of year, one or two of month, day,
    hour and minute, at least one white space between date and time, nothing
    after the minute, and the ranges of [datetime]. *)
Module Ref.

Record decimal : Type := mkDecimal {
  mantissa : Z;
  places : nat     (* the value is mantissa / 10^places *)
}.

Definition digit (c : ascii) : option Z :=
  let n := Z.of_nat (nat_of_ascii c) in
  if (48 <=? n) && (n <=? 57) then Some (n - 48) else None.

(** The longest run of digits at the front, and what follows it. *)
Fixpoint digits (s : string) : list Z * string :=
  match s with
  | EmptyString => ([], EmptyString)
  | String c rest =>
      match digit c with
      | Some d => let (ds, tail) := digits rest in (d :: ds, tail)
      | None => ([], s)
      end
  end.

Definition number (ds : list Z) : Z :=
  fold_left (fun acc d => 10 * acc + d) ds 0.

Definition unsigned_decimal (s : string) : res decimal :=
  let (int_part, after) := digits s in
  match after with
  | EmptyString =>
      match int_part with
      | [] => Raise ValueError
      | _ => Ok (mkDecimal (number int_part) 0)
      end
  | String "." rest =>
      let (frac_part, tail) := digits rest in
      match tail, (int_part ++ frac_part)%list with
      | EmptyString, _ :: _ =>
          Ok (mkDecimal (number (int_part ++ frac_part)%list) (List.length frac_part))
      | _, _ => Raise ValueError
      end
  | _ => Raise ValueError
  end.

Definition float_of_text (s : string) : res decimal :=
  match s with
  | String "-" rest =>
      match unsigned_decimal rest with
      | Ok d => Ok (mkDecimal (- mantissa d) (places d))
      | Raise e => Raise e
      end
  | String "+" rest => unsigned_decimal rest
  | _ => unsigned_decimal s
  end.

Definition is_leap (y : Z) : bool :=
  ((y mod 4 =? 0) && negb (y mod 100 =? 0)) || (y mod 400 =? 0).

Definition days_in_month (y m : Z) : Z :=
  if m =? 2 then (if is_leap y then 29 else 28)
  else if (m =? 4) || (m =? 6) || (m =? 9) || (m =? 11) then 30
  else 31.

Definition days_before_year (y : Z) : Z :=
  let p := y - 1 in p * 365 + p / 4 - p / 100 + p / 400.

Fixpoint days_before_month (y : Z) (m : nat) : Z :=
  match m with
  | O => 0
  | S k => days_before_month y k + days_in_month y (Z.of_nat (S k))
  end.

(** Microseconds from 0001-01-01 00:00 to the given minute. *)
Definition minute_stamp (y m d hh mm : Z) : datetime :=
  ((((days_before_year y + days_before_month y (Z.to_nat (m - 1)) + (d - 1))
     * 24 + hh) * 60 + mm) * 60) * 1000000.

Definition is_space (c : ascii) : bool :=
  let n := nat_of_ascii c in
  (Nat.eqb n 32 || (Nat.leb 9 n && Nat.leb n 13))%bool.

Fixpoint skip_spaces (s : string) : string :=
  match s with
  | String c rest => if is_space c then skip_spaces rest else s
  | EmptyString => s
  end.

Definition one_or_two (ds : list Z) : bool :=
  match ds with
  | [_] | [_; _] => true
  | _ => false
  end.

Definition strptime_ymd_hm (s : string) : res datetime :=
  let (ys, s1) := digits s in
  match s1 with
  | String "-" s2 =>
      let (ms, s3) := digits s2 in
      match s3 with
      | String "-" s4 =>
          let (ds, s5) := digits s4 in
          match s5 with
          | String c s6 =>
              if is_space c then
                let (hs, s7) := digits (skip_spaces s6) in
                match s7 with
                | String ":" s8 =>
                    let (ns, s9) := digits s8 in
                    match s9 with
                    | EmptyString =>
                        let y := number ys in
                        let m := number ms in
                        let d := number ds in
                        let hh := number hs in
                        let mm := number ns in
                        if (Nat.eqb (List.length ys) 4 && one_or_two ms
                            && one_or_two ds && one_or_two hs && one_or_two ns
                            && (1 <=? y) && (1 <=? m) && (m <=? 12)
                            && (1 <=? d) && (d <=? days_in_month y m)
                            && (hh <=? 23) && (mm <=? 59))%bool
                        then Ok (minute_stamp y m d hh mm)
                        else Raise ValueError
                    | _ => Raise ValueError
                    end
                | _ => Raise ValueError
                end
              else Raise ValueError
          | _ => Raise ValueError
          end
      | _ => Raise ValueError
      end
  | _ => Raise ValueError
  end.

#[export] Instance RefLib : PyLib := {|
  value := string;
  float := decimal;
  py_str := fun s => s;
  py_float := float_of_text;
  strptime := strptime_ymd_hm;
  astimezone_utc := fun t => t - 3600 * 1000000;     (* CET, no summer time *)
  astimezone_local := fun t => t + 3600 * 1000000
|}.

End Ref.

(** ** The scenarios the properties are checked on *)
Module Scenario.

Import Ref.

Definition reading (date clock_time humidity temperature : string) : row :=
  [("DAT", date); ("CAS", clock_time); ("EX", "1");
   ("VLVZD", humidity); ("TEP2M", temperature)].

Definition at_1000 : row := reading "2024-01-01" "10:00" "55.2" "3.4".
Definition at_1015 : row := reading "2024-01-01" "10:15" "54.8" "3.6".
Definition at_1005 : row := reading "2024-01-01" "10:05" "55.0" "3.5".

(** A row with a humidity that is no number, and one with a time that is no
    time. *)
Definition no_number : row := reading "2024-01-01" "10:20" "n/a" "3.7".
Definition no_time : row := reading "2024-01-01" "25:00" "55.1" "3.8".

(** A row with a column the mapper does not know. *)
Definition with_extra : row := (at_1000 ++ [("FOO", "1")])%list.

Definition stamp_1000 : datetime := 63839700000000000.
Definition stamp_1005 : datetime := stamp_1000 + 5 * 60 * 1000000.
Definition stamp_1015 : datetime := stamp_1000 + 15 * 60 * 1000000.

(** WinMeteo is running; nothing was written or logged yet. *)
Definition running : world :=
  mkWorld 1000 [mkProc "WinMeteo.exe" None] [] [].

(** No process at all. *)
Definition idle : world := mkWorld 1000 [] [] [].

(** The main loop at its start with an empty sink behind it; the loop with
    the watermark at 10:00 and no empty poll counted; the same with five
    empty polls counted. *)
Definition first_turn : state :=
  mkState (mkLocals datetime_min 0 0 0 1000) running.
Definition caught_up : state :=
  mkState (mkLocals stamp_1000 1 0 0 1000) running.
Definition stalled : state :=
  mkState (mkLocals stamp_1000 6 5 0 1000) running.

(** Answers of the outside world: the file holds the three readings and the
    sink takes or refuses the batch; the file holds nothing new and the kill
    takes effect after three seconds, or never, or cannot be issued. *)
Definition three_readings : list row := [at_1000; at_1015; at_1005].

Definition new_data : answers :=
  mkAnswers (Some three_readings) true (TkAccepted (Some 3)) true.
Definition sink_down : answers :=
  mkAnswers (Some three_readings) false (TkAccepted (Some 3)) true.
Definition nothing_new : answers :=
  mkAnswers (Some [at_1000]) true (TkAccepted (Some 3)) true.
Definition hung : answers :=
  mkAnswers (Some [at_1000]) true (TkAccepted None) true.
Definition kill_refused : answers :=
  mkAnswers (Some [at_1000]) true TkExit true.

(** A row without the column [DAT]. *)
Definition no_date : row := [("CAS", "10:00"); ("VLVZD", "55.2")].

(** The loop with five empty polls counted and no process at all. *)
Definition stalled_idle : state :=
  mkState (mkLocals stamp_1000 6 5 0 1000) idle.

(** More answers of the outside world: nothing new and an executable that
    cannot be started; a file with a row whose time is no time. *)
Definition launch_fails : answers :=
  mkAnswers (Some [at_1000]) true (TkAccepted (Some 3)) false.
Definition garbled : answers :=
  mkAnswers (Some [at_1015; no_time]) true (TkAccepted (Some 3)) true.

(** A file with a new reading whose humidity is no number. *)
Definition bad_cell : answers :=
  mkAnswers (Some [at_1015; no_number]) true (TkAccepted (Some 3)) true.

(** The answer of the query: an empty table, then one with a record. *)
Definition last_record : list (list datetime) := [[]; [stamp_1000]].

(** Two other configurations: a poll interval of zero, and a stall limit
    shorter than the poll interval. *)
Definition zero_timer : config := {|
  timer := 0;
  error_timer := 120;
  kill_timer := 180;
  wait_for_kill := 20;
  influxdb_measurement := "winmeteo";
  dbf_path := "C:/WinMeteo/Data/meteo.DBF";
  winmeteo_path := "C:/WinMeteo/WinMeteo.exe"
|}.

Definition short_kill : config := {|
  timer := 30;
  error_timer := 120;
  kill_timer := 20;
  wait_for_kill := 20;
  influxdb_measurement := "winmeteo";
  dbf_path := "C:/WinMeteo/Data/meteo.DBF";
  winmeteo_path := "C:/WinMeteo/WinMeteo.exe"
|}.

End Scenario.

(** * Properties *)

Open Scope list_scope.

(** ** The field mapper *)

Ltac split_key :=
  repeat match goal with
  | H : false = true |- _ => discriminate H
  | H : true = false |- _ => discriminate H
  | |- context [match ?x with _ => _ end] =>
      is_var x; destruct x; cbn in *; try reflexivity; try discriminate
  end.

Lemma map_column_unknown (key : string) :
  is_known key = false -> map_column key = Unknown.
Proof.
  unfold is_known, known_columns, system_columns, unused_columns, translation,
    map_column.
  cbn. intros H. split_key.
Qed.

Lemma is_known_In (key : string) :
  is_known key = true <-> In key known_columns.
Proof.
  unfold is_known. rewrite existsb_exists. split.
  - intros [k [Hin Heq]]. apply String.eqb_eq in Heq. now subst.
  - intros Hin. exists key. split; [assumption | apply String.eqb_refl].
Qed.

Lemma map_column_known (key : string) :
  is_known key = true -> map_column key <> Unknown.
Proof.
  intros H. apply is_known_In in H.
  unfold known_columns, system_columns, unused_columns, translation in H.
  cbn in H.
  repeat (destruct H as [<- | H]; [cbn; discriminate |]).
  contradiction.
Qed.

Lemma is_unknown_spec (key : string) : is_unknown key = negb (is_known key).
Proof.
  unfold is_unknown. destruct (is_known key) eqn:K.
  - apply map_column_known in K. now destruct (map_column key).
  - now rewrite (map_column_unknown key K).
Qed.

Section Properties.

Context {L : PyLib}.
Variable cfg : config.

(** ** The record extractor *)

Lemma new_rows_loop_ok (table : list row) (watermark : datetime)
    (acc : list row) :
  forallb well_formed table = true ->
  new_rows_loop table watermark acc =
  Ok (acc ++ filter (newer watermark) table).
Proof.
  revert acc. induction table as [|r table IH]; intros acc H; cbn.
  - now rewrite app_nil_r.
  - cbn in H. apply andb_prop in H as [Hr Ht].
    unfold well_formed in Hr. unfold newer.
    destruct (row_time r) as [t|e]; [|discriminate].
    destruct (watermark <? t).
    + rewrite IH by assumption. now rewrite <- app_assoc.
    + now apply IH.
Qed.

Lemma new_rows_loop_raises (table : list row) (watermark : datetime)
    (acc : list row) :
  forallb well_formed table = false ->
  exists e, new_rows_loop table watermark acc = Raise e.
Proof.
  revert acc. induction table as [|r table IH]; intros acc H; cbn in *.
  - discriminate.
  - unfold well_formed in H at 1.
    destruct (row_time r) as [t|e]; cbn in H.
    + destruct (watermark <? t); now apply IH.
    + now exists e.
Qed.

Lemma new_rows_loop_inv (table : list row) (watermark : datetime)
    (rows : list row) :
  new_rows_loop table watermark [] = Ok rows ->
  forallb well_formed table = true /\ rows = filter (newer watermark) table.
Proof.
  intros H. destruct (forallb well_formed table) eqn:F.
  - rewrite new_rows_loop_ok in H by assumption. cbn in H.
    now injection H as <-.
  - destruct (new_rows_loop_raises table watermark [] F) as [e He].
    congruence.
Qed.

Lemma newer_well_formed (watermark : datetime) (r : row) :
  newer watermark r = true -> well_formed r = true.
Proof.
  unfold newer, well_formed. now destruct (row_time r).
Qed.

(** ** The newest time stamp of a batch *)

Lemma fold_max_le (ts : list Z) (t : Z) : t <= fold_left Z.max ts t.
Proof.
  revert t. induction ts as [|u ts IH]; intros t; cbn; [lia|].
  specialize (IH (Z.max t u)). lia.
Qed.

Lemma fold_max_upper (ts : list Z) (t u : Z) :
  In u ts -> u <= fold_left Z.max ts t.
Proof.
  revert t. induction ts as [|v ts IH]; intros t Hin; cbn; [contradiction|].
  destruct Hin as [-> | Hin].
  - pose proof (fold_max_le ts (Z.max t u)). lia.
  - now apply IH.
Qed.

Lemma fold_max_in (ts : list Z) (t : Z) :
  fold_left Z.max ts t = t \/ In (fold_left Z.max ts t) ts.
Proof.
  revert t. induction ts as [|v ts IH]; intros t; cbn; [now left|].
  destruct (IH (Z.max t v)) as [H | H].
  - rewrite H. destruct (Z.max_spec t v) as [[_ E] | [_ E]]; rewrite E; auto.
  - auto.
Qed.

Lemma py_max_spec (ts : list datetime) (m : datetime) :
  py_max ts = Ok m -> In m ts /\ forall t, In t ts -> t <= m.
Proof.
  destruct ts as [|t ts]; cbn; [discriminate|].
  intros H. injection H as <-. split.
  - destruct (fold_max_in ts t) as [E | Hin]; [left; now rewrite E | now right].
  - intros u [<- | Hin]; [apply fold_max_le | now apply fold_max_upper].
Qed.

Lemma map_res_newer (watermark : datetime) (rows : list row) :
  forallb (newer watermark) rows = true ->
  exists ts, map_res row_time rows = Ok ts
             /\ List.length ts = List.length rows
             /\ Forall (fun t => watermark < t) ts.
Proof.
  induction rows as [|r rows IH]; cbn; intros H.
  - exists []; repeat split; constructor.
  - apply andb_prop in H as [Hr Hrows]. unfold newer in Hr.
    destruct (row_time r) as [t|e]; [|discriminate].
    destruct (IH Hrows) as [ts [-> [Hlen Hall]]].
    exists (t :: ts). cbn. repeat split; [now rewrite Hlen|].
    constructor; [now apply Z.ltb_lt | assumption].
Qed.

Lemma map_res_In {A B} (f : A -> res B) (xs : list A) (ys : list B) :
  map_res f xs = Ok ys ->
  (forall y, In y ys -> exists x, In x xs /\ f x = Ok y)
  /\ (forall x, In x xs -> exists y, In y ys /\ f x = Ok y).
Proof.
  revert ys. induction xs as [|x xs IH]; cbn; intros ys H.
  - injection H as <-. split; intros ? [].
  - destruct (f x) as [y|e] eqn:Fx; [|discriminate].
    destruct (map_res f xs) as [ys'|e]; [|discriminate].
    injection H as <-. destruct (IH ys' eq_refl) as [IH1 IH2]. split.
    + intros z [<- | Hz]; [exists x; auto|].
      destruct (IH1 z Hz) as [x' [Hx' E]]. exists x'; auto.
    + intros z [<- | Hz]; [exists y; cbn; auto|].
      destruct (IH2 z Hz) as [y' [Hy' E]]. exists y'; cbn; auto.
Qed.

Lemma filter_forallb {A} (f : A -> bool) (xs : list A) :
  forallb f (filter f xs) = true.
Proof.
  induction xs as [|x xs IH]; cbn; [reflexivity|].
  destruct (f x) eqn:F; cbn; [rewrite F|]; assumption.
Qed.

(** The newest time stamp of a non-empty batch of rows newer than the
    watermark exists, is the time stamp of one of them, bounds them all and
    is itself after the watermark. *)
Lemma max_row_time_newer (watermark : datetime) (rows : list row) :
  rows <> [] ->
  forallb (newer watermark) rows = true ->
  exists m, max_row_time rows = Ok m
            /\ watermark < m
            /\ (exists r, In r rows /\ row_time r = Ok m)
            /\ (forall r t, In r rows -> row_time r = Ok t -> t <= m).
Proof.
  intros Hne Hnew. unfold max_row_time.
  destruct (map_res_newer watermark rows Hnew) as [ts [E [Hlen Hall]]].
  rewrite E. destruct ts as [|t ts].
  - destruct rows; [contradiction | discriminate].
  - exists (fold_left Z.max ts t).
    destruct (py_max_spec (t :: ts) _ eq_refl) as [Hin Hub].
    destruct (map_res_In _ _ _ E) as [Back Forth].
    split; [reflexivity|]. split.
    + rewrite Forall_forall in Hall. now apply Hall.
    + split.
      * destruct (Back _ Hin) as [r [Hr Er]]. now exists r.
      * intros r u Hr Er. destruct (Forth r Hr) as [u' [Hu' Er']].
        rewrite Er in Er'. injection Er' as <-. now apply Hub.
Qed.

(** ** The supervisor *)

Ltac list_norm :=
  repeat first [ rewrite <- app_assoc
               | rewrite <- app_comm_cons
               | progress cbn [app] ].

Ltac run :=
  unfold bind, ret, raise, gets, modify, lift, emit, time_time, datetime_now;
  cbn.

Lemma listed_at_process_iter (name : string) (w : world) :
  existsb (fun n => String.eqb n name) (process_iter w) =
  listed_at name (clock w) (procs w).
Proof.
  unfold process_iter, listed_at.
  induction (procs w) as [|p ps IH]; cbn; [reflexivity|].
  destruct (listed (clock w) p); cbn.
  - now rewrite IH, andb_true_r.
  - now rewrite IH, andb_false_r.
Qed.

Lemma process_exists_run (name : string) (w : world) :
  process_exists name w =
  (Ok (listed_at name (clock w) (procs w)),
   log (EvEnum name (listed_at name (clock w) (procs w))) w).
Proof.
  unfold process_exists. run. now rewrite listed_at_process_iter.
Qed.

Lemma sleep_run (secs : Z) (w : world) :
  0 <= secs ->
  sleep secs w =
  (Ok tt, mkWorld (clock w + secs) (procs w) (sink w)
                  (trace w ++ [EvSleep secs])).
Proof.
  intros H. unfold sleep. destruct (Z.ltb_spec secs 0); [lia|]. now run.
Qed.

(** Once a process has left the list it stays out of it. *)
Lemma listed_earlier (t u : Z) (p : proc) :
  t <= u -> listed u p = true -> listed t p = true.
Proof.
  unfold listed. destruct (gone_at p); [|reflexivity].
  intros Htu H. apply Z.ltb_lt in H. apply Z.ltb_lt. lia.
Qed.

Lemma listed_at_earlier (name : string) (t u : Z) (ps : list proc) :
  t <= u -> listed_at name u ps = true -> listed_at name t ps = true.
Proof.
  intros Htu. unfold listed_at. rewrite !existsb_exists.
  intros [p [Hin H]]. exists p. split; [assumption|].
  apply andb_prop in H as [Hn Hl]. rewrite Hn. cbn.
  now apply (listed_earlier t u).
Qed.

(** One round of the waiting loop. *)
Lemma elapsed_exceeds_later (now start : reading) (limit : Z) :
  (calls start < calls now)%nat ->
  elapsed_exceeds now start limit = (limit <=? seconds now - seconds start).
Proof.
  intros H. unfold elapsed_exceeds. apply Nat.ltb_lt in H. rewrite H.
  rewrite andb_true_r.
  destruct (Z.leb_spec limit (seconds now - seconds start));
    destruct (Z.gtb_spec (seconds now - seconds start) limit);
    destruct (Z.eqb_spec (seconds now - seconds start) limit);
    try lia; reflexivity.
Qed.

Lemma wait_gone_round (name : string) (limit : Z) (start : reading) (n : nat)
    (w : world) :
  (calls start <= List.length (trace w))%nat ->
  wait_gone (S n) name limit start w =
  if listed_at name (clock w) (procs w) then
    if limit <=? clock w - seconds start
    then (Raise OSError, log (EvEnum name true) w)
    else wait_gone n name limit start
           (mkWorld (clock w + 1) (procs w) (sink w)
                    (trace w ++ [EvEnum name true; EvSleep 1]))
  else (Ok tt, log (EvEnum name false) w).
Proof.
  intros Hcalls.
  cbn [wait_gone]. unfold bind at 1. rewrite process_exists_run.
  destruct (listed_at name (clock w) (procs w)); cbn [negb]; [|reflexivity].
  unfold bind at 1, time_time, gets. cbn [clock procs sink trace log].
  rewrite elapsed_exceeds_later
    by (cbn [calls]; rewrite length_app; cbn [List.length]; lia).
  cbn [seconds].
  destruct (limit <=? clock w - seconds start); [reflexivity|].
  unfold bind at 1. rewrite sleep_run by lia.
  cbn [clock procs sink trace log]. now rewrite <- app_assoc.
Qed.

(** The waiting loop, started [k] seconds after [start_time] with enough
    rounds left, when the process is still listed at the [patience]-th
    second: it raises, and it has polled once per second until then. *)
Lemma wait_gone_times_out (name : string) (limit : Z) (start : reading)
    (rounds : nat) (w : world) (k : Z) :
  clock w = seconds start + k ->
  (calls start <= List.length (trace w))%nat ->
  0 <= k <= patience limit ->
  (Z.to_nat (patience limit - k) < rounds)%nat ->
  listed_at name (seconds start + patience limit) (procs w) = true ->
  wait_gone rounds name limit start w =
  (Raise OSError,
   mkWorld (seconds start + patience limit) (procs w) (sink w)
           (trace w ++ poll_rounds (Z.to_nat (patience limit - k)) name
                    ++ [EvEnum name true])).
Proof.
  revert w k. induction rounds as [|rounds IH]; intros w k Hc Hn Hk Hr Hl;
    [lia|].
  rewrite wait_gone_round by exact Hn.
  rewrite (listed_at_earlier name (clock w) (seconds start + patience limit))
    by (assumption || lia).
  replace (clock w - seconds start) with k by lia.
  destruct (Z.leb_spec limit k) as [Hge | Hlt].
  - assert (k = patience limit) as Ek by (unfold patience in *; lia).
    replace (patience limit - k) with 0 by lia.
    rewrite <- Ek, <- Hc. destruct w; reflexivity.
  - assert (k + 1 <= patience limit) as Hk1 by (unfold patience; lia).
    assert (Z.to_nat (patience limit - k) =
            S (Z.to_nat (patience limit - (k + 1)))) as En by lia.
    rewrite (IH _ (k + 1)); cbn [clock procs sink trace];
      [| lia | rewrite length_app; lia | lia | lia | assumption].
    rewrite En. cbn [poll_rounds]. now rewrite <- !app_assoc.
Qed.

(** The same, when the process has left the list by then: the loop returns,
    having touched neither the process table nor the sink. *)
Lemma wait_gone_returns (name : string) (limit : Z) (start : reading)
    (rounds : nat) (w : world) (k : Z) :
  clock w = seconds start + k ->
  (calls start <= List.length (trace w))%nat ->
  0 <= k <= patience limit ->
  (Z.to_nat (patience limit - k) < rounds)%nat ->
  listed_at name (seconds start + patience limit) (procs w) = false ->
  exists w', wait_gone rounds name limit start w = (Ok tt, w')
             /\ procs w' = procs w /\ sink w' = sink w
             /\ exists delta, trace w' = trace w ++ delta
                              /\ supervisor_calls delta = []
                              /\ filter is_popen delta = [].
Proof.
  revert w k. induction rounds as [|rounds IH]; intros w k Hc Hn Hk Hr Hl;
    [lia|].
  rewrite wait_gone_round by exact Hn.
  destruct (listed_at name (clock w) (procs w)) eqn:Now.
  - replace (clock w - seconds start) with k by lia.
    destruct (Z.leb_spec limit k) as [Hge | Hlt].
    + assert (k = patience limit) as Ek by (unfold patience in *; lia).
      rewrite Hc, Ek in Now. congruence.
    + assert (k + 1 <= patience limit) as Hk1 by (unfold patience; lia).
      destruct (IH (mkWorld (clock w + 1) (procs w) (sink w)
                            (trace w ++ [EvEnum name true; EvSleep 1]))
                   (k + 1))
        as [w' [E [Hp [Hs [delta [Ht [Hq Hq']]]]]]];
        cbn [clock procs sink trace];
        [lia | rewrite length_app; lia | lia | lia | assumption |].
      exists w'. rewrite E. cbn [procs sink trace] in *.
      repeat split; try assumption.
      exists (EvEnum name true :: EvSleep 1 :: delta).
      rewrite Ht, <- app_assoc. cbn. auto.
  - eexists. split; [reflexivity|]. cbn. repeat split.
    exists [EvEnum name false]. auto.
Qed.

Lemma wait_rounds_enough (limit : Z) :
  (Z.to_nat (patience limit - 0) < wait_rounds limit)%nat.
Proof. unfold wait_rounds, patience. lia. Qed.

(** The world in which the waiting loop starts. *)
Lemma taskkill_accepted (gone_after : option Z) (name : string) (w : world) :
  taskkill (TkAccepted gone_after) name w =
  (Ok tt, mkWorld (clock w) (procs_after (TkAccepted gone_after) name w)
                  (sink w) (trace w ++ [EvTaskkill name])).
Proof. destruct gone_after; reflexivity. Qed.

Lemma kill_winmeteo_not_running (tk : taskkill_result) (name : string)
    (limit : Z) (w : world) :
  listed_at name (clock w) (procs w) = false ->
  kill_winmeteo tk name limit w =
  (Ok tt, log (EvEnum name false) (log (EvKill name limit) w)).
Proof.
  intros H. unfold kill_winmeteo. unfold bind at 1, emit, modify.
  unfold bind at 1. rewrite process_exists_run. cbn [clock procs log].
  now rewrite H.
Qed.

Lemma kill_winmeteo_exit (name : string) (limit : Z) (w : world) :
  listed_at name (clock w) (procs w) = true ->
  kill_winmeteo TkExit name limit w =
  (Ok tt, log (EvTaskkill name)
            (log (EvEnum name true) (log (EvKill name limit) w))).
Proof.
  intros H. unfold kill_winmeteo. unfold bind at 1, emit, modify.
  unfold bind at 1. rewrite process_exists_run. cbn [clock procs log].
  now rewrite H.
Qed.

Lemma kill_winmeteo_not_launched (name : string) (limit : Z) (w : world) :
  listed_at name (clock w) (procs w) = true ->
  kill_winmeteo TkNotLaunched name limit w =
  (Raise OSError, log (EvTaskkill name)
                    (log (EvEnum name true) (log (EvKill name limit) w))).
Proof.
  intros H. unfold kill_winmeteo. unfold bind at 1, emit, modify.
  unfold bind at 1. rewrite process_exists_run. cbn [clock procs log].
  now rewrite H.
Qed.

Lemma kill_winmeteo_times_out (gone_after : option Z) (name : string)
    (limit : Z) (w : world) :
  listed_at name (clock w) (procs w) = true ->
  outlives_wait (TkAccepted gone_after) name limit w = true ->
  kill_winmeteo (TkAccepted gone_after) name limit w =
  (Raise OSError,
   mkWorld (clock w + patience limit)
           (procs_after (TkAccepted gone_after) name w) (sink w)
           (trace w ++ [EvKill name limit; EvEnum name true; EvTaskkill name]
                    ++ poll_rounds (Z.to_nat (patience limit)) name
                    ++ [EvEnum name true])).
Proof.
  intros H Hout. unfold kill_winmeteo. unfold bind at 1, emit, modify.
  unfold bind at 1. rewrite process_exists_run. cbn [clock procs log].
  rewrite H, taskkill_accepted. unfold bind at 1, time_time, gets.
  cbn [clock procs sink trace log].
  rewrite (wait_gone_times_out name limit _ _ _ 0);
    cbn [clock procs sink trace seconds calls];
    [| lia | lia | unfold patience; lia | apply wait_rounds_enough
     | exact Hout].
  rewrite Z.sub_0_r, <- !app_assoc. reflexivity.
Qed.

Lemma kill_winmeteo_returns (gone_after : option Z) (name : string)
    (limit : Z) (w : world) :
  listed_at name (clock w) (procs w) = true ->
  outlives_wait (TkAccepted gone_after) name limit w = false ->
  exists w', kill_winmeteo (TkAccepted gone_after) name limit w = (Ok tt, w')
             /\ sink w' = sink w
             /\ exists delta, trace w' = trace w ++ EvKill name limit :: delta
                              /\ supervisor_calls delta = []
                              /\ filter is_popen delta = [].
Proof.
  intros H Hout. unfold kill_winmeteo. unfold bind at 1, emit, modify.
  unfold bind at 1. rewrite process_exists_run. cbn [clock procs log].
  rewrite H, taskkill_accepted. unfold bind at 1, time_time, gets.
  cbn [clock procs sink trace log].
  match goal with
  | |- context [wait_gone ?r ?n ?l ?s ?w0] =>
      destruct (wait_gone_returns n l s r w0 0)
        as [w' [E [Hp [Hs [delta [Ht [Hq Hq']]]]]]];
      cbn [clock procs sink trace seconds calls];
      [lia | lia | unfold patience; lia | apply wait_rounds_enough
       | exact Hout |]
  end.
  exists w'. rewrite E. cbn [sink trace] in *. repeat split; [assumption|].
  exists (EvEnum name true :: EvTaskkill name :: delta).
  rewrite Ht, <- !app_assoc. cbn. auto.
Qed.

(** Every call of [kill_winmeteo] comes to [kill_result]; it leaves the sink
    alone, and of the supervisor functions only its own call is in the
    trace it adds. *)
Lemma kill_winmeteo_frame (tk : taskkill_result) (name : string)
    (limit : Z) (w : world) :
  fst (kill_winmeteo tk name limit w) = kill_result tk name limit w
  /\ sink (snd (kill_winmeteo tk name limit w)) = sink w
  /\ exists delta,
       trace (snd (kill_winmeteo tk name limit w)) =
       trace w ++ EvKill name limit :: delta
       /\ supervisor_calls delta = [] /\ filter is_popen delta = [].
Proof.
  unfold kill_result.
  destruct (listed_at name (clock w) (procs w)) eqn:Now.
  - destruct tk as [g | | ].
    + destruct (outlives_wait (TkAccepted g) name limit w) eqn:Out.
      * rewrite kill_winmeteo_times_out by assumption. cbn.
        repeat split. eexists. split; [reflexivity|].
        unfold supervisor_calls. cbn.
        induction (Z.to_nat (patience limit)); cbn; auto.
      * destruct (kill_winmeteo_returns g name limit w Now Out)
          as [w' [E [Hs Ht]]].
        rewrite E. cbn. auto.
    + rewrite kill_winmeteo_exit by assumption. unfold log. cbn. repeat split.
      exists [EvEnum name true; EvTaskkill name].
      rewrite <- !app_assoc. auto.
    + rewrite kill_winmeteo_not_launched by assumption. unfold log. cbn. repeat split.
      exists [EvEnum name true; EvTaskkill name].
      rewrite <- !app_assoc. auto.
  - rewrite kill_winmeteo_not_running by assumption. unfold log. cbn. repeat split.
    exists [EvEnum name false]. rewrite <- !app_assoc. auto.
Qed.

(** The budget of rounds of the waiting loop is never used up. *)
Lemma kill_winmeteo_finishes (tk : taskkill_result) (name : string)
    (limit : Z) (w : world) :
  fst (kill_winmeteo tk name limit w) <> Raise Unfinished.
Proof.
  destruct (kill_winmeteo_frame tk name limit w) as [-> _].
  unfold kill_result.
  destruct (listed_at name (clock w) (procs w)); [|discriminate].
  destruct tk; try discriminate.
  destruct (outlives_wait _ _ _ _); discriminate.
Qed.

(** [start_winmeteo_if_not_running], case by case. *)
Lemma start_winmeteo_running (launched : bool) (name path dir : string)
    (w : world) :
  listed_at name (clock w) (procs w) = true ->
  start_winmeteo_if_not_running launched name path dir w =
  (Ok tt, log (EvEnum name true) (log (EvStart name) w)).
Proof.
  intros H. unfold start_winmeteo_if_not_running.
  unfold bind at 1, emit, modify. unfold bind at 1.
  rewrite process_exists_run. cbn [clock procs log]. now rewrite H.
Qed.

Lemma start_winmeteo_absent (launched : bool) (name path dir : string)
    (w : world) :
  listed_at name (clock w) (procs w) = false ->
  start_winmeteo_if_not_running launched name path dir w =
  (if launched then Ok tt else Raise OSError,
   mkWorld (clock w)
           (if launched then procs w ++ [mkProc (path_name path) None]
            else procs w)
           (sink w)
           (trace w ++ [EvStart name; EvEnum name false; EvPopen path dir])).
Proof.
  intros H. unfold start_winmeteo_if_not_running.
  unfold bind at 1, emit, modify. unfold bind at 1.
  rewrite process_exists_run. cbn [clock procs log]. rewrite H. cbn [negb].
  unfold Popen. run. destruct launched; unfold log; cbn;
    now rewrite <- !app_assoc.
Qed.

Lemma start_winmeteo_frame (launched : bool) (name path dir : string)
    (w : world) :
  sink (snd (start_winmeteo_if_not_running launched name path dir w)) = sink w
  /\ clock (snd (start_winmeteo_if_not_running launched name path dir w))
     = clock w
  /\ (launched = true ->
      fst (start_winmeteo_if_not_running launched name path dir w) = Ok tt)
  /\ exists delta,
       trace (snd (start_winmeteo_if_not_running launched name path dir w)) =
       trace w ++ EvStart name :: delta
       /\ supervisor_calls delta = [].
Proof.
  destruct (listed_at name (clock w) (procs w)) eqn:Now.
  - rewrite start_winmeteo_running by assumption. unfold log. cbn. repeat split.
    exists [EvEnum name true]. rewrite <- !app_assoc. auto.
  - rewrite start_winmeteo_absent by assumption. unfold log. cbn. repeat split.
    + now intros ->.
    + eexists. split; [reflexivity|]. reflexivity.
Qed.

(** ** The sink writer *)

Lemma only_logged_refl (w : world) : only_logged w w.
Proof.
  repeat split. exists []. now rewrite app_nil_r.
Qed.

Lemma only_logged_trans (w1 w2 w3 : world) :
  only_logged w1 w2 -> only_logged w2 w3 -> only_logged w1 w3.
Proof.
  intros [C1 [P1 [S1 [d1 [T1 [Q1 R1]]]]]] [C2 [P2 [S2 [d2 [T2 [Q2 R2]]]]]].
  repeat split; try congruence.
  exists (d1 ++ d2). rewrite T2, T1, app_assoc. split; [reflexivity|].
  unfold supervisor_calls in *. now rewrite !filter_app, Q1, Q2, R1, R2.
Qed.

Lemma only_logged_log (e : event) (w : world) :
  is_supervisor_call e = false -> is_write e = false ->
  only_logged w (log e w).
Proof.
  intros H H'. repeat split. exists [e]. split; [reflexivity|].
  unfold supervisor_calls. cbn. now rewrite H, H'.
Qed.

(** One step of the loop over the columns of a row. *)
Lemma fields_loop_step (key : string) (v : value) (rest : row) (p : point)
    (w : world) :
  fields_loop ((key, v) :: rest) p w =
  match map_column key with
  | Ignored => fields_loop rest p w
  | Unknown => fields_loop rest p (log (EvUnknownColumn key) w)
  | Mapped name =>
      match py_float v with
      | Ok x => fields_loop rest (point_field name x p) w
      | Raise e => (Raise e, w)
      end
  end.
Proof.
  cbn [fields_loop]. unfold bind, lift, emit, modify.
  destruct (map_column key); reflexivity.
Qed.

Lemma fields_loop_logs (items : row) (p : point) (w : world) :
  only_logged w (snd (fields_loop items p w)).
Proof.
  revert p w. induction items as [|[key v] rest IH]; intros p w.
  - apply only_logged_refl.
  - rewrite fields_loop_step. destruct (map_column key).
    + apply IH.
    + destruct (py_float v); [apply IH | apply only_logged_refl].
    + eapply only_logged_trans; [|apply IH]. now apply only_logged_log.
Qed.

(** The point a row gives does not depend on its unknown columns, nor on
    the world. *)
Lemma fields_loop_drop_unknown (items : row) (p : point) (w w' : world) :
  fst (fields_loop items p w) = fst (fields_loop (drop_unknown items) p w').
Proof.
  revert p w w'. induction items as [|[key v] rest IH]; intros p w w'.
  - reflexivity.
  - rewrite fields_loop_step. cbn [drop_unknown filter fst].
    unfold is_unknown. destruct (map_column key) eqn:K; cbn [negb].
    + rewrite fields_loop_step, K. apply IH.
    + rewrite fields_loop_step, K.
      destruct (py_float v); [apply IH | reflexivity].
    + apply IH.
Qed.

(** When the loop over the columns ends, every unknown column has been
    reported, in the order of the row. *)
Lemma fields_loop_reports (items : row) (p q : point) (w w' : world) :
  fields_loop items p w = (Ok q, w') ->
  trace w' = trace w ++ map EvUnknownColumn (unknown_keys items).
Proof.
  revert p w. induction items as [|[key v] rest IH]; intros p w H.
  - injection H as _ <-. cbn. now rewrite app_nil_r.
  - rewrite fields_loop_step in H. unfold unknown_keys. cbn [map filter fst].
    unfold is_unknown at 1. destruct (map_column key) eqn:K.
    + now apply IH in H.
    + destruct (py_float v); [now apply IH in H | discriminate].
    + apply IH in H. rewrite H. cbn. now rewrite <- app_assoc.
Qed.

Lemma fields_loop_coercible (items : row) (p : point) (w : world) :
  coercible items = true -> exists q, fst (fields_loop items p w) = Ok q.
Proof.
  revert p w. induction items as [|[key v] rest IH]; intros p w H.
  - now exists p.
  - rewrite fields_loop_step. cbn in H. apply andb_prop in H as [Hv Hrest].
    destruct (map_column key); try now apply IH.
    destruct (py_float v); [now apply IH | discriminate].
Qed.

(** A cell of a translated column that [float] refuses ends the loop over
    the columns with that exception. *)
Lemma fields_loop_not_coercible (items : row) (p : point) (w : world) :
  coercible items = false -> exists e, fst (fields_loop items p w) = Raise e.
Proof.
  revert p w. induction items as [|[key v] rest IH]; intros p w H.
  - discriminate.
  - rewrite fields_loop_step. cbn in H.
    destruct (map_column key); cbn in H; try now apply IH.
    destruct (py_float v) as [x|e]; cbn in H; [now apply IH | now exists e].
Qed.

Lemma make_point_run (r : row) (w : world) :
  make_point cfg r w =
  match fields_loop r (Point (influxdb_measurement cfg)) w with
  | (Ok p, w') =>
      match row_time r with
      | Ok t => (Ok (point_time (astimezone_utc t) p), w')
      | Raise e => (Raise e, w')
      end
  | (Raise e, w') => (Raise e, w')
  end.
Proof.
  unfold make_point, bind, lift, ret.
  destruct (fields_loop r _ w) as [[p|e] w']; [|reflexivity].
  now destruct (row_time r).
Qed.

Lemma make_point_logs (r : row) (w : world) :
  only_logged w (snd (make_point cfg r w)).
Proof.
  rewrite make_point_run.
  pose proof (fields_loop_logs r (Point (influxdb_measurement cfg)) w) as H.
  destruct (fields_loop r _ w) as [[p|e] w']; [|exact H].
  now destruct (row_time r).
Qed.

Lemma make_point_ok (r : row) (w : world) :
  coercible r = true -> well_formed r = true ->
  exists q, fst (make_point cfg r w) = Ok q.
Proof.
  intros Hc Hw. rewrite make_point_run.
  destruct (fields_loop_coercible r (Point (influxdb_measurement cfg)) w Hc)
    as [q Hq].
  destruct (fields_loop r _ w) as [[p|e] w']; [|discriminate].
  unfold well_formed in Hw. destruct (row_time r); [|discriminate].
  now eexists.
Qed.

Lemma make_point_not_coercible (r : row) (w : world) :
  coercible r = false -> exists e, fst (make_point cfg r w) = Raise e.
Proof.
  intros Hc. rewrite make_point_run.
  destruct (fields_loop_not_coercible r (Point (influxdb_measurement cfg)) w Hc)
    as [e He].
  destruct (fields_loop r _ w) as [[p|e'] w']; [discriminate|].
  now exists e'.
Qed.

Lemma points_loop_step (r : row) (rest : list row) (points : list point)
    (w : world) :
  points_loop cfg (r :: rest) points w =
  match make_point cfg r w with
  | (Ok p, w') => points_loop cfg rest (points ++ [p]) w'
  | (Raise e, w') => (Raise e, w')
  end.
Proof. reflexivity. Qed.

Lemma points_loop_logs (data : list row) (points : list point) (w : world) :
  only_logged w (snd (points_loop cfg data points w)).
Proof.
  revert points w. induction data as [|r rest IH]; intros points w.
  - apply only_logged_refl.
  - rewrite points_loop_step. pose proof (make_point_logs r w) as H.
    destruct (make_point cfg r w) as [[p|e] w']; [|exact H].
    eapply only_logged_trans; [exact H | apply IH].
Qed.

Lemma points_loop_ok (data : list row) (points : list point) (w : world) :
  forallb coercible data = true -> forallb well_formed data = true ->
  exists pts, fst (points_loop cfg data points w) = Ok pts
              /\ List.length pts = (List.length points + List.length data)%nat.
Proof.
  revert points w. induction data as [|r rest IH]; intros points w Hc Hw.
  - exists points. cbn. split; [reflexivity | lia].
  - rewrite points_loop_step. cbn in Hc, Hw.
    apply andb_prop in Hc as [Hc Hcs]. apply andb_prop in Hw as [Hw Hws].
    destruct (make_point_ok r w Hc Hw) as [q Hq].
    destruct (make_point cfg r w) as [[p|e] w']; [|discriminate].
    destruct (IH (points ++ [p]) w' Hcs Hws) as [pts [E Hlen]].
    exists pts. split; [assumption|]. rewrite Hlen, length_app. cbn. lia.
Qed.

(** One row with a cell that [float] refuses makes the whole loop over the
    batch raise. *)
Lemma points_loop_not_coercible (data : list row) (points : list point)
    (w : world) :
  forallb coercible data = false ->
  exists e, fst (points_loop cfg data points w) = Raise e.
Proof.
  revert points w. induction data as [|r rest IH]; intros points w H.
  - discriminate.
  - rewrite points_loop_step. cbn in H.
    destruct (coercible r) eqn:C; cbn in H.
    + destruct (make_point cfg r w) as [[p|e] w']; [now apply IH | now exists e].
    + destruct (make_point_not_coercible r w C) as [e He].
      destruct (make_point cfg r w) as [[p|e'] w']; [discriminate|].
      now exists e'.
Qed.

Lemma points_loop_length (data : list row) (points pts : list point)
    (w : world) :
  fst (points_loop cfg data points w) = Ok pts ->
  List.length pts = (List.length points + List.length data)%nat.
Proof.
  revert points w. induction data as [|r rest IH]; intros points w H.
  - cbn in H. injection H as <-. cbn. lia.
  - rewrite points_loop_step in H.
    destruct (make_point cfg r w) as [[p|e] w']; [|discriminate].
    apply IH in H. rewrite H, length_app. cbn. lia.
Qed.

Lemma write_to_influxdb_run (accepted : bool) (data : list row) (w : world) :
  write_to_influxdb cfg accepted data w =
  match points_loop cfg data [] w with
  | (Ok pts, w') =>
      (if accepted then Ok tt else Raise SinkError,
       mkWorld (clock w') (procs w')
               (if accepted then sink w' ++ [pts] else sink w')
               (trace w' ++ [EvWrite pts]))
  | (Raise e, w') => (Raise e, w')
  end.
Proof.
  unfold write_to_influxdb, bind.
  destruct (points_loop cfg data [] w) as [[pts|e] w']; [|reflexivity].
  unfold influx_write. run. now destruct accepted.
Qed.

(** What a call of [write_to_influxdb] can come to: either the batch is in
    the sink and the call returned, or the call raised and the sink is as
    before.  Process table and clock are untouched either way. *)
Lemma write_to_influxdb_outcome (accepted : bool) (data : list row)
    (w : world) :
  let r := fst (write_to_influxdb cfg accepted data w) in
  let w' := snd (write_to_influxdb cfg accepted data w) in
  clock w' = clock w /\ procs w' = procs w
  /\ (exists delta, trace w' = trace w ++ delta
                    /\ supervisor_calls delta = [])
  /\ ((r = Ok tt /\ accepted = true
       /\ exists pts, sink w' = sink w ++ [pts]
                      /\ List.length pts = List.length data)
      \/ (exists e, r = Raise e) /\ sink w' = sink w).
Proof.
  cbn zeta. rewrite write_to_influxdb_run.
  pose proof (points_loop_logs data [] w) as [Hc [Hp [Hs [delta [Ht [Hq _]]]]]].
  destruct (points_loop cfg data [] w) as [[pts|e] w'] eqn:E; cbn in *.
  - repeat split; try assumption.
    + exists (delta ++ [EvWrite pts]). rewrite Ht, app_assoc.
      split; [reflexivity|]. unfold supervisor_calls in *.
      now rewrite filter_app, Hq.
    + destruct accepted.
      * left. repeat split. exists pts. rewrite Hs. split; [reflexivity|].
        apply (points_loop_length data [] pts w). now rewrite E.
      * right. split; [now exists SinkError | assumption].
  - repeat split; try assumption.
    + now exists delta.
    + right. split; [now exists e | assumption].
Qed.

(** ** The main loop, step by step *)

Lemma call_run {A} (m : W A) (s : state) :
  call m s = (fst (m (os s)), mkState (vars s) (snd (m (os s)))).
Proof. unfold call. now destruct (m (os s)). Qed.

Lemma read_new_rows_from_dbf_run (file : option (list row))
    (watermark : datetime) (w : world) :
  read_new_rows_from_dbf cfg file watermark w =
  (match file with
   | None => Raise SourceError
   | Some table => new_rows_loop table watermark []
   end, log (EvLoad (dbf_path cfg)) w).
Proof. unfold read_new_rows_from_dbf. run. now destruct file. Qed.

(** The poll and what follows it, spelled out. *)
Lemma poll_and_write_run (a : answers) (s : state) :
  poll_and_write cfg a s =
  let w1 := log (EvLoad (dbf_path cfg)) (os s) in
  match match dbf_file a with
        | None => Raise SourceError
        | Some table => new_rows_loop table (last_timestamp (vars s)) []
        end with
  | Raise e => (Raise e, mkState (vars s) w1)
  | Ok [] => (Ok tt, mkState (set_zeros (zeros (vars s) + 1) (vars s)) w1)
  | Ok (r :: rows) =>
      match write_to_influxdb cfg (write_accepted a) (r :: rows) w1 with
      | (Raise e, w2) => (Raise e, mkState (vars s) w2)
      | (Ok _, w2) =>
          match max_row_time (r :: rows) with
          | Raise e => (Raise e, mkState (vars s) w2)
          | Ok m =>
              (Ok tt,
               mkState (set_zeros 0 (set_last_timestamp m (vars s))) w2)
          end
      end
  end.
Proof.
  unfold poll_and_write. unfold bind at 1, read, gets. unfold bind at 1.
  rewrite call_run, read_new_rows_from_dbf_run. cbn [fst snd os vars].
  destruct (match dbf_file a with
            | None => Raise SourceError
            | Some table => new_rows_loop table (last_timestamp (vars s)) []
            end) as [[|r rows]|e]; try reflexivity.
  unfold bind at 1. rewrite call_run. cbn [fst snd os vars].
  destruct (write_to_influxdb cfg (write_accepted a) (r :: rows) _)
    as [[u|e] w2]; [|reflexivity]. cbn [fst snd].
  unfold bind, lift, assign, modify. cbn.
  now destruct (max_row_time (r :: rows)).
Qed.

(** A poll that finds nothing: one more empty poll is counted, and nothing
    else changes but the trace. *)
Lemma poll_and_write_empty (a : answers) (s : state) :
  polls_empty (last_timestamp (vars s)) a = true ->
  poll_and_write cfg a s =
  (Ok tt, mkState (set_zeros (zeros (vars s) + 1) (vars s))
                  (log (EvLoad (dbf_path cfg)) (os s))).
Proof.
  intros H. rewrite poll_and_write_run. unfold polls_empty in H.
  destruct (dbf_file a) as [table|]; [|discriminate].
  assert (forallb well_formed table = true
          /\ filter (newer (last_timestamp (vars s))) table = []) as [Hw Hf].
  { clear -H. induction table as [|r table IH]; cbn in *; [auto|].
    apply andb_prop in H as [Hr Ht]. apply andb_prop in Hr as [Hr1 Hr2].
    destruct (IH Ht) as [IH1 IH2]. rewrite Hr1, IH1.
    apply negb_true_iff in Hr2. now rewrite Hr2. }
  rewrite new_rows_loop_ok by assumption. cbn. now rewrite Hf.
Qed.

(** A poll that finds rows, all of which convert, with a sink that takes
    the batch: the watermark becomes the newest time stamp of the batch, the
    count of empty polls is zero and the batch is in the sink. *)
Lemma poll_and_write_writes (a : answers) (s : state) (table rows : list row) :
  dbf_file a = Some table ->
  forallb well_formed table = true ->
  rows = filter (newer (last_timestamp (vars s))) table ->
  rows <> [] ->
  forallb coercible rows = true ->
  write_accepted a = true ->
  exists m pts s',
    poll_and_write cfg a s = (Ok tt, s')
    /\ max_row_time rows = Ok m
    /\ last_timestamp (vars s) < m
    /\ vars s' = set_zeros 0 (set_last_timestamp m (vars s))
    /\ sink (os s') = sink (os s) ++ [pts]
    /\ List.length pts = List.length rows
    /\ clock (os s') = clock (os s) /\ procs (os s') = procs (os s)
    /\ supervisor_calls (trace (os s')) = supervisor_calls (trace (os s)).
Proof.
  intros Hf Hw Hrows Hne Hc Hacc. rewrite poll_and_write_run, Hf.
  rewrite new_rows_loop_ok by assumption. cbn [app]. rewrite <- Hrows.
  destruct rows as [|r rows']; [contradiction|]. cbn zeta.
  destruct (max_row_time_newer (last_timestamp (vars s)) (r :: rows') Hne)
    as [m [Em [Hlt _]]].
  { rewrite Hrows. apply filter_forallb. }
  pose proof (write_to_influxdb_outcome (write_accepted a) (r :: rows')
                (log (EvLoad (dbf_path cfg)) (os s))) as Hout.
  cbn zeta in Hout. rewrite Hacc in *.
  assert (forallb well_formed (r :: rows') = true) as Hw'.
  { rewrite Hrows. clear. induction table as [|x table IH]; [reflexivity|].
    cbn [filter]. destruct (newer _ x) eqn:N; [|assumption].
    cbn. now rewrite (newer_well_formed _ _ N). }
  rewrite write_to_influxdb_run in *.
  destruct (points_loop_ok (r :: rows') [] (log (EvLoad (dbf_path cfg)) (os s))
              Hc Hw') as [pts' [Ep _]].
  destruct (points_loop cfg (r :: rows') [] _) as [[pts|e] w2];
    [|discriminate].
  cbn [fst snd] in Hout. rewrite Em.
  destruct Hout as [Hclk [Hpr [[delta [Ht Hq]] [[_ [_ [pts0 [Hs Hl]]]] | [[e He] _]]]]];
    [|discriminate].
  exists m, pts0. eexists. split; [reflexivity|].
  cbn [vars os clock procs sink trace] in *.
  repeat split; try assumption.
  rewrite Ht. unfold log. cbn [trace]. unfold supervisor_calls in *.
  rewrite !filter_app, Hq. cbn. now rewrite !app_nil_r.
Qed.

(** Whatever the poll finds: either the watermark moved forward, and then
    the batch is in the sink, or neither the watermark nor the sink
    changed. *)
Lemma poll_and_write_outcome (a : answers) (s : state) :
  let r := fst (poll_and_write cfg a s) in
  let s' := snd (poll_and_write cfg a s) in
  clock (os s') = clock (os s) /\ procs (os s') = procs (os s)
  /\ iterations (vars s') = iterations (vars s)
  /\ restarts (vars s') = restarts (vars s)
  /\ last_restart (vars s') = last_restart (vars s)
  /\ supervisor_calls (trace (os s')) = supervisor_calls (trace (os s))
  /\ ((r = Ok tt
       /\ last_timestamp (vars s) < last_timestamp (vars s')
       /\ zeros (vars s') = 0
       /\ write_accepted a = true
       /\ exists pts, sink (os s') = sink (os s) ++ [pts])
      \/ (last_timestamp (vars s') = last_timestamp (vars s)
          /\ sink (os s') = sink (os s)
          /\ (zeros (vars s') = zeros (vars s)
              \/ r = Ok tt /\ zeros (vars s') = zeros (vars s) + 1))).
Proof.
  cbn zeta. rewrite poll_and_write_run. cbn zeta.
  assert (supervisor_calls (trace (log (EvLoad (dbf_path cfg)) (os s))) =
          supervisor_calls (trace (os s))) as Hload.
  { unfold log, supervisor_calls. cbn. rewrite filter_app. cbn.
    now rewrite app_nil_r. }
  destruct (match dbf_file a with
            | None => Raise SourceError
            | Some table => new_rows_loop table (last_timestamp (vars s)) []
            end) as [[|r rows]|e] eqn:E; cbn [fst snd vars os].
  - cbn. repeat split; try assumption. right. auto.
  - destruct (dbf_file a) as [table|]; [|discriminate].
    apply new_rows_loop_inv in E as [Hw Hrows].
    destruct (max_row_time_newer (last_timestamp (vars s)) (r :: rows))
      as [m [Em [Hlt _]]]; [discriminate | |].
    { rewrite Hrows. apply filter_forallb. }
    pose proof (write_to_influxdb_outcome (write_accepted a) (r :: rows)
                  (log (EvLoad (dbf_path cfg)) (os s))) as Hout.
    cbn zeta in Hout.
    destruct (write_to_influxdb cfg _ (r :: rows) _) as [[u|e] w2];
      cbn [fst snd] in Hout;
      destruct Hout as [Hclk [Hpr [[delta [Ht Hq]] Hsink]]];
      assert (supervisor_calls (trace w2) = supervisor_calls (trace (os s)))
        as Hcalls
        by (rewrite Ht; unfold supervisor_calls in *;
            rewrite filter_app, Hq, app_nil_r; exact Hload).
    + rewrite Em. cbn.
      destruct Hsink as [[_ [Hacc [pts [Hs _]]]] | [[e He] _]]; [|discriminate].
      repeat split; try assumption. left. repeat split; try assumption.
      now exists pts.
    + cbn.
      destruct Hsink as [[He _] | [_ Hs]]; [discriminate|].
      repeat split; try assumption. right. auto.
  - cbn. repeat split; try assumption. right. auto.
Qed.

(** The restart step, spelled out. *)
Lemma restart_if_stalled_run (max_zeros : Z) (a : answers) (s : state) :
  restart_if_stalled cfg max_zeros a s =
  if zeros (vars s) >=? max_zeros then
    match kill_winmeteo (taskkill_does a) (winmeteo_process cfg)
                        (wait_for_kill cfg) (os s) with
    | (Raise e, w1) => (Raise e, mkState (vars s) w1)
    | (Ok _, w1) =>
        match start_winmeteo_if_not_running (popen_launches a)
                (winmeteo_process cfg) (winmeteo_path cfg)
                (winmeteo_dir cfg) w1 with
        | (Raise e, w2) => (Raise e, mkState (vars s) w2)
        | (Ok _, w2) =>
            (Ok tt,
             mkState (set_zeros 0
                        (set_last_restart (clock w2)
                           (set_restarts (restarts (vars s) + 1) (vars s))))
                     w2)
        end
    end
  else (Ok tt, s).
Proof.
  unfold restart_if_stalled. unfold bind at 1, read, gets.
  destruct (zeros (vars s) >=? max_zeros); [|reflexivity].
  unfold bind at 1. rewrite call_run. cbn [fst snd os vars].
  destruct (kill_winmeteo _ _ _ (os s)) as [[u|e] w1]; [|reflexivity].
  cbn [fst snd]. unfold bind at 1. rewrite call_run. cbn [fst snd os vars].
  destruct (start_winmeteo_if_not_running _ _ _ _ w1) as [[u'|e] w2];
    reflexivity.
Qed.

(** The restart step never touches the watermark or the sink. *)
Lemma restart_if_stalled_frame (max_zeros : Z) (a : answers) (s : state) :
  let s' := snd (restart_if_stalled cfg max_zeros a s) in
  last_timestamp (vars s') = last_timestamp (vars s)
  /\ iterations (vars s') = iterations (vars s)
  /\ sink (os s') = sink (os s)
  /\ (zeros (vars s') = zeros (vars s) \/ zeros (vars s') = 0).
Proof.
  cbn zeta. rewrite restart_if_stalled_run.
  destruct (zeros (vars s) >=? max_zeros); [|cbn; auto].
  pose proof (kill_winmeteo_frame (taskkill_does a) (winmeteo_process cfg)
                (wait_for_kill cfg) (os s)) as [_ [Hs1 _]].
  destruct (kill_winmeteo _ _ _ (os s)) as [[u|e] w1]; cbn [fst snd] in *;
    [|cbn; auto].
  pose proof (start_winmeteo_frame (popen_launches a) (winmeteo_process cfg)
                (winmeteo_path cfg) (winmeteo_dir cfg) w1) as [Hs2 _].
  destruct (start_winmeteo_if_not_running _ _ _ _ w1) as [[u'|e] w2];
    cbn [fst snd] in *; cbn; repeat split; try congruence; auto.
Qed.

Lemma iteration_body_run (max_zeros : Z) (a : answers) (s : state) :
  iteration_body cfg max_zeros a s =
  match poll_and_write cfg a
          (mkState (set_iterations (iterations (vars s) + 1) (vars s))
                   (os s)) with
  | (Ok _, s1) => restart_if_stalled cfg max_zeros a s1
  | (Raise e, s1) => (Raise e, s1)
  end.
Proof. reflexivity. Qed.

(** The handler and the [else] branch only sleep and log: the variables of
    the loop and the sink come out of a turn as they come out of its
    [try] block. *)
Lemma iteration_frame (max_zeros : Z) (a : answers) (s : state) :
  vars (snd (iteration cfg max_zeros a s)) =
  vars (snd (iteration_body cfg max_zeros a s))
  /\ sink (os (snd (iteration cfg max_zeros a s))) =
     sink (os (snd (iteration_body cfg max_zeros a s))).
Proof.
  unfold iteration, try_except_else.
  destruct (iteration_body cfg max_zeros a s) as [[u|e] s1]; cbn [fst snd].
  - rewrite call_run. cbn. unfold sleep.
    destruct (timer cfg <? 0); cbn; auto.
  - assert (forall e0,
              vars (snd ((call (emit (EvError e0)) ;;
                          call (sleep (error_timer cfg))) s1)) = vars s1
              /\ sink (os (snd ((call (emit (EvError e0)) ;;
                                 call (sleep (error_timer cfg))) s1)))
                 = sink (os s1)) as Hh.
    { intros e0. unfold bind. rewrite !call_run. cbn. unfold sleep.
      destruct (error_timer cfg <? 0); cbn; auto. }
    destruct e; try apply Hh. cbn. auto.
Qed.

(** ** The watermark *)

(** One turn of the main loop either moves the watermark strictly forward,
    and then a batch went into the sink, or leaves watermark and sink as
    they were. *)
Lemma iteration_watermark (max_zeros : Z) (a : answers) (s : state) :
  let s' := snd (iteration cfg max_zeros a s) in
  (last_timestamp (vars s) < last_timestamp (vars s')
   /\ write_accepted a = true
   /\ exists pts, sink (os s') = sink (os s) ++ [pts])
  \/ (last_timestamp (vars s') = last_timestamp (vars s)
      /\ sink (os s') = sink (os s)).
Proof.
  cbn zeta. destruct (iteration_frame max_zeros a s) as [-> ->].
  rewrite iteration_body_run.
  pose proof (poll_and_write_outcome a
                (mkState (set_iterations (iterations (vars s) + 1) (vars s))
                         (os s))) as H.
  cbn zeta in H.
  destruct (poll_and_write cfg a _) as [[u|e] s1]; cbn [fst snd vars os] in *;
    destruct H as [_ [_ [_ [_ [_ [_ H]]]]]]; cbn in H.
  - destruct (restart_if_stalled_frame max_zeros a s1) as [-> [_ [-> _]]].
    destruct H as [[_ [Hlt [_ [Hacc Hs]]]] | [Hlt [Hs _]]]; auto.
  - destruct H as [[He _] | [Hlt [Hs _]]]; [discriminate | auto].
Qed.

Lemma main_loop_step (max_zeros : Z) (a : answers) (rest : list answers)
    (s : state) :
  main_loop cfg max_zeros (a :: rest) s =
  match iteration cfg max_zeros a s with
  | (Ok _, s') => main_loop cfg max_zeros rest s'
  | (Raise e, s') => (Raise e, s')
  end.
Proof. reflexivity. Qed.

Lemma main_loop_watermark (max_zeros : Z) (script : list answers) (s : state) :
  last_timestamp (vars s) <=
  last_timestamp (vars (snd (main_loop cfg max_zeros script s))).
Proof.
  revert s. induction script as [|a rest IH]; intros s.
  - cbn. lia.
  - rewrite main_loop_step.
    pose proof (iteration_watermark max_zeros a s) as H. cbn zeta in H.
    destruct (iteration cfg max_zeros a s) as [[u|e] s1]; cbn [fst snd] in *.
    + specialize (IH s1). lia.
    + lia.
Qed.

Lemma app_one_neq {A} (l : list A) (x : A) : l ++ [x] <> l.
Proof.
  intros H. apply (f_equal (@List.length A)) in H.
  rewrite length_app in H. cbn in H. lia.
Qed.

(** C1.  The watermark never goes back: over any number of turns of the main
    loop, from any state, it ends no earlier than it started.  It moves only
    with a batch that went into the sink: a turn that leaves the sink as it
    was leaves the watermark as it was, and so does in particular a turn in
    which the sink refuses the batch, so that the write raises. *)
Theorem watermark_never_rewound (max_zeros : Z) :
  (forall (script : list answers) (s : state),
      last_timestamp (vars s) <=
      last_timestamp (vars (snd (main_loop cfg max_zeros script s))))
  /\ (forall (a : answers) (s : state),
        sink (os (snd (iteration cfg max_zeros a s))) = sink (os s) ->
        last_timestamp (vars (snd (iteration cfg max_zeros a s))) =
        last_timestamp (vars s))
  /\ (forall (a : answers) (s : state),
        write_accepted a = false ->
        last_timestamp (vars (snd (iteration cfg max_zeros a s))) =
        last_timestamp (vars s)).
Proof.
  split; [|split].
  - apply main_loop_watermark.
  - intros a s Hs.
    destruct (iteration_watermark max_zeros a s) as [[_ [_ [pts E]]] | [E _]];
      [|exact E].
    rewrite E in Hs. now apply app_one_neq in Hs.
  - intros a s Hacc.
    destruct (iteration_watermark max_zeros a s) as [[_ [E _]] | [E _]];
      [congruence | exact E].
Qed.

Lemma map_res_perm {A B} (f : A -> res B) (xs xs' : list A) (ys : list B) :
  Permutation xs xs' ->
  map_res f xs = Ok ys ->
  exists ys', map_res f xs' = Ok ys' /\ Permutation ys ys'.
Proof.
  intros P. revert ys. induction P as [|x l l' P IH|x y l|l l' l'' P1 IH1 P2 IH2];
    intros ys H.
  - exists ys. split; [assumption | apply Permutation_refl].
  - cbn in *. destruct (f x) as [z|e]; [|discriminate].
    destruct (map_res f l) as [zs|e]; [|discriminate].
    injection H as <-. destruct (IH zs eq_refl) as [zs' [-> Pz]].
    exists (z :: zs'). split; [reflexivity | now constructor].
  - cbn in *. destruct (f y) as [v|e]; [|discriminate].
    destruct (f x) as [u|e]; [|discriminate].
    destruct (map_res f l) as [zs|e]; [|discriminate].
    injection H as <-. exists (u :: v :: zs).
    split; [reflexivity | apply perm_swap].
  - destruct (IH1 ys H) as [ys1 [E1 Q1]].
    destruct (IH2 ys1 E1) as [ys2 [E2 Q2]].
    exists ys2. split; [assumption | now apply Permutation_trans with ys1].
Qed.

Lemma py_max_perm (ts ts' : list datetime) (m : datetime) :
  Permutation ts ts' -> py_max ts = Ok m -> py_max ts' = Ok m.
Proof.
  intros P H. destruct (py_max_spec ts m H) as [Hin Hub].
  destruct ts' as [|t ts'].
  - apply Permutation_sym, Permutation_nil in P. subst. discriminate.
  - destruct (py_max_spec (t :: ts') _ eq_refl) as [Hin' Hub'].
    cbn [py_max]. apply (f_equal (@Ok datetime)). apply Z.le_antisymm.
    + apply Hub. now apply (Permutation_in _ (Permutation_sym P)).
    + apply Hub'. now apply (Permutation_in _ P).
Qed.

(** The newest time stamp of a batch does not depend on the order of its
    rows. *)
Lemma max_row_time_perm (rows rows' : list row) (m : datetime) :
  Permutation rows rows' ->
  max_row_time rows = Ok m -> max_row_time rows' = Ok m.
Proof.
  unfold max_row_time. intros P H.
  destruct (map_res row_time rows) as [ts|e] eqn:E; [|discriminate].
  destruct (map_res_perm _ _ _ _ P E) as [ts' [-> Pt]].
  now apply (py_max_perm ts).
Qed.

(** C2.  A turn of the main loop whose poll finds a non-empty batch [rows],
    all of whose cells convert, with a sink that takes the batch: the batch
    is in the sink, one point per row, and after the turn the watermark is
    the newest time stamp of the batch - the time stamp of one of its rows,
    no earlier than that of any of them, and the same in whatever order the
    rows stand - and the count of consecutive empty polls is zero. *)
Theorem watermark_advances_to_newest (max_zeros : Z) (a : answers) (s : state)
    (table rows : list row) :
  dbf_file a = Some table ->
  forallb well_formed table = true ->
  rows = filter (newer (last_timestamp (vars s))) table ->
  rows <> [] ->
  forallb coercible rows = true ->
  write_accepted a = true ->
  let s' := snd (iteration cfg max_zeros a s) in
  exists (m : datetime) (pts : list point),
    sink (os s') = sink (os s) ++ [pts]
    /\ List.length pts = List.length rows
    /\ last_timestamp (vars s') = m
    /\ (exists r, In r rows /\ row_time r = Ok m)
    /\ (forall r t, In r rows -> row_time r = Ok t -> t <= m)
    /\ (forall rows', Permutation rows rows' -> max_row_time rows' = Ok m)
    /\ zeros (vars s') = 0.
Proof.
  intros Hf Hw Hrows Hne Hc Hacc. cbn zeta.
  destruct (iteration_frame max_zeros a s) as [-> ->].
  rewrite iteration_body_run.
  destruct (poll_and_write_writes a
              (mkState (set_iterations (iterations (vars s) + 1) (vars s))
                       (os s)) table rows Hf Hw Hrows Hne Hc Hacc)
    as [m [pts [s1 [E [Em [Hlt [Hv [Hs [Hl _]]]]]]]]].
  rewrite E.
  destruct (restart_if_stalled_frame max_zeros a s1) as [Flt [_ [Fs Fz]]].
  cbn zeta in *. cbn [vars os] in *.
  destruct (max_row_time_newer (last_timestamp (vars s)) rows Hne)
    as [m' [Em' [_ [Hex Hub]]]].
  { rewrite Hrows. apply filter_forallb. }
  assert (m' = m) as -> by congruence.
  exists m, pts. rewrite Fs, Flt, Hv. cbn.
  repeat split; try assumption.
  - intros rows' P. now apply (max_row_time_perm rows).
  - rewrite Hv in Fz. cbn in Fz. now destruct Fz.
Qed.

(** ** Stall detection and restart *)

Lemma listed_doomed (name : string) (t u : Z) (ps : list proc) :
  u <= t -> listed_at name t (map (doom name u) ps) = false.
Proof.
  intros Hut. unfold listed_at.
  induction ps as [|p ps IH]; cbn; [reflexivity|].
  rewrite IH, orb_false_r. unfold doom.
  destruct (String.eqb (proc_name p) name) eqn:N; cbn.
  - rewrite N. cbn. unfold listed. cbn.
    destruct (gone_at p); apply Z.ltb_ge; lia.
  - now rewrite N.
Qed.

(** A kill that is accepted and takes effect within the wait makes
    [kill_winmeteo] return, whatever the process table. *)
Lemma dies_in_time_returns (tk : taskkill_result) (name : string) (limit : Z)
    (w : world) :
  dies_in_time limit tk = true -> kill_result tk name limit w = Ok tt.
Proof.
  unfold dies_in_time, kill_result. destruct tk as [[d|]| |]; try discriminate.
  intros H. apply Z.leb_le in H.
  destruct (listed_at name (clock w) (procs w)); [|reflexivity].
  unfold outlives_wait, procs_after. rewrite listed_doomed by lia.
  reflexivity.
Qed.

Lemma main_loop_app (max_zeros : Z) (xs ys : list answers) (s : state) :
  main_loop cfg max_zeros (xs ++ ys) s =
  match main_loop cfg max_zeros xs s with
  | (Ok _, s') => main_loop cfg max_zeros ys s'
  | (Raise e, s') => (Raise e, s')
  end.
Proof.
  revert s. induction xs as [|x xs IH]; intros s; [reflexivity|].
  cbn [app]. rewrite !main_loop_step.
  destruct (iteration cfg max_zeros x s) as [[u|e] s1]; [apply IH | reflexivity].
Qed.

(** A turn whose poll is empty, below the threshold: it counts the poll,
    sleeps [timer] seconds and does nothing else. *)
Lemma iteration_empty_below (max_zeros : Z) (a : answers) (s : state) :
  polls_empty (last_timestamp (vars s)) a = true ->
  zeros (vars s) + 1 < max_zeros ->
  0 <= timer cfg ->
  iteration cfg max_zeros a s =
  (Ok tt,
   mkState (set_zeros (zeros (vars s) + 1)
              (set_iterations (iterations (vars s) + 1) (vars s)))
           (mkWorld (clock (os s) + timer cfg) (procs (os s)) (sink (os s))
                    (trace (os s)
                       ++ [EvLoad (dbf_path cfg); EvSleep (timer cfg)]))).
Proof.
  intros He Hz Ht. unfold iteration, try_except_else.
  rewrite iteration_body_run, poll_and_write_empty by exact He.
  rewrite restart_if_stalled_run. cbn [vars os zeros set_zeros set_iterations].
  destruct (Z.geb_spec (zeros (vars s) + 1) max_zeros); [lia|].
  rewrite call_run, sleep_run by assumption. cbn.
  now rewrite <- app_assoc.
Qed.

(** A run of empty polls that stays below the threshold. *)
Lemma main_loop_empty_polls (max_zeros : Z) (script : list answers)
    (s : state) :
  Forall (fun x => polls_empty (last_timestamp (vars s)) x = true) script ->
  zeros (vars s) + Z.of_nat (List.length script) < max_zeros ->
  0 <= timer cfg ->
  exists s',
    main_loop cfg max_zeros script s = (Ok tt, s')
    /\ last_timestamp (vars s') = last_timestamp (vars s)
    /\ zeros (vars s') = zeros (vars s) + Z.of_nat (List.length script)
    /\ restarts (vars s') = restarts (vars s)
    /\ last_restart (vars s') = last_restart (vars s)
    /\ procs (os s') = procs (os s)
    /\ sink (os s') = sink (os s)
    /\ supervisor_calls (trace (os s')) = supervisor_calls (trace (os s)).
Proof.
  revert s. induction script as [|a rest IH]; intros s Hall Hz Ht.
  - exists s. cbn. repeat split. lia.
  - inversion Hall as [|? ? Ha Hrest]; subst.
    cbn [List.length] in Hz. rewrite main_loop_step.
    rewrite iteration_empty_below by (assumption || lia).
    match goal with |- context [main_loop _ _ rest ?s1] =>
      destruct (IH s1) as [s' [E [H1 [H2 [H3 [H4 [H5 [H6 H7]]]]]]]];
        [exact Hrest | cbn; lia | assumption |]
    end.
    exists s'. rewrite E. cbn in *. repeat split; try assumption; try lia.
    rewrite H7. unfold supervisor_calls. rewrite filter_app. cbn.
    now rewrite app_nil_r.
Qed.

(** A turn whose poll is empty and reaches the threshold, when
    [kill_winmeteo] returns and the launch, if one is needed, works. *)
Lemma iteration_restarts (max_zeros : Z) (a : answers) (s : state) :
  polls_empty (last_timestamp (vars s)) a = true ->
  max_zeros <= zeros (vars s) + 1 ->
  kill_result (taskkill_does a) (winmeteo_process cfg) (wait_for_kill cfg)
              (os s) = Ok tt ->
  popen_launches a = true ->
  0 <= timer cfg ->
  exists s',
    iteration cfg max_zeros a s = (Ok tt, s')
    /\ supervisor_calls (trace (os s')) =
       supervisor_calls (trace (os s))
         ++ [EvKill (winmeteo_process cfg) (wait_for_kill cfg);
             EvStart (winmeteo_process cfg)]
    /\ restarts (vars s') = restarts (vars s) + 1
    /\ last_restart (vars s') + timer cfg = clock (os s')
    /\ zeros (vars s') = 0
    /\ last_timestamp (vars s') = last_timestamp (vars s)
    /\ sink (os s') = sink (os s).
Proof.
  intros He Hz Hk Hp Ht. unfold iteration, try_except_else.
  rewrite iteration_body_run, poll_and_write_empty by exact He.
  rewrite restart_if_stalled_run. cbn [vars os zeros set_zeros set_iterations].
  destruct (Z.geb_spec (zeros (vars s) + 1) max_zeros); [|lia].
  pose proof (kill_winmeteo_frame (taskkill_does a) (winmeteo_process cfg)
                (wait_for_kill cfg) (log (EvLoad (dbf_path cfg)) (os s)))
    as [Hr [Hs1 [d1 [Ht1 [Hq1 _]]]]].
  change (kill_result (taskkill_does a) (winmeteo_process cfg)
            (wait_for_kill cfg) (log (EvLoad (dbf_path cfg)) (os s)))
    with (kill_result (taskkill_does a) (winmeteo_process cfg)
            (wait_for_kill cfg) (os s)) in Hr.
  rewrite Hk in Hr.
  destruct (kill_winmeteo _ _ _ (log _ (os s))) as [[u|e] w1];
    cbn [fst snd] in *; [|discriminate].
  pose proof (start_winmeteo_frame (popen_launches a) (winmeteo_process cfg)
                (winmeteo_path cfg) (winmeteo_dir cfg) w1)
    as [Hs2 [Hc2 [Hok [d2 [Ht2 Hq2]]]]].
  specialize (Hok Hp).
  destruct (start_winmeteo_if_not_running _ _ _ _ w1) as [[u'|e] w2];
    cbn [fst snd] in *; [|discriminate].
  rewrite call_run, sleep_run by assumption. cbn.
  eexists. split; [reflexivity|].
  unfold log, supervisor_calls in *. cbn in *.
  repeat split; try congruence.
  rewrite Ht2, Ht1, !filter_app. cbn. rewrite ?filter_app. cbn.
  rewrite Hq1, Hq2. cbn. now rewrite ?app_nil_r, <- ?app_assoc.
Qed.

(** ** Termination that times out *)

Lemma poll_rounds_quiet (n : nat) (name : string) :
  filter is_start (poll_rounds n name) = []
  /\ filter is_popen (poll_rounds n name) = []
  /\ filter is_kill (poll_rounds n name) = [].
Proof. induction n as [|n IH]; cbn; auto. Qed.

(** A turn in which the termination times out, spelled out. *)
Lemma iteration_times_out (max_zeros : Z) (a : answers) (s : state) :
  termination_times_out cfg max_zeros a s ->
  0 <= error_timer cfg ->
  iteration cfg max_zeros a s =
  (Ok tt,
   mkState (set_zeros (zeros (vars s) + 1)
              (set_iterations (iterations (vars s) + 1) (vars s)))
           (mkWorld (clock (os s) + patience (wait_for_kill cfg)
                       + error_timer cfg)
                    (procs_after (taskkill_does a) (winmeteo_process cfg)
                                 (os s))
                    (sink (os s))
                    (trace (os s)
                       ++ [EvLoad (dbf_path cfg)]
                       ++ timeout_events (winmeteo_process cfg)
                            (wait_for_kill cfg)
                            (poll_rounds
                               (Z.to_nat (patience (wait_for_kill cfg)))
                               (winmeteo_process cfg))
                       ++ [EvError OSError; EvSleep (error_timer cfg)]))).
Proof.
  intros [He [Hz [Hl [[g Hg] Hout]]]] Ht. unfold iteration, try_except_else.
  rewrite iteration_body_run, poll_and_write_empty by exact He.
  rewrite restart_if_stalled_run. cbn [vars os zeros set_zeros set_iterations].
  destruct (Z.geb_spec (zeros (vars s) + 1) max_zeros); [|lia].
  rewrite Hg in *.
  rewrite kill_winmeteo_times_out; [| exact Hl | exact Hout].
  unfold bind. rewrite !call_run. cbn [fst snd os vars]. unfold emit, modify.
  cbn [fst snd]. rewrite sleep_run by assumption.
  unfold log, timeout_events. cbn. list_norm. reflexivity.
Qed.

(** C6.  When a running process is asked to end and a process of that name
    is still listed at the look that follows [wait_for_kill] sleeps of one
    second, the first look made more than [wait_for_kill] seconds after the
    kill, having been looked for once per second until then,
    [kill_winmeteo] raises [OSError].
    The turn of the main loop then calls
    [start_winmeteo_if_not_running] not at all, leaves the restart count and
    the restart time as they were, and ends in the handler: the error is
    logged, the loop sleeps [error_timer] seconds and goes on. *)
Theorem termination_timeout (max_zeros : Z) (a : answers) (s : state) :
  termination_times_out cfg max_zeros a s ->
  0 <= error_timer cfg ->
  let name := winmeteo_process cfg in
  let limit := wait_for_kill cfg in
  let tk := taskkill_does a in
  let rounds := poll_rounds (Z.to_nat (patience limit)) name in
  let w1 := log (EvLoad (dbf_path cfg)) (os s) in
  let s' := snd (iteration cfg max_zeros a s) in
  kill_winmeteo tk name limit w1 =
    (Raise OSError,
     mkWorld (clock w1 + patience limit) (procs_after tk name w1) (sink w1)
             (trace w1 ++ timeout_events name limit rounds))
  /\ fst (iteration cfg max_zeros a s) = Ok tt
  /\ trace (os s') =
     trace w1 ++ timeout_events name limit rounds
              ++ [EvError OSError; EvSleep (error_timer cfg)]
  /\ filter is_start (trace (os s')) = filter is_start (trace (os s))
  /\ restarts (vars s') = restarts (vars s)
  /\ last_restart (vars s') = last_restart (vars s).
Proof.
  intros H Ht. cbn zeta.
  rewrite (iteration_times_out max_zeros a s H Ht).
  destruct H as [He [Hz [Hl [[g Hg] Hout]]]]. rewrite Hg in *.
  split; [apply kill_winmeteo_times_out; [exact Hl | exact Hout]|].
  cbn [fst snd vars os trace restarts last_restart set_zeros set_iterations].
  repeat split.
  - unfold log, timeout_events. cbn. list_norm. reflexivity.
  - unfold timeout_events. rewrite !filter_app. cbn.
    destruct (poll_rounds_quiet (Z.to_nat (patience (wait_for_kill cfg)))
                (winmeteo_process cfg)) as [-> _].
    cbn. now rewrite app_nil_r.
Qed.

(** What follows the [try] block only adds to the trace. *)
Lemma iteration_trace_after_body (max_zeros : Z) (a : answers) (s : state) :
  exists d,
    trace (os (snd (iteration cfg max_zeros a s))) =
    trace (os (snd (iteration_body cfg max_zeros a s))) ++ d.
Proof.
  unfold iteration, try_except_else.
  destruct (iteration_body cfg max_zeros a s) as [[u|e] s1]; cbn [fst snd].
  - rewrite call_run. unfold sleep.
    destruct (timer cfg <? 0); cbn.
    + exists []. now rewrite app_nil_r.
    + now exists [EvSleep (timer cfg)].
  - assert (exists d,
               trace (os (snd ((call (emit (EvError e)) ;;
                                call (sleep (error_timer cfg))) s1)))
               = trace (os s1) ++ d) as Hh.
    { unfold bind. rewrite !call_run. cbn. unfold sleep.
      destruct (error_timer cfg <? 0); cbn.
      - now exists [EvError e].
      - exists [EvError e; EvSleep (error_timer cfg)].
        now rewrite <- app_assoc. }
    destruct e; try exact Hh. exists []. cbn. now rewrite app_nil_r.
Qed.

(** At or above the threshold the restart step begins with a call of
    [kill_winmeteo]. *)
Lemma restart_if_stalled_calls_kill (max_zeros : Z) (a : answers)
    (s : state) :
  max_zeros <= zeros (vars s) ->
  exists d,
    trace (os (snd (restart_if_stalled cfg max_zeros a s))) =
    trace (os s)
      ++ EvKill (winmeteo_process cfg) (wait_for_kill cfg) :: d.
Proof.
  intros Hz. rewrite restart_if_stalled_run.
  destruct (Z.geb_spec (zeros (vars s)) max_zeros); [|lia].
  pose proof (kill_winmeteo_frame (taskkill_does a) (winmeteo_process cfg)
                (wait_for_kill cfg) (os s)) as [_ [_ [d1 [Ht1 _]]]].
  destruct (kill_winmeteo _ _ _ (os s)) as [[u|e] w1]; cbn [fst snd] in *.
  - pose proof (start_winmeteo_frame (popen_launches a)
                  (winmeteo_process cfg) (winmeteo_path cfg)
                  (winmeteo_dir cfg) w1) as [_ [_ [_ [d2 [Ht2 _]]]]].
    destruct (start_winmeteo_if_not_running _ _ _ _ w1) as [[u'|e] w2];
      cbn [fst snd os] in *; rewrite Ht2, Ht1; list_norm; eexists;
      reflexivity.
  - cbn. now exists d1.
Qed.

(** C8, as the program has it.  A turn in which the termination times out
    keeps the count of empty polls, which is at the threshold or above: the
    very next turn whose poll is empty calls [kill_winmeteo] again, without
    a new run of empty polls. *)
Theorem retry_on_next_empty_poll (max_zeros : Z) (a a' : answers) (s : state) :
  termination_times_out cfg max_zeros a s ->
  0 <= error_timer cfg ->
  let s1 := snd (iteration cfg max_zeros a s) in
  polls_empty (last_timestamp (vars s1)) a' = true ->
  zeros (vars s1) = zeros (vars s) + 1
  /\ max_zeros <= zeros (vars s1)
  /\ exists delta,
       trace (os (snd (iteration cfg max_zeros a' s1))) =
       trace (os s1)
         ++ EvLoad (dbf_path cfg)
         :: EvKill (winmeteo_process cfg) (wait_for_kill cfg) :: delta.
Proof.
  intros H Ht. cbn zeta.
  rewrite (iteration_times_out max_zeros a s H Ht).
  destruct H as [_ [Hz _]]. cbn [snd vars zeros set_zeros set_iterations].
  intros He. split; [reflexivity|]. split; [lia|].
  match goal with |- context [iteration _ _ _ ?st] => set (s1 := st) in * end.
  destruct (iteration_trace_after_body max_zeros a' s1) as [d ->].
  rewrite iteration_body_run, poll_and_write_empty by exact He.
  match goal with |- context [restart_if_stalled _ _ _ ?st] =>
    destruct (restart_if_stalled_calls_kill max_zeros a' st) as [d' ->];
      [cbn; lia |]
  end.
  cbn [os]. unfold log. cbn [trace]. list_norm. eexists. reflexivity.
Qed.

(** ** A kill that could not be issued *)

(** C9.  The process is running, the [taskkill] command exits with an
    error: [kill_winmeteo] reports it and returns at once, without a single
    sleep.  At the threshold the turn goes on as after a termination:
    [start_winmeteo_if_not_running] is called and, the process being still
    there, launches nothing; one restart is counted, the clock reading is
    recorded as the restart time and the count of empty polls is reset.  The
    process table is what it was. *)
Theorem failed_kill_counts_as_restart (max_zeros : Z) (a : answers)
    (s : state) :
  polls_empty (last_timestamp (vars s)) a = true ->
  max_zeros <= zeros (vars s) + 1 ->
  listed_at (winmeteo_process cfg) (clock (os s)) (procs (os s)) = true ->
  taskkill_does a = TkExit ->
  0 <= timer cfg ->
  let name := winmeteo_process cfg in
  let limit := wait_for_kill cfg in
  let w1 := log (EvLoad (dbf_path cfg)) (os s) in
  kill_winmeteo TkExit name limit w1 =
    (Ok tt,
     mkWorld (clock w1) (procs w1) (sink w1)
             (trace w1 ++ [EvKill name limit; EvEnum name true;
                           EvTaskkill name]))
  /\ iteration cfg max_zeros a s =
     (Ok tt,
      mkState
        (mkLocals (last_timestamp (vars s)) (iterations (vars s) + 1) 0
                  (restarts (vars s) + 1) (clock (os s)))
        (mkWorld (clock (os s) + timer cfg) (procs (os s)) (sink (os s))
                 (trace (os s)
                    ++ [EvLoad (dbf_path cfg);
                        EvKill name limit; EvEnum name true; EvTaskkill name;
                        EvStart name; EvEnum name true;
                        EvSleep (timer cfg)]))).
Proof.
  intros He Hz Hl Htk Ht. cbn zeta. split.
  - rewrite kill_winmeteo_exit by exact Hl. unfold log. cbn.
    list_norm. reflexivity.
  - unfold iteration, try_except_else.
    rewrite iteration_body_run, poll_and_write_empty by exact He.
    rewrite restart_if_stalled_run.
    cbn [vars os zeros set_zeros set_iterations].
    destruct (Z.geb_spec (zeros (vars s) + 1) max_zeros); [|lia].
    rewrite Htk, kill_winmeteo_exit by exact Hl.
    rewrite start_winmeteo_running by exact Hl.
    rewrite call_run, sleep_run by assumption.
    unfold log. cbn. list_norm. reflexivity.
Qed.

(** ** Startup *)

Lemma concat_failed_quiet (n : nat) :
  supervisor_calls (List.concat (repeat (failed_attempt cfg) n)) = []
  /\ filter is_popen (List.concat (repeat (failed_attempt cfg) n)) = [].
Proof. induction n as [|n IH]; cbn; auto. Qed.

(** One failed attempt. *)
Lemma connect_loop_fail_step (rest : list (option (list (list datetime))))
    (w : world) :
  connect_loop cfg (None :: rest) w =
  if error_timer cfg <? 0
  then (Raise ValueError, log (EvError SinkError) (log EvConnect w))
  else connect_loop cfg rest
         (mkWorld (clock w + error_timer cfg) (procs w) (sink w)
                  (trace w ++ failed_attempt cfg)).
Proof.
  cbn [connect_loop]. unfold bind at 1, emit, modify.
  unfold bind at 1. unfold bind at 1.
  destruct (Z.ltb_spec (error_timer cfg) 0) as [Hneg | Hpos].
  - unfold sleep. apply Z.ltb_lt in Hneg. now rewrite Hneg.
  - rewrite sleep_run by assumption. unfold log, failed_attempt. cbn.
    now rewrite <- !app_assoc.
Qed.

(** The connect loop adds no call of a supervisor function and no launch to
    the trace, and leaves the process table alone. *)
Lemma connect_loop_quiet (attempts : list (option (list (list datetime))))
    (w : world) :
  procs (snd (connect_loop cfg attempts w)) = procs w
  /\ exists delta,
       trace (snd (connect_loop cfg attempts w)) = trace w ++ delta
       /\ supervisor_calls delta = [] /\ filter is_popen delta = [].
Proof.
  revert w. induction attempts as [|[tables|] rest IH]; intros w.
  - cbn. split; [reflexivity|]. exists []. now rewrite app_nil_r.
  - cbn. split; [reflexivity|]. now exists [EvConnect].
  - rewrite connect_loop_fail_step. destruct (error_timer cfg <? 0).
    + cbn. split; [reflexivity|]. exists [EvConnect; EvError SinkError].
      now rewrite <- app_assoc.
    + match goal with |- context [connect_loop _ rest ?w0] =>
        destruct (IH w0) as [Hp [d [Ht [Hq Hq']]]]
      end.
      cbn [clock procs sink trace] in *. split; [exact Hp|].
      exists (failed_attempt cfg ++ d). rewrite Ht, <- app_assoc.
      split; [reflexivity|]. unfold supervisor_calls in *.
      rewrite !filter_app, Hq, Hq'. auto.
Qed.

(** As long as every attempt fails, the connect loop keeps turning. *)
Lemma connect_loop_failing (n : nat) (w : world) :
  0 <= error_timer cfg ->
  connect_loop cfg (repeat None n) w =
  (Raise Unfinished,
   mkWorld (clock w + Z.of_nat n * error_timer cfg) (procs w) (sink w)
           (trace w ++ List.concat (repeat (failed_attempt cfg) n))).
Proof.
  intros Ht. revert w. induction n as [|n IH]; intros w.
  - cbn. rewrite app_nil_r, Z.add_0_r. now destruct w.
  - cbn [repeat]. rewrite connect_loop_fail_step.
    destruct (Z.ltb_spec (error_timer cfg) 0); [lia|].
    rewrite IH. cbn [clock procs sink trace List.concat].
    f_equal. f_equal; [lia | now rewrite <- app_assoc].
Qed.

Lemma listed_at_spawned (name : string) (t : Z) (ps : list proc) :
  listed_at name t (ps ++ [mkProc name None]) = true.
Proof.
  unfold listed_at. rewrite existsb_app. cbn.
  now rewrite String.eqb_refl, orb_true_r.
Qed.

Lemma startup_run (launched : bool)
    (attempts : list (option (list (list datetime)))) (w : world) :
  startup cfg launched attempts w =
  match start_winmeteo_if_not_running launched (winmeteo_process cfg)
          (winmeteo_path cfg) (winmeteo_dir cfg) w with
  | (Raise e, w0) => (Raise e, w0)
  | (Ok _, w0) =>
      match connect_loop cfg attempts w0 with
      | (Raise e, w1) => (Raise e, w1)
      | (Ok t, w1) =>
          match floordiv (kill_timer cfg) (timer cfg) with
          | Ok max_zeros => (Ok (mkLocals t 0 0 0 (clock w1), max_zeros), w1)
          | Raise e => (Raise e, w1)
          end
      end
  end.
Proof.
  unfold startup. unfold bind at 1.
  destruct (start_winmeteo_if_not_running _ _ _ _ w) as [[u|e] w0];
    [|reflexivity].
  unfold bind at 1.
  destruct (connect_loop cfg attempts w0) as [[t|e] w1]; [|reflexivity].
  unfold bind, lift, datetime_now, gets, ret.
  now destruct (floordiv (kill_timer cfg) (timer cfg)).
Qed.

(** What [main] hands to the main loop. *)
Lemma startup_threshold (launched : bool)
    (attempts : list (option (list (list datetime)))) (w w' : world)
    (l : locals) (threshold : Z) :
  startup cfg launched attempts w = (Ok (l, threshold), w') ->
  floordiv (kill_timer cfg) (timer cfg) = Ok threshold
  /\ zeros l = 0 /\ restarts l = 0.
Proof.
  rewrite startup_run.
  destruct (start_winmeteo_if_not_running _ _ _ _ w) as [[u|e] w0];
    [|discriminate].
  destruct (connect_loop cfg attempts w0) as [[t|e] w1]; [|discriminate].
  destruct (floordiv (kill_timer cfg) (timer cfg)) as [mz|e]; [|discriminate].
  intros E. injection E as <- <- _. auto.
Qed.

(** C3.  The stall threshold [main] computes is [kill_timer // timer], the
    floor of the quotient, and the loop starts with no empty poll counted.  Starting with no empty poll counted, a run of empty polls one
    short of the threshold calls neither supervisor function; the poll that
    completes the threshold, when the kill takes effect within the wait and
    the launch works, calls [kill_winmeteo] and then
    [start_winmeteo_if_not_running], each once, counts one restart, records
    the clock reading of that moment and resets the count of empty polls. *)
Theorem stall_restart (max_zeros : Z) (script : list answers) (a : answers)
    (s : state) :
  floordiv (kill_timer cfg) (timer cfg) = Ok max_zeros ->
  0 < timer cfg ->
  1 <= max_zeros ->
  zeros (vars s) = 0 ->
  Z.of_nat (List.length script) = max_zeros - 1 ->
  Forall (fun x => polls_empty (last_timestamp (vars s)) x = true)
         (script ++ [a]) ->
  dies_in_time (wait_for_kill cfg) (taskkill_does a) = true ->
  popen_launches a = true ->
  let s1 := snd (main_loop cfg max_zeros script s) in
  let s2 := snd (main_loop cfg max_zeros (script ++ [a]) s) in
  max_zeros * timer cfg <= kill_timer cfg < (max_zeros + 1) * timer cfg
  /\ (forall launched attempts w l threshold w',
        startup cfg launched attempts w = (Ok (l, threshold), w') ->
        threshold = max_zeros /\ zeros l = 0 /\ restarts l = 0)
  /\ supervisor_calls (trace (os s1)) = supervisor_calls (trace (os s))
  /\ restarts (vars s1) = restarts (vars s)
  /\ zeros (vars s1) = max_zeros - 1
  /\ fst (main_loop cfg max_zeros (script ++ [a]) s) = Ok tt
  /\ supervisor_calls (trace (os s2)) =
     supervisor_calls (trace (os s))
       ++ [EvKill (winmeteo_process cfg) (wait_for_kill cfg);
           EvStart (winmeteo_process cfg)]
  /\ restarts (vars s2) = restarts (vars s) + 1
  /\ last_restart (vars s2) + timer cfg = clock (os s2)
  /\ zeros (vars s2) = 0.
Proof.
  intros Hdiv Ht Hmz Hz Hlen Hall Hdies Hpop. cbn zeta.
  apply Forall_app in Hall as [Hscript Ha].
  inversion Ha as [|? ? Ha' _]; subst.
  split.
  { unfold floordiv in Hdiv. destruct (timer cfg =? 0); [discriminate|].
    injection Hdiv as <-.
    pose proof (Z.mul_div_le (kill_timer cfg) (timer cfg) Ht).
    pose proof (Z.mul_succ_div_gt (kill_timer cfg) (timer cfg) Ht).
    lia. }
  split.
  { intros launched attempts w l threshold w' E.
    apply startup_threshold in E as [E [Z0 R0]].
    split; [congruence | auto]. }
  rewrite main_loop_app.
  destruct (main_loop_empty_polls max_zeros script s Hscript)
    as [s1 [E [H1 [H2 [H3 [H4 [H5 [H6 H7]]]]]]]]; [lia | lia |].
  rewrite E. cbn [fst snd].
  split; [assumption|]. split; [assumption|]. split; [lia|].
  rewrite main_loop_step.
  destruct (iteration_restarts max_zeros a s1)
    as [s2 [E2 [G1 [G2 [G3 [G4 _]]]]]];
    [now rewrite H1 | lia | now apply dies_in_time_returns
    | assumption | lia |].
  rewrite E2. cbn. repeat split; try assumption; congruence.
Qed.

(** C10.  [main] begins with one call of [start_winmeteo_if_not_running]:
    it is the first thing in the trace, before any connection attempt, it
    launches the executable when no process of that name is listed, and
    whatever the connection attempts come to, no second call and no second
    launch follow before the main loop.  When every attempt fails the
    connect loop never ends, and the process launched at the start is
    listed all the while. *)
Theorem startup_ensures_running (launched : bool)
    (attempts : list (option (list (list datetime)))) (w : world) :
  let name := winmeteo_process cfg in
  let found := listed_at name (clock w) (procs w) in
  let w' := snd (startup cfg launched attempts w) in
  exists delta,
    trace w' =
      trace w ++ [EvStart name; EvEnum name found]
              ++ (if found then []
                  else [EvPopen (winmeteo_path cfg) (winmeteo_dir cfg)])
              ++ delta
    /\ supervisor_calls delta = []
    /\ filter is_popen delta = []
    /\ (forall n : nat,
          attempts = repeat None n ->
          0 <= error_timer cfg ->
          launched = true ->
          fst (startup cfg launched attempts w) = Raise Unfinished
          /\ delta = List.concat (repeat (failed_attempt cfg) n)
          /\ (found = false -> listed_at name (clock w') (procs w') = true)).
Proof.
  cbn zeta. rewrite startup_run.
  destruct (listed_at (winmeteo_process cfg) (clock w) (procs w)) eqn:Found.
  - rewrite start_winmeteo_running by exact Found.
    match goal with |- context [connect_loop _ attempts ?w0] =>
      pose proof (connect_loop_quiet attempts w0) as [Hp [d [Ht [Hq Hq']]]];
      pose proof (fun n => connect_loop_failing n w0) as Hfail
    end.
    exists d. split; [|split; [assumption | split; [assumption|]]].
    + destruct (connect_loop cfg attempts _) as [[t|e] w1];
        [destruct (floordiv _ _)|]; cbn [fst snd] in *; rewrite Ht;
        unfold log; cbn; list_norm; reflexivity.
    + intros n -> Hpos _. rewrite Hfail in * by assumption.
      cbn [fst snd trace] in *. split; [reflexivity|].
      split; [|discriminate]. now apply app_inv_head in Ht.
  - rewrite start_winmeteo_absent by exact Found. destruct launched.
    + match goal with |- context [connect_loop _ attempts ?w0] =>
        pose proof (connect_loop_quiet attempts w0) as [Hp [d [Ht [Hq Hq']]]];
        pose proof (fun n => connect_loop_failing n w0) as Hfail
      end.
      exists d. split; [|split; [assumption | split; [assumption|]]].
      * destruct (connect_loop cfg attempts _) as [[t|e] w1];
          [destruct (floordiv _ _)|]; cbn [fst snd] in *; rewrite Ht;
          cbn; list_norm; reflexivity.
      * intros n -> Hpos _. rewrite Hfail in * by assumption.
        cbn [fst snd trace procs clock] in *. split; [reflexivity|].
        split; [now apply app_inv_head in Ht|].
        intros _. apply listed_at_spawned.
    + exists []. cbn. rewrite ?app_nil_r.
      split; [reflexivity|]. split; [reflexivity|]. split; [reflexivity|].
      intros n _ _ H. discriminate H.
Qed.

(** ** The claims on extractor, writer and mapper *)

(** C5, as the program has it.  On a table all of whose rows carry a date
    and a time that read, [read_new_rows_from_dbf] returns the rows whose
    time stamp is strictly after the watermark, all of them and only them,
    in the order of the table; it changes nothing but the trace, and a
    second call on the same table with the same watermark returns the same
    rows.  One row whose date and time do not read makes the call raise, and
    no row is returned. *)
Theorem read_new_rows_exact (table : list row) (watermark : datetime)
    (w : world) :
  let first := read_new_rows_from_dbf cfg (Some table) watermark w in
  let second := read_new_rows_from_dbf cfg (Some table) watermark (snd first) in
  (forallb well_formed table = true ->
   fst first = Ok (filter (newer watermark) table)
   /\ (forall r, In r (filter (newer watermark) table) <->
                 In r table /\ exists t, row_time r = Ok t /\ watermark < t)
   /\ snd first = log (EvLoad (dbf_path cfg)) w
   /\ fst second = fst first)
  /\ (forallb well_formed table = false -> exists e, fst first = Raise e).
Proof.
  cbn zeta. rewrite !read_new_rows_from_dbf_run. cbn [fst snd]. split.
  - intros H. rewrite new_rows_loop_ok by assumption. cbn [app].
    split; [reflexivity|]. split; [|split; reflexivity].
    intros r. rewrite filter_In. unfold newer. split.
    + intros [Hin N]. split; [assumption|].
      destruct (row_time r) as [t|e]; [|discriminate].
      exists t. split; [reflexivity | now apply Z.ltb_lt].
    + intros [Hin [t [E Hlt]]]. split; [assumption|].
      rewrite E. now apply Z.ltb_lt.
  - intros H. now apply new_rows_loop_raises.
Qed.

(** A turn is its [try] block, then one sleep: [timer] seconds after a
    block that ended, [error_timer] seconds and an [ERROR] line after one
    that raised. *)
Lemma iteration_run (max_zeros : Z) (a : answers) (s : state) :
  iteration cfg max_zeros a s =
  match iteration_body cfg max_zeros a s with
  | (Ok _, s1) =>
      if timer cfg <? 0 then (Raise ValueError, mkState (vars s1) (os s1))
      else (Ok tt,
            mkState (vars s1)
              (mkWorld (clock (os s1) + timer cfg) (procs (os s1))
                       (sink (os s1))
                       (trace (os s1) ++ [EvSleep (timer cfg)])))
  | (Raise Unfinished, s1) => (Raise Unfinished, s1)
  | (Raise e, s1) =>
      if error_timer cfg <? 0
      then (Raise ValueError, mkState (vars s1) (log (EvError e) (os s1)))
      else (Ok tt,
            mkState (vars s1)
              (mkWorld (clock (os s1) + error_timer cfg) (procs (os s1))
                       (sink (os s1))
                       (trace (os s1)
                          ++ [EvError e; EvSleep (error_timer cfg)])))
  end.
Proof.
  unfold iteration, try_except_else.
  destruct (iteration_body cfg max_zeros a s) as [[u|e] s1].
  - rewrite call_run. unfold sleep.
    destruct (timer cfg <? 0); reflexivity.
  - assert (forall e0,
              (call (emit (EvError e0)) ;; call (sleep (error_timer cfg))) s1
              = if error_timer cfg <? 0
                then (Raise ValueError,
                      mkState (vars s1) (log (EvError e0) (os s1)))
                else (Ok tt,
                      mkState (vars s1)
                        (mkWorld (clock (os s1) + error_timer cfg)
                           (procs (os s1)) (sink (os s1))
                           (trace (os s1)
                              ++ [EvError e0; EvSleep (error_timer cfg)]))))
      as Hh.
    { intros e0. unfold bind. rewrite !call_run. cbn. unfold sleep.
      destruct (error_timer cfg <? 0); cbn; [reflexivity|].
      now rewrite <- app_assoc. }
    destruct e; try apply Hh. reflexivity.
Qed.

Lemma fields_loop_raise (items : row) (p : point) (w : world) (e : exn) :
  fst (fields_loop items p w) = Raise e ->
  exists kv, In kv items /\ py_float (snd kv) = Raise e.
Proof.
  revert p w. induction items as [|[key v] rest IH]; intros p w.
  - cbn. discriminate.
  - rewrite fields_loop_step. destruct (map_column key).
    + intros H. destruct (IH _ _ H) as [kv [Hin Hr]]. exists kv. cbn. auto.
    + destruct (py_float v) as [x|e0] eqn:Fl.
      * intros H. destruct (IH _ _ H) as [kv [Hin Hr]]. exists kv. cbn. auto.
      * cbn. intros [= ->]. exists (key, v). cbn. auto.
    + intros H. destruct (IH _ _ H) as [kv [Hin Hr]]. exists kv. cbn. auto.
Qed.

Lemma make_point_python (r : row) (w : world) :
  runtime_answers_row r = true ->
  fst (make_point cfg r w) <> Raise Unfinished.
Proof.
  unfold runtime_answers_row. intros H. apply andb_prop in H as [Ht Hf].
  rewrite make_point_run.
  destruct (fields_loop r (Point (influxdb_measurement cfg)) w)
    as [[q|e] w1] eqn:E.
  - destruct (row_time r) as [t|e]; cbn; [discriminate|].
    intros [= ->]. discriminate.
  - cbn. intros [= ->].
    destruct (fields_loop_raise r (Point (influxdb_measurement cfg)) w
                Unfinished) as [kv [Hin Hr]];
      [now rewrite E|].
    rewrite forallb_forall in Hf. specialize (Hf kv Hin).
    rewrite Hr in Hf. discriminate.
Qed.

Lemma points_loop_python (data : list row) (points : list point)
    (w : world) :
  forallb runtime_answers_row data = true ->
  fst (points_loop cfg data points w) <> Raise Unfinished.
Proof.
  revert points w. induction data as [|r rest IH]; intros points w H.
  - cbn. discriminate.
  - cbn [forallb] in H. apply andb_prop in H as [Hr Hrest].
    rewrite points_loop_step.
    pose proof (make_point_python r w Hr) as Hm.
    destruct (make_point cfg r w) as [[p|e] w1]; cbn [fst] in *.
    + now apply IH.
    + intros [= ->]. now apply Hm.
Qed.

Lemma write_to_influxdb_python (accepted : bool) (data : list row)
    (w : world) :
  forallb runtime_answers_row data = true ->
  fst (write_to_influxdb cfg accepted data w) <> Raise Unfinished.
Proof.
  intros H. rewrite write_to_influxdb_run.
  pose proof (points_loop_python data [] w H) as Hp.
  destruct (points_loop cfg data [] w) as [[pts|e] w1]; cbn [fst] in *.
  - destruct accepted; discriminate.
  - intros [= ->]. now apply Hp.
Qed.

Lemma forallb_filter {A} (f g : A -> bool) (xs : list A) :
  forallb f xs = true -> forallb f (filter g xs) = true.
Proof.
  rewrite !forallb_forall. intros H x Hin. apply filter_In in Hin as [Hin _].
  auto.
Qed.

(** C4, as the program has it.  A cell of a translated column that [float]
    refuses, in any row of the batch, makes [write_to_influxdb] raise before
    the write is issued: no point of the batch reaches the sink.  In the
    main loop the turn leaves the watermark, the sink and the counts of
    empty polls and restarts as they were, and the error is caught by the
    handler of the turn: the turn ends normally, having reported the very
    exception the writer raised and slept [error_timer] seconds, with
    nothing changed but the count of turns and the trace, to which the turn
    has added neither a write nor a supervisor call. *)
Theorem coercion_failure_aborts_batch (accepted : bool) (data : list row)
    (w : world) :
  forallb coercible data = false ->
  (exists e, fst (write_to_influxdb cfg accepted data w) = Raise e)
  /\ sink (snd (write_to_influxdb cfg accepted data w)) = sink w
  /\ filter is_write (trace (snd (write_to_influxdb cfg accepted data w))) =
     filter is_write (trace w)
  /\ (forall (max_zeros : Z) (a : answers) (s : state) (table : list row),
        dbf_file a = Some table ->
        new_rows_loop table (last_timestamp (vars s)) [] = Ok data ->
        let s' := snd (iteration cfg max_zeros a s) in
        last_timestamp (vars s') = last_timestamp (vars s)
        /\ sink (os s') = sink (os s)
        /\ zeros (vars s') = zeros (vars s)
        /\ restarts (vars s') = restarts (vars s))
  /\ (forall (max_zeros : Z) (a : answers) (s : state) (table : list row),
        dbf_file a = Some table ->
        new_rows_loop table (last_timestamp (vars s)) [] = Ok data ->
        runtime_answers a = true ->
        0 <= error_timer cfg ->
        exists (e : exn) (delta : list event),
          fst (write_to_influxdb cfg (write_accepted a) data
                 (log (EvLoad (dbf_path cfg)) (os s))) = Raise e
          /\ iteration cfg max_zeros a s =
             (Ok tt,
              mkState (set_iterations (iterations (vars s) + 1) (vars s))
                (mkWorld (clock (os s) + error_timer cfg) (procs (os s))
                   (sink (os s))
                   (trace (os s)
                      ++ EvLoad (dbf_path cfg)
                      :: delta
                      ++ [EvError e; EvSleep (error_timer cfg)])))
          /\ filter is_write delta = []
          /\ supervisor_calls delta = []).
Proof.
  intros H.
  assert (forall acc w0,
             (exists e, fst (write_to_influxdb cfg acc data w0) = Raise e)
             /\ sink (snd (write_to_influxdb cfg acc data w0)) = sink w0
             /\ filter is_write (trace (snd (write_to_influxdb cfg acc data w0)))
                = filter is_write (trace w0)) as Hw.
  { intros acc w0. rewrite write_to_influxdb_run.
    destruct (points_loop_not_coercible data [] w0 H) as [e He].
    pose proof (points_loop_logs data [] w0) as [_ [_ [Hs [d [Ht [_ Hq]]]]]].
    destruct (points_loop cfg data [] w0) as [[pts|e'] w1];
      cbn [fst snd] in *; [discriminate|].
    split; [now exists e'|]. split; [assumption|].
    now rewrite Ht, filter_app, Hq, app_nil_r. }
  destruct (Hw accepted w) as [H1 [H2 H3]].
  split; [assumption|]. split; [assumption|]. split; [assumption|].
  split.
  - intros max_zeros a s table Hf Hrows. cbn zeta.
    destruct (iteration_frame max_zeros a s) as [-> ->].
    rewrite iteration_body_run, poll_and_write_run. cbn [vars os].
    rewrite Hf. cbn [last_timestamp set_iterations]. rewrite Hrows.
    destruct data as [|r rows]; [discriminate|]. cbn zeta.
    match goal with |- context [write_to_influxdb _ ?acc _ ?w0] =>
      destruct (Hw acc w0) as [[e He] [Hs _]];
      destruct (write_to_influxdb cfg acc (r :: rows) w0) as [[u|e'] w2]
    end; cbn [fst snd] in *; [discriminate|].
    cbn. auto.
  - intros max_zeros a s table Hf Hrows Ha Ht.
    assert (forallb runtime_answers_row data = true) as Hpy.
    { unfold runtime_answers in Ha. rewrite Hf in Ha.
      apply new_rows_loop_inv in Hrows as [_ ->].
      now apply forallb_filter. }
    rewrite iteration_run, iteration_body_run, poll_and_write_run.
    cbn [vars os]. rewrite Hf. cbn [last_timestamp set_iterations].
    rewrite Hrows. destruct data as [|r rows]; [discriminate|]. cbn zeta.
    destruct (Z.ltb_spec (error_timer cfg) 0); [lia|].
    pose proof (write_to_influxdb_python (write_accepted a) (r :: rows)
                  (log (EvLoad (dbf_path cfg)) (os s)) Hpy) as Hne.
    rewrite write_to_influxdb_run in *.
    destruct (points_loop_not_coercible (r :: rows) []
                (log (EvLoad (dbf_path cfg)) (os s)) H) as [e0 He0].
    pose proof (points_loop_logs (r :: rows) []
                  (log (EvLoad (dbf_path cfg)) (os s)))
      as [Hc [Hp [Hs [delta [Htr [Hq Hq']]]]]].
    destruct (points_loop cfg (r :: rows) []
                (log (EvLoad (dbf_path cfg)) (os s))) as [[pts|e] w2];
      cbn [fst snd] in *; [discriminate|].
    exists e, delta. split; [reflexivity|].
    split; [|split; assumption].
    cbn [log clock procs sink trace] in Hc, Hp, Hs, Htr.
    destruct e; try (exfalso; apply Hne; reflexivity);
      cbn [vars os]; rewrite Hc, Hp, Hs, Htr; rewrite <- !app_assoc;
      reflexivity.
Qed.

(** C7.  The mapper ignores every system column and every unused column,
    translates every column of the table to the name the table gives,
    [VLVZD] to [humi] and [TEP2M] to [temp] among them, and knows no other
    text.  An unknown column is reported and skipped: the loop over the
    columns of the row then goes on with the rest, so that the point a row
    gives is the point it gives without its unknown columns, and once the
    loop has ended every unknown column has been reported. *)
Theorem field_mapper_outcomes :
  Forall (fun key => map_column key = Ignored) system_columns
  /\ Forall (fun key => map_column key = Ignored) unused_columns
  /\ Forall (fun kn => map_column (fst kn) = Mapped (snd kn)) translation
  /\ map_column "VLVZD" = Mapped "humi"
  /\ map_column "TEP2M" = Mapped "temp"
  /\ (forall key, map_column key = Unknown <-> ~ In key known_columns)
  /\ (forall key v rest p w,
        map_column key = Unknown ->
        fields_loop ((key, v) :: rest) p w =
        fields_loop rest p (log (EvUnknownColumn key) w))
  /\ (forall (r : row) p w,
        fst (fields_loop r p w) = fst (fields_loop (drop_unknown r) p w))
  /\ (forall (r : row) p q w w',
        fields_loop r p w = (Ok q, w') ->
        trace w' = trace w ++ map EvUnknownColumn (unknown_keys r)).
Proof.
  split; [repeat constructor|]. split; [repeat constructor|].
  split; [repeat constructor|]. split; [reflexivity|]. split; [reflexivity|].
  split; [|split; [|split]].
  - intros key. rewrite <- is_known_In. split.
    + intros H K. now apply map_column_known in K.
    + intros H. apply map_column_unknown.
      now destruct (is_known key).
  - intros key v rest p w H. now rewrite fields_loop_step, H.
  - intros r p w. apply fields_loop_drop_unknown.
  - intros r p q w w'. apply fields_loop_reports.
Qed.

End Properties.

(** * Further behaviour of the program *)

Section Behaviour.

Context {L : PyLib}.
Variable cfg : config.

(** ** kill_winmeteo: how long it waits and what a return means *)

(** The waiting loop, whatever becomes of the process: it looks for the
    process once a second, for [n] seconds, and leaves at the first look
    that does not find it, or at the look that finds it once the limit is
    passed. *)
Lemma wait_gone_shape (name : string) (limit : Z) (start : reading)
    (rounds : nat) (w : world) (k : Z) :
  clock w = seconds start + k ->
  (calls start <= List.length (trace w))%nat ->
  0 <= k <= patience limit ->
  (Z.to_nat (patience limit - k) < rounds)%nat ->
  exists (n : nat) (found : bool),
    wait_gone rounds name limit start w =
      (if found then Raise OSError else Ok tt,
       mkWorld (clock w + Z.of_nat n) (procs w) (sink w)
               (trace w ++ poll_rounds n name ++ [EvEnum name found]))
    /\ Z.of_nat n <= patience limit - k
    /\ listed_at name (clock w + Z.of_nat n) (procs w) = found.
Proof.
  revert w k. induction rounds as [|rounds IH]; intros w k Hc Hcalls Hk Hr;
    [lia|].
  rewrite wait_gone_round by exact Hcalls.
  destruct (listed_at name (clock w) (procs w)) eqn:Now.
  - replace (clock w - seconds start) with k by lia.
    destruct (Z.leb_spec limit k) as [Hge | Hlt].
    + exists 0%nat, true. cbn [Z.of_nat poll_rounds app].
      rewrite Z.add_0_r. repeat split; [lia | exact Now].
    + assert (k + 1 <= patience limit) as Hk1 by (unfold patience; lia).
      destruct (IH (mkWorld (clock w + 1) (procs w) (sink w)
                            (trace w ++ [EvEnum name true; EvSleep 1]))
                   (k + 1))
        as [n [found [E [Hn Hl]]]];
        cbn [clock procs sink trace];
        [lia | rewrite length_app; lia | lia | lia |].
      exists (S n), found. rewrite E. cbn [clock procs sink trace] in *.
      replace (clock w + Z.of_nat (S n)) with (clock w + 1 + Z.of_nat n)
        by lia.
      split; [|split; [lia | exact Hl]].
      cbn [poll_rounds]. now rewrite <- !app_assoc.
  - exists 0%nat, false. cbn [Z.of_nat poll_rounds app].
    rewrite Z.add_0_r. repeat split; [unfold patience in *; lia | exact Now].
Qed.

(** [kill_winmeteo] after an accepted kill, spelled out. *)
Lemma kill_winmeteo_accepted (gone_after : option Z) (name : string)
    (limit : Z) (w : world) :
  listed_at name (clock w) (procs w) = true ->
  exists (n : nat) (found : bool),
    kill_winmeteo (TkAccepted gone_after) name limit w =
      (if found then Raise OSError else Ok tt,
       mkWorld (clock w + Z.of_nat n)
               (procs_after (TkAccepted gone_after) name w) (sink w)
               (trace w ++ [EvKill name limit; EvEnum name true;
                            EvTaskkill name]
                        ++ poll_rounds n name ++ [EvEnum name found]))
    /\ Z.of_nat n <= patience limit
    /\ listed_at name (clock w + Z.of_nat n)
                 (procs_after (TkAccepted gone_after) name w) = found.
Proof.
  intros H. unfold kill_winmeteo. unfold bind at 1, emit, modify.
  unfold bind at 1. rewrite process_exists_run. cbn [clock procs log].
  rewrite H, taskkill_accepted. unfold bind at 1, time_time, gets.
  cbn [clock procs sink trace log].
  match goal with
  | |- context [wait_gone ?r ?nm ?l ?st ?w0] =>
      destruct (wait_gone_shape nm l st r w0 0) as [n [found [E [Hn Hl]]]];
      cbn [clock procs sink trace seconds calls];
      [lia | lia | unfold patience; lia | apply wait_rounds_enough |]
  end.
  exists n, found. rewrite E. cbn [clock procs sink trace] in *.
  split; [|split; [lia | exact Hl]].
  now rewrite <- !app_assoc.
Qed.

Lemma poll_rounds_sleeps (n : nat) (name : string) :
  filter is_sleep (poll_rounds n name) = repeat (EvSleep 1) n
  /\ filter is_taskkill (poll_rounds n name) = [].
Proof.
  induction n as [|n [IH1 IH2]]; cbn; [auto|]. now rewrite IH1, IH2.
Qed.

(** X3.  When [kill_winmeteo] returns and the [taskkill] command did not
    exit with an error, no process of that name is in the process list at
    the moment of the return. *)
Theorem kill_winmeteo_gone_on_return (tk : taskkill_result) (name : string)
    (limit : Z) (w : world) :
  fst (kill_winmeteo tk name limit w) = Ok tt ->
  tk <> TkExit ->
  let w' := snd (kill_winmeteo tk name limit w) in
  listed_at name (clock w') (procs w') = false.
Proof.
  intros Hr Htk. cbn zeta.
  destruct (listed_at name (clock w) (procs w)) eqn:Now.
  - destruct tk as [g| |]; [|contradiction|].
    + destruct (kill_winmeteo_accepted g name limit w Now)
        as [n [found [E [_ Hl]]]].
      rewrite E in *. cbn [fst snd clock procs] in *.
      destruct found; [discriminate | exact Hl].
    + rewrite kill_winmeteo_not_launched in Hr by assumption. discriminate.
  - rewrite kill_winmeteo_not_running by assumption. exact Now.
Qed.

(** X4.  A call of [kill_winmeteo] returns or raises [OSError], nothing
    else.  It issues at most one [taskkill], and none when no process of that
    name is listed.  It sleeps only one second at a time, and in all no
    longer than the limit: the clock never goes back and advances by at
    most [patience] seconds.  The sink is not touched. *)
Theorem kill_winmeteo_bounded_wait (tk : taskkill_result) (name : string)
    (limit : Z) (w : world) :
  let r := fst (kill_winmeteo tk name limit w) in
  let w' := snd (kill_winmeteo tk name limit w) in
  (r = Ok tt \/ r = Raise OSError)
  /\ sink w' = sink w
  /\ filter is_taskkill (trace w') =
     filter is_taskkill (trace w)
       ++ (if listed_at name (clock w) (procs w)
           then [EvTaskkill name] else [])
  /\ exists n : nat,
       clock w' = clock w + Z.of_nat n
       /\ Z.of_nat n <= patience limit
       /\ filter is_sleep (trace w') =
          filter is_sleep (trace w) ++ repeat (EvSleep 1) n.
Proof.
  cbn zeta. destruct (listed_at name (clock w) (procs w)) eqn:Now.
  - destruct tk as [g| |].
    + destruct (kill_winmeteo_accepted g name limit w Now)
        as [n [found [E [Hn _]]]].
      rewrite E. cbn [fst snd clock procs sink trace].
      destruct (poll_rounds_sleeps n name) as [Hs Ht].
      split; [destruct found; auto|]. split; [reflexivity|].
      split; [|exists n; split; [reflexivity | split; [exact Hn|]]];
        rewrite !filter_app, ?Hs, ?Ht; cbn; now rewrite ?app_nil_r.
    + rewrite kill_winmeteo_exit by assumption. unfold log. cbn.
      split; [auto|]. split; [reflexivity|].
      split; [|exists 0%nat; split; [lia | split; [unfold patience; lia|]]];
        rewrite !filter_app; cbn; now rewrite ?app_nil_r.
    + rewrite kill_winmeteo_not_launched by assumption. unfold log. cbn.
      split; [auto|]. split; [reflexivity|].
      split; [|exists 0%nat; split; [lia | split; [unfold patience; lia|]]];
        rewrite !filter_app; cbn; now rewrite ?app_nil_r.
  - rewrite kill_winmeteo_not_running by assumption. unfold log. cbn.
    split; [auto|]. split; [reflexivity|].
    split; [|exists 0%nat; split; [lia | split; [unfold patience; lia|]]];
      rewrite !filter_app; cbn; now rewrite ?app_nil_r.
Qed.

(** ** get_last_timestamp and the start of main *)

Lemma concat_empty_tables {A} (n : nat) (rest : list (list A)) :
  List.concat (repeat [] n ++ rest) = List.concat rest.
Proof. induction n as [|n IH]; cbn; auto. Qed.

Lemma concat_nil_Forall {A} (tables : list (list A)) :
  List.concat tables = [] <-> Forall (fun table => table = []) tables.
Proof.
  induction tables as [|t tables IH]; cbn.
  - split; auto.
  - split.
    + intros H. apply app_eq_nil in H as [-> H]. constructor; tauto.
    + intros H. inversion H; subst. cbn. tauto.
Qed.

(** X1.  [get_last_timestamp] answers [None] exactly when no table of the
    query result holds a record; otherwise it answers the time of the first
    record of the first table that holds one, converted to the local zone:
    empty tables in front are passed over, and nothing after that record is
    looked at. *)
Theorem get_last_timestamp_first_record (tables : list (list datetime))
    (empties : nat) (t : datetime) (records : list datetime)
    (rest : list (list datetime)) :
  (get_last_timestamp tables = None
   <-> Forall (fun table => table = []) tables)
  /\ get_last_timestamp (repeat [] empties ++ (t :: records) :: rest) =
     Some (astimezone_local t).
Proof.
  split.
  - rewrite <- concat_nil_Forall. unfold get_last_timestamp.
    destruct (List.concat tables); split; intros H; try discriminate;
      reflexivity.
  - unfold get_last_timestamp. now rewrite concat_empty_tables.
Qed.

(** The connect loop when the attempt after [n] failed ones succeeds. *)
Lemma connect_loop_succeeds (n : nat) (tables : list (list datetime))
    (rest : list (option (list (list datetime)))) (w : world) :
  0 <= error_timer cfg ->
  connect_loop cfg (repeat None n ++ Some tables :: rest) w =
  (Ok (match get_last_timestamp tables with
       | Some t => t
       | None => datetime_min
       end),
   mkWorld (clock w + Z.of_nat n * error_timer cfg) (procs w) (sink w)
           (trace w ++ List.concat (repeat (failed_attempt cfg) n)
                    ++ [EvConnect])).
Proof.
  intros Ht. revert w. induction n as [|n IH]; intros w.
  - cbn. now rewrite Z.add_0_r.
  - cbn [repeat app]. rewrite connect_loop_fail_step.
    destruct (Z.ltb_spec (error_timer cfg) 0); [lia|].
    rewrite IH. cbn [clock procs sink trace List.concat].
    f_equal. f_equal; [lia | now rewrite <- !app_assoc].
Qed.

(** The events of one call of [start_winmeteo_if_not_running]. *)
Lemma start_winmeteo_run (launched : bool) (name path dir : string)
    (w : world) :
  let found := listed_at name (clock w) (procs w) in
  start_winmeteo_if_not_running launched name path dir w =
  (if found || launched then Ok tt else Raise OSError,
   mkWorld (clock w)
           (if negb found && launched
            then procs w ++ [mkProc (path_name path) None] else procs w)
           (sink w)
           (trace w ++ [EvStart name; EvEnum name found]
                    ++ (if found then [] else [EvPopen path dir]))).
Proof.
  cbn zeta. destruct (listed_at name (clock w) (procs w)) eqn:F.
  - rewrite start_winmeteo_running by assumption. unfold log. cbn.
    now rewrite <- app_assoc.
  - rewrite start_winmeteo_absent by assumption. now destruct launched.
Qed.

(** X2.  When WinMeteo runs or can be launched, the pause between two
    connection attempts is not negative and [timer] is not zero, [main]
    reaches its loop after [n] failed connection attempts and one that
    works, having slept [n] times [error_timer] and written nothing.  The
    loop starts from the time of the last record in the sink, or from
    [datetime.min] when the sink holds none, with the three counters at zero,
    the clock reading as the time of the last restart, and
    [kill_timer // timer] as the threshold. *)
Theorem startup_seeds_loop (launched : bool) (n : nat)
    (tables : list (list datetime))
    (rest : list (option (list (list datetime)))) (w : world) :
  0 <= error_timer cfg ->
  timer cfg <> 0 ->
  listed_at (winmeteo_process cfg) (clock w) (procs w) || launched = true ->
  let name := winmeteo_process cfg in
  let found := listed_at name (clock w) (procs w) in
  let attempts := repeat None n ++ Some tables :: rest in
  let w' := snd (startup cfg launched attempts w) in
  fst (startup cfg launched attempts w) =
    Ok (mkLocals (match get_last_timestamp tables with
                  | Some t => t
                  | None => datetime_min
                  end) 0 0 0 (clock w'),
        kill_timer cfg / timer cfg)
  /\ clock w' = clock w + Z.of_nat n * error_timer cfg
  /\ sink w' = sink w
  /\ trace w' =
     trace w ++ [EvStart name; EvEnum name found]
             ++ (if found then []
                 else [EvPopen (winmeteo_path cfg) (winmeteo_dir cfg)])
             ++ List.concat (repeat (failed_attempt cfg) n) ++ [EvConnect].
Proof.
  intros He Ht Hrun. cbn zeta. rewrite startup_run.
  rewrite start_winmeteo_run. cbn zeta. rewrite Hrun.
  rewrite connect_loop_succeeds by assumption.
  unfold floordiv. destruct (Z.eqb_spec (timer cfg) 0) as [E|_];
    [contradiction|].
  cbn [fst snd clock procs sink trace].
  repeat split. now rewrite <- !app_assoc.
Qed.

(** X6.  With [timer = 0] the division [kill_timer // timer] raises
    [ZeroDivisionError]: [main] ends with it once the connection is made,
    whatever the files hold, without one poll of the DBF file. *)
Theorem main_zero_timer (launched : bool) (n : nat)
    (tables : list (list datetime))
    (rest : list (option (list (list datetime)))) (script : list answers)
    (w : world) :
  timer cfg = 0 ->
  0 <= error_timer cfg ->
  listed_at (winmeteo_process cfg) (clock w) (procs w) || launched = true ->
  let name := winmeteo_process cfg in
  let found := listed_at name (clock w) (procs w) in
  let attempts := repeat None n ++ Some tables :: rest in
  fst (main cfg launched attempts script w) = Raise ZeroDivisionError
  /\ trace (snd (main cfg launched attempts script w)) =
     trace w ++ [EvStart name; EvEnum name found]
             ++ (if found then []
                 else [EvPopen (winmeteo_path cfg) (winmeteo_dir cfg)])
             ++ List.concat (repeat (failed_attempt cfg) n) ++ [EvConnect].
Proof.
  intros Ht He Hrun. cbn zeta. unfold main. rewrite startup_run.
  rewrite start_winmeteo_run. cbn zeta. rewrite Hrun.
  rewrite connect_loop_succeeds by assumption.
  unfold floordiv. rewrite Ht. cbn [Z.eqb fst snd clock procs sink trace].
  split; [reflexivity|]. now rewrite <- !app_assoc.
Qed.

(** X7.  When WinMeteo is not running and cannot be launched, [main] ends
    with the [OSError] of the launch: the call is outside every [try], so no
    connection is attempted and nothing is polled. *)
Theorem main_launch_failure
    (attempts : list (option (list (list datetime)))) (script : list answers)
    (w : world) :
  listed_at (winmeteo_process cfg) (clock w) (procs w) = false ->
  main cfg false attempts script w =
  (Raise OSError,
   mkWorld (clock w) (procs w) (sink w)
           (trace w ++ [EvStart (winmeteo_process cfg);
                        EvEnum (winmeteo_process cfg) false;
                        EvPopen (winmeteo_path cfg) (winmeteo_dir cfg)])).
Proof.
  intros H. unfold main. rewrite startup_run.
  now rewrite start_winmeteo_absent by assumption.
Qed.

(** ** start_winmeteo_if_not_running *)

(** X5.  When [start_winmeteo_if_not_running] returns for the executable
    [main] supervises, a process of that name is listed; a second call right
    after it finds the process and launches nothing, whether or not a launch
    would work. *)
Theorem start_winmeteo_idempotent (launched again : bool) (w : world) :
  let name := winmeteo_process cfg in
  let start b := start_winmeteo_if_not_running b name (winmeteo_path cfg)
                   (winmeteo_dir cfg) in
  fst (start launched w) = Ok tt ->
  let w1 := snd (start launched w) in
  listed_at name (clock w1) (procs w1) = true
  /\ start again w1 =
     (Ok tt, mkWorld (clock w1) (procs w1) (sink w1)
                     (trace w1 ++ [EvStart name; EvEnum name true])).
Proof.
  cbn zeta. intros Hok. cbn beta in Hok |- *.
  assert (listed_at (winmeteo_process cfg)
            (clock (snd (start_winmeteo_if_not_running launched
                           (winmeteo_process cfg) (winmeteo_path cfg)
                           (winmeteo_dir cfg) w)))
            (procs (snd (start_winmeteo_if_not_running launched
                           (winmeteo_process cfg) (winmeteo_path cfg)
                           (winmeteo_dir cfg) w))) = true) as Hl.
  { destruct (listed_at (winmeteo_process cfg) (clock w) (procs w)) eqn:F.
    - rewrite start_winmeteo_running by exact F. exact F.
    - rewrite start_winmeteo_absent in * by exact F.
      destruct launched; [|discriminate Hok]. cbn [snd clock procs].
      apply listed_at_spawned. }
  split; [exact Hl|].
  rewrite start_winmeteo_running by exact Hl. unfold log. cbn.
  now rewrite <- app_assoc.
Qed.

(** ** write_to_influxdb: what a point holds *)

Lemma map_column_translation (key name : string) :
  map_column key = Mapped name -> In (key, name) translation.
Proof.
  intros H. destruct (is_known key) eqn:K.
  - apply is_known_In in K.
    unfold known_columns, system_columns, unused_columns, translation in K.
    cbn in K. unfold translation.
    repeat (destruct K as [<- | K];
            [cbn in H;
             first [discriminate H | injection H as <-; cbn; auto 20] |]).
    contradiction.
  - rewrite (map_column_unknown key K) in H. discriminate.
Qed.

(** No two columns are translated to the same field name. *)
Lemma translation_injective (key key' name : string) :
  In (key, name) translation -> In (key', name) translation -> key = key'.
Proof.
  unfold translation. cbn. intros H H'.
  repeat (destruct H as [H | H];
          [repeat (destruct H' as [H' | H']; [congruence |]); contradiction |]).
  contradiction.
Qed.

Lemma dict_set_In {V} (k : string) (v : V) (d : list (string * V))
    (n : string) (x : V) :
  In (n, x) (dict_set k v d) -> (n = k /\ x = v) \/ In (n, x) d.
Proof.
  induction d as [|[k' v'] d IH]; cbn.
  - intros [[= <- <-] | []]. auto.
  - destruct (String.eqb_spec k' k) as [-> | Hne]; cbn.
    + intros [[= <- <-] | H]; auto.
    + intros [H | H]; [auto | destruct (IH H); auto].
Qed.

Lemma dict_set_has {V} (k : string) (v : V) (d : list (string * V)) :
  In (k, v) (dict_set k v d).
Proof.
  induction d as [|[k' v'] d IH]; cbn; [auto|].
  destruct (String.eqb_spec k' k) as [-> | Hne]; cbn; auto.
Qed.

Lemma dict_set_keeps {V} (k : string) (v : V) (d : list (string * V))
    (n : string) (x : V) :
  In (n, x) d -> n <> k -> In (n, x) (dict_set k v d).
Proof.
  induction d as [|[k' v'] d IH]; cbn; [tauto|].
  intros [[= -> ->] | H] Hne.
  - destruct (String.eqb_spec n k); [contradiction | now left].
  - destruct (String.eqb_spec k' k); cbn; auto.
Qed.

Lemma dict_set_keys {V} (k : string) (v : V) (d : list (string * V))
    (n : string) :
  In n (map fst (dict_set k v d)) <-> n = k \/ In n (map fst d).
Proof.
  induction d as [|[k' v'] d IH]; cbn.
  - intuition.
  - destruct (String.eqb_spec k' k) as [-> | Hne]; cbn; intuition.
Qed.

Lemma dict_set_NoDup {V} (k : string) (v : V) (d : list (string * V)) :
  NoDup (map fst d) -> NoDup (map fst (dict_set k v d)).
Proof.
  induction d as [|[k' v'] d IH]; cbn; intros H.
  - constructor; [tauto | constructor].
  - inversion H as [|? ? Hin Hd]; subst.
    destruct (String.eqb_spec k' k) as [-> | Hne]; cbn.
    + now constructor.
    + constructor; [|auto]. rewrite dict_set_keys. intuition.
Qed.

(** What the loop over the cells of a row adds to a point: the fields are
    those the point had, but for the names the row sets, and for each cell of
    a translated column, in the order of the row, its number under the name
    of the translation. *)
Lemma fields_loop_fields (items : row) (p q : point) (w w' : world) :
  fields_loop items p w = (Ok q, w') ->
  p_measurement q = p_measurement p /\ p_time q = p_time p
  /\ (NoDup (map fst (p_fields p)) -> NoDup (map fst (p_fields q)))
  /\ (forall name x,
        In (name, x) (p_fields q) ->
        In (name, x) (p_fields p)
        \/ exists key v, In (key, v) items /\ map_column key = Mapped name
                         /\ py_float v = Ok x)
  /\ (forall name x, In (name, x) (p_fields p) ->
                     exists y, In (name, y) (p_fields q))
  /\ (forall key v name,
        In (key, v) items -> map_column key = Mapped name ->
        exists y, In (name, y) (p_fields q)).
Proof.
  revert p w. induction items as [|[key v] rest IH]; intros p w.
  - cbn. intros [= <- _]. repeat split; auto.
    + intros name x Hin. eauto.
    + intros key v name [].
  - rewrite fields_loop_step. destruct (map_column key) as [|name0|] eqn:Col.
    + intros E. destruct (IH _ _ E) as [Hm [Ht [Hd [Hs [Hk Hc]]]]].
      repeat split; auto.
      * intros name x Hin. destruct (Hs name x Hin) as [|[k [u [Hi Hr]]]];
          [auto | right; exists k, u; split; [now right | exact Hr]].
      * intros k u name [[= <- <-] | Hin] Hmap; [congruence | eauto].
    + destruct (py_float v) as [x0|e] eqn:Fl; [|discriminate].
      intros E. destruct (IH _ _ E) as [Hm [Ht [Hd [Hs [Hk Hc]]]]].
      cbn [point_field p_measurement p_time p_fields] in *.
      repeat split; auto.
      * intros Hp. apply Hd. now apply dict_set_NoDup.
      * intros name x Hin. destruct (Hs name x Hin) as [Hin'|[k [u [Hi Hr]]]].
        -- apply dict_set_In in Hin' as [[-> ->] | Hin']; [|auto].
           right. exists key, v. split; [now left | auto].
        -- right. exists k, u. split; [now right | exact Hr].
      * intros name x Hin. destruct (String.eqb_spec name name0) as [-> | Hne].
        -- apply (Hk name0 x0). apply dict_set_has.
        -- apply (Hk name x). now apply dict_set_keeps.
      * intros k u name [[= <- <-] | Hin] Hmap; [|eauto].
        assert (name = name0) as -> by congruence.
        apply (Hk name0 x0). apply dict_set_has.
    + intros E. destruct (IH _ _ E) as [Hm [Ht [Hd [Hs [Hk Hc]]]]].
      repeat split; auto.
      * intros name x Hin. destruct (Hs name x Hin) as [|[k [u [Hi Hr]]]];
          [auto | right; exists k, u; split; [now right | exact Hr]].
      * intros k u name [[= <- <-] | Hin] Hmap; [congruence | eauto].
Qed.

Lemma NoDup_keys_value {V} (d : list (string * V)) (k : string) (v v' : V) :
  NoDup (map fst d) -> In (k, v) d -> In (k, v') d -> v = v'.
Proof.
  induction d as [|[k0 v0] d IH]; cbn; [tauto|].
  intros H. inversion H as [|? ? Hin Hd]; subst.
  intros [E1 | H1] [E2 | H2].
  - congruence.
  - exfalso. apply Hin. injection E1 as -> _.
    now apply (in_map fst _ (k, v')).
  - exfalso. apply Hin. injection E2 as -> _.
    now apply (in_map fst _ (k, v)).
  - now apply IH.
Qed.

Lemma make_point_rendered (r : row) (p : point) (w w' : world) :
  NoDup (map fst r) ->
  make_point cfg r w = (Ok p, w') ->
  rendered cfg r p.
Proof.
  intros Hr. rewrite make_point_run.
  destruct (fields_loop r (Point (influxdb_measurement cfg)) w)
    as [[q|e] w1] eqn:E; [|discriminate].
  destruct (row_time r) as [t|e] eqn:T; [|discriminate].
  intros [= <- _].
  destruct (fields_loop_fields _ _ _ _ _ E) as [Hm [_ [Hd [Hs [_ Hc]]]]].
  cbn [Point point_time p_measurement p_time p_fields] in *.
  split; [exact Hm|]. split; [now exists t|].
  split; [apply Hd; constructor|].
  intros name x. split.
  - intros Hin. destruct (Hs name x Hin) as [[] | H]. exact H.
  - intros [key [v [Hin [Hmap Hfl]]]].
    destruct (Hc key v name Hin Hmap) as [y Hy].
    destruct (Hs name y Hy) as [[] | [key' [v' [Hin' [Hmap' Hfl']]]]].
    assert (key' = key) as ->
      by (eapply translation_injective; eapply map_column_translation;
          eassumption).
    assert (v' = v) as -> by (eapply NoDup_keys_value; eassumption).
    assert (y = x) as -> by congruence. exact Hy.
Qed.

Lemma points_loop_rendered (data : list row) (points pts : list point)
    (w w' : world) :
  Forall (fun r => NoDup (map fst r)) data ->
  points_loop cfg data points w = (Ok pts, w') ->
  exists new, pts = points ++ new /\ Forall2 (rendered cfg) data new.
Proof.
  revert points w. induction data as [|r rest IH]; intros points w Hd.
  - cbn. intros [= <- _]. exists []. now rewrite app_nil_r.
  - rewrite points_loop_step. inversion Hd as [|? ? Hr Hrest]; subst.
    destruct (make_point cfg r w) as [[p|e] w1] eqn:E; [|discriminate].
    intros E'. destruct (IH _ _ Hrest E') as [new [-> Hall]].
    exists (p :: new). rewrite <- app_assoc. split; [reflexivity|].
    constructor; [|exact Hall]. eapply make_point_rendered; eassumption.
Qed.

(** X9.  When [write_to_influxdb] returns for rows that name each column
    once, the sink has received one batch more, with one point per row in the
    order of the rows.  The point of a row carries the configured
    measurement, the row's time stamp converted to UTC and, each name once,
    exactly the cells of the row's translated columns, converted with
    [float], under the field names of the translation. *)
Theorem write_to_influxdb_points (accepted : bool) (data : list row)
    (w : world) :
  Forall (fun r => NoDup (map fst r)) data ->
  fst (write_to_influxdb cfg accepted data w) = Ok tt ->
  exists pts,
    sink (snd (write_to_influxdb cfg accepted data w)) = sink w ++ [pts]
    /\ Forall2 (rendered cfg) data pts.
Proof.
  intros Hd. rewrite write_to_influxdb_run.
  destruct (points_loop cfg data [] w) as [[pts|e] w1] eqn:E;
    [|discriminate].
  destruct accepted; [|discriminate]. intros _.
  destruct (points_loop_rendered _ _ _ _ _ Hd E) as [new [-> Hall]].
  exists new. cbn [snd sink app]. split; [|exact Hall].
  destruct (points_loop_logs cfg data [] w) as [_ [_ [Hs _]]].
  rewrite E in Hs. cbn [snd] in Hs. now rewrite Hs.
Qed.

(** ** One turn of the main loop, in general *)

Lemma kill_result_cases (tk : taskkill_result) (name : string) (limit : Z)
    (w : world) :
  kill_result tk name limit w = Ok tt
  \/ kill_result tk name limit w = Raise OSError.
Proof.
  unfold kill_result. destruct (listed_at name (clock w) (procs w)); auto.
  destruct tk; auto. destruct (outlives_wait _ _ _ _); auto.
Qed.

(** [kill_winmeteo] takes no longer than its patience. *)
Lemma kill_winmeteo_clock (tk : taskkill_result) (name : string) (limit : Z)
    (w : world) :
  clock w <= clock (snd (kill_winmeteo tk name limit w))
          <= clock w + patience limit.
Proof.
  assert (0 <= patience limit) as Hp by (unfold patience; lia).
  destruct (listed_at name (clock w) (procs w)) eqn:Now.
  - destruct tk as [g| |].
    + destruct (kill_winmeteo_accepted g name limit w Now)
        as [n [found [E [Hn _]]]].
      rewrite E. cbn [snd clock]. lia.
    + rewrite kill_winmeteo_exit by assumption. cbn. lia.
    + rewrite kill_winmeteo_not_launched by assumption. cbn. lia.
  - rewrite kill_winmeteo_not_running by assumption. cbn. lia.
Qed.

(** The restart step, by cases: below the threshold nothing happens; at or
    above it [kill_winmeteo] is called, and [start_winmeteo_if_not_running]
    after it when it returns; the variables are assigned only when both
    return. *)
Lemma restart_if_stalled_outcome (max_zeros : Z) (a : answers) (s : state) :
  let r := fst (restart_if_stalled cfg max_zeros a s) in
  let s' := snd (restart_if_stalled cfg max_zeros a s) in
  let K := EvKill (winmeteo_process cfg) (wait_for_kill cfg) in
  let S := EvStart (winmeteo_process cfg) in
  clock (os s) <= clock (os s')
               <= clock (os s) + patience (wait_for_kill cfg)
  /\ exists calls,
       supervisor_calls (trace (os s')) =
       supervisor_calls (trace (os s)) ++ calls
       /\ ((calls = [] /\ r = Ok tt /\ s' = s /\ zeros (vars s) < max_zeros)
           \/ (max_zeros <= zeros (vars s)
               /\ ((calls = [K] \/ calls = [K; S])
                   /\ r = Raise OSError /\ vars s' = vars s
                   \/ calls = [K; S] /\ r = Ok tt
                      /\ vars s' =
                         set_zeros 0
                           (set_last_restart (clock (os s'))
                              (set_restarts (restarts (vars s) + 1)
                                            (vars s)))))).
Proof.
  cbn zeta. assert (0 <= patience (wait_for_kill cfg)) as Hp
    by (unfold patience; lia).
  rewrite restart_if_stalled_run.
  destruct (Z.geb_spec (zeros (vars s)) max_zeros) as [Hz | Hz].
  2:{ cbn [fst snd]. split; [lia|]. exists []. rewrite app_nil_r.
      split; [reflexivity|]. left. auto. }
  pose proof (kill_winmeteo_frame (taskkill_does a) (winmeteo_process cfg)
                (wait_for_kill cfg) (os s)) as [Hr [_ [d1 [Ht1 [Hq1 _]]]]].
  pose proof (kill_winmeteo_clock (taskkill_does a) (winmeteo_process cfg)
                (wait_for_kill cfg) (os s)) as Hc1.
  pose proof (kill_result_cases (taskkill_does a) (winmeteo_process cfg)
                (wait_for_kill cfg) (os s)) as Hk.
  rewrite <- Hr in Hk. clear Hr.
  destruct (kill_winmeteo _ _ _ (os s)) as [[u|e] w1]; cbn [fst snd] in *.
  - pose proof (start_winmeteo_run (popen_launches a) (winmeteo_process cfg)
                  (winmeteo_path cfg) (winmeteo_dir cfg) w1) as Hs.
    cbn zeta in Hs.
    destruct (start_winmeteo_if_not_running _ _ _ _ w1) as [[u'|e] w2];
      injection Hs as Hres Hw2; subst w2; cbn [fst snd os vars clock trace];
      (split; [lia|]);
      exists [EvKill (winmeteo_process cfg) (wait_for_kill cfg);
              EvStart (winmeteo_process cfg)];
      (split;
       [rewrite Ht1; unfold supervisor_calls in *;
        rewrite !filter_app; cbn [filter is_supervisor_call app];
        rewrite Hq1;
        destruct (listed_at (winmeteo_process cfg) (clock w1) (procs w1));
        cbn; now rewrite <- ?app_assoc, ?app_nil_r
       |]); right; (split; [lia|]).
    + right. destruct u'. auto.
    + left. split; [auto|]. split; [|reflexivity].
      destruct (listed_at _ _ _ || popen_launches a); congruence.
  - cbn [os vars]. split; [lia|].
    exists [EvKill (winmeteo_process cfg) (wait_for_kill cfg)].
    split.
    + rewrite Ht1. unfold supervisor_calls in *.
      rewrite !filter_app. cbn [filter is_supervisor_call].
      now rewrite Hq1.
    + right. split; [lia|]. left. split; [auto|].
      destruct Hk as [Hk | Hk]; [discriminate | auto].
Qed.

Lemma new_rows_loop_raise (table : list row) (watermark : datetime)
    (acc : list row) (e : exn) :
  new_rows_loop table watermark acc = Raise e ->
  exists r, In r table /\ row_time r = Raise e.
Proof.
  revert acc. induction table as [|r table IH]; intros acc; cbn;
    [discriminate|].
  destruct (row_time r) as [t|e0] eqn:T.
  - destruct (watermark <? t); intros H; destruct (IH _ H) as [r0 [Hin Hr]];
      eauto.
  - intros [= ->]. eauto.
Qed.

Lemma map_res_raise {A B} (f : A -> res B) (xs : list A) (e : exn) :
  map_res f xs = Raise e -> exists x, In x xs /\ f x = Raise e.
Proof.
  induction xs as [|x xs IH]; cbn; [discriminate|].
  destruct (f x) as [y|e0] eqn:F.
  - destruct (map_res f xs) as [ys|e1]; [discriminate|].
    intros [= ->]. destruct (IH eq_refl) as [x0 [Hin Hx]]. eauto.
  - intros [= ->]. eauto.
Qed.

Lemma max_row_time_python (rows : list row) :
  forallb runtime_answers_row rows = true ->
  max_row_time rows <> Raise Unfinished.
Proof.
  intros H. unfold max_row_time.
  destruct (map_res row_time rows) as [ts|e] eqn:E.
  - destruct ts; discriminate.
  - intros [= ->]. destruct (map_res_raise _ _ _ E) as [r [Hin Hr]].
    rewrite forallb_forall in H. specialize (H r Hin).
    unfold runtime_answers_row in H. rewrite Hr in H. discriminate.
Qed.

(** The poll and the write end with a Python exception or not at all. *)
Lemma poll_and_write_python (a : answers) (s : state) :
  runtime_answers a = true ->
  fst (poll_and_write cfg a s) <> Raise Unfinished.
Proof.
  unfold runtime_answers. intros H. rewrite poll_and_write_run. cbn zeta.
  destruct (dbf_file a) as [table|]; [|cbn; discriminate].
  destruct (new_rows_loop table (last_timestamp (vars s)) [])
    as [[|r rows]|e] eqn:E.
  - cbn. discriminate.
  - apply new_rows_loop_inv in E as [_ Hrows].
    assert (forallb runtime_answers_row (r :: rows) = true) as Hr
      by (rewrite Hrows; now apply forallb_filter).
    pose proof (write_to_influxdb_python cfg (write_accepted a) (r :: rows)
                  (log (EvLoad (dbf_path cfg)) (os s)) Hr) as Hw.
    destruct (write_to_influxdb cfg _ (r :: rows) _) as [[u|e] w2];
      cbn [fst] in *; [|intros [= ->]; now apply Hw].
    pose proof (max_row_time_python (r :: rows) Hr) as Hm.
    destruct (max_row_time (r :: rows)); cbn [fst];
      [discriminate | intros [= ->]; now apply Hm].
  - cbn [fst]. intros [= ->].
    destruct (new_rows_loop_raise _ _ _ _ E) as [r [Hin Hr]].
    rewrite forallb_forall in H. specialize (H r Hin).
    unfold runtime_answers_row in H. rewrite Hr in H. discriminate.
Qed.

(** The [try] block of a turn: how far the clock moves, and that it ends. *)
Lemma iteration_body_clock (max_zeros : Z) (a : answers) (s : state) :
  let s1 := snd (iteration_body cfg max_zeros a s) in
  clock (os s) <= clock (os s1)
               <= clock (os s) + patience (wait_for_kill cfg).
Proof.
  cbn zeta. assert (0 <= patience (wait_for_kill cfg)) as Hp
    by (unfold patience; lia).
  rewrite iteration_body_run.
  pose proof (poll_and_write_outcome cfg a
                (mkState (set_iterations (iterations (vars s) + 1) (vars s))
                         (os s))) as [Hc _].
  destruct (poll_and_write cfg a _) as [[u|e] s1]; cbn [fst snd vars os] in *.
  - pose proof (restart_if_stalled_outcome max_zeros a s1) as [Hc' _]. lia.
  - lia.
Qed.

Lemma iteration_body_python (max_zeros : Z) (a : answers) (s : state) :
  runtime_answers a = true ->
  fst (iteration_body cfg max_zeros a s) <> Raise Unfinished.
Proof.
  intros H. rewrite iteration_body_run.
  pose proof (poll_and_write_python a
                (mkState (set_iterations (iterations (vars s) + 1) (vars s))
                         (os s)) H) as Hp.
  destruct (poll_and_write cfg a _) as [[u|e] s1]; cbn [fst] in *;
    [|intros [= ->]; now apply Hp].
  pose proof (restart_if_stalled_outcome max_zeros a s1)
    as [_ [calls [_ Hcases]]].
  cbn zeta in Hcases.
  destruct Hcases as [[_ [-> _]] | [_ [[_ [-> _]] | [_ [-> _]]]]];
    discriminate.
Qed.

(** A turn with pauses that are not negative ends, after at least the
    shorter and at most the longer pause and the patience of
    [kill_winmeteo]. *)
Lemma iteration_returns (max_zeros : Z) (a : answers) (s : state) :
  runtime_answers a = true ->
  0 <= timer cfg -> 0 <= error_timer cfg ->
  let s' := snd (iteration cfg max_zeros a s) in
  fst (iteration cfg max_zeros a s) = Ok tt
  /\ clock (os s) + Z.min (timer cfg) (error_timer cfg) <= clock (os s')
  /\ clock (os s') <= clock (os s) + Z.max (timer cfg) (error_timer cfg)
                       + patience (wait_for_kill cfg).
Proof.
  intros Ha Ht He. cbn zeta. rewrite iteration_run.
  pose proof (iteration_body_python max_zeros a s Ha) as Hp.
  pose proof (iteration_body_clock max_zeros a s) as Hc. cbn zeta in Hc.
  destruct (Z.ltb_spec (timer cfg) 0); [lia|].
  destruct (Z.ltb_spec (error_timer cfg) 0); [lia|].
  destruct (iteration_body cfg max_zeros a s) as [[u|e] s1];
    cbn [fst snd] in *.
  - cbn [fst snd os clock]. split; [reflexivity | lia].
  - destruct e; try contradiction; cbn [fst snd os clock];
      (split; [reflexivity | lia]).
Qed.

(** What a turn does to the counters. *)
Lemma iteration_counters (max_zeros : Z) (a : answers) (s : state) :
  let s' := snd (iteration cfg max_zeros a s) in
  iterations (vars s') = iterations (vars s) + 1
  /\ (restarts (vars s') = restarts (vars s)
      /\ last_restart (vars s') = last_restart (vars s)
      \/ restarts (vars s') = restarts (vars s) + 1
         /\ zeros (vars s') = 0
         /\ clock (os s) <= last_restart (vars s')).
Proof.
  cbn zeta. destruct (iteration_frame cfg max_zeros a s) as [-> _].
  rewrite iteration_body_run.
  pose proof (poll_and_write_outcome cfg a
                (mkState (set_iterations (iterations (vars s) + 1) (vars s))
                         (os s))) as [Hc [_ [Hi [Hr [Hl _]]]]].
  destruct (poll_and_write cfg a _) as [[u|e] s1]; cbn [fst snd vars os] in *.
  - pose proof (restart_if_stalled_outcome max_zeros a s1)
      as [Hc' [calls [_ Hcases]]].
    cbn zeta in Hcases. cbn in Hi, Hr, Hl.
    destruct Hcases as [[_ [_ [-> _]]] | [_ [[_ [_ ->]] | [_ [_ ->]]]]];
      cbn [vars set_zeros set_last_restart set_restarts restarts
           last_restart iterations zeros];
      try (split; [lia | left; lia]).
    split; [lia|]. right. repeat split; lia.
  - cbn in Hi, Hr, Hl. split; [lia | left; lia].
Qed.

(** X10.  Over a run of the main loop on files the runtime answers, with
    pauses that are not negative, [iterations] counts every turn, also those
    that ended in the handler; [restarts] never goes down and grows by at
    most one per turn; with no restart counted the time of the last restart
    is the one the run began with. *)
Theorem main_loop_counts (max_zeros : Z) (script : list answers) (s : state) :
  forallb runtime_answers script = true ->
  0 <= timer cfg -> 0 <= error_timer cfg ->
  let s' := snd (main_loop cfg max_zeros script s) in
  iterations (vars s') = iterations (vars s) + Z.of_nat (List.length script)
  /\ restarts (vars s) <= restarts (vars s')
                       <= restarts (vars s) + Z.of_nat (List.length script)
  /\ (restarts (vars s') = restarts (vars s) ->
      last_restart (vars s') = last_restart (vars s)).
Proof.
  intros Ha Ht He. cbn zeta. revert s.
  induction script as [|a rest IH]; intros s.
  - cbn. repeat split; lia.
  - cbn [forallb] in Ha. apply andb_prop in Ha as [Ha Hrest].
    rewrite main_loop_step.
    pose proof (iteration_returns max_zeros a s Ha Ht He) as [Hok _].
    pose proof (iteration_counters max_zeros a s) as [Hi Hr].
    destruct (iteration cfg max_zeros a s) as [[u|e] s1]; cbn [fst snd] in *;
      [|discriminate].
    destruct (IH Hrest s1) as [Hi' [Hr' Hl']].
    change (List.length (a :: rest)) with (S (List.length rest)).
    rewrite Nat2Z.inj_succ.
    split; [lia|]. split; [lia|]. intros Heq. rewrite Hl' by lia. lia.
Qed.

(** X11.  On files the runtime answers and with pauses that are not
    negative, no exception leaves the main loop: every turn ends, whatever
    the file holds and whatever the sink, [taskkill] and the launch do.  A
    turn lasts at least the shorter of [timer] and [error_timer], so the
    loop never spins, and at most the longer of them and the patience of
    [kill_winmeteo]. *)
Theorem main_loop_never_stops (max_zeros : Z) (script : list answers)
    (s : state) :
  forallb runtime_answers script = true ->
  0 <= timer cfg -> 0 <= error_timer cfg ->
  let s' := snd (main_loop cfg max_zeros script s) in
  let turns := Z.of_nat (List.length script) in
  fst (main_loop cfg max_zeros script s) = Ok tt
  /\ clock (os s) + turns * Z.min (timer cfg) (error_timer cfg)
     <= clock (os s')
  /\ clock (os s')
     <= clock (os s)
        + turns * (Z.max (timer cfg) (error_timer cfg)
                   + patience (wait_for_kill cfg)).
Proof.
  intros Ha Ht He. cbn zeta. revert s.
  induction script as [|a rest IH]; intros s.
  - cbn. repeat split; lia.
  - cbn [forallb] in Ha. apply andb_prop in Ha as [Ha Hrest].
    rewrite main_loop_step.
    pose proof (iteration_returns max_zeros a s Ha Ht He) as [Hok [Hlo Hhi]].
    destruct (iteration cfg max_zeros a s) as [[u|e] s1]; cbn [fst snd] in *;
      [|discriminate].
    destruct (IH Hrest s1) as [Hok' [Hlo' Hhi']].
    change (List.length (a :: rest)) with (S (List.length rest)).
    rewrite Nat2Z.inj_succ.
    split; [exact Hok'|]. split; nia.
Qed.

(** What a turn hands to the sink: nothing, or one batch that is not
    empty, and that only when the sink accepts it. *)
Lemma iteration_batch (max_zeros : Z) (a : answers) (s : state) :
  let s' := snd (iteration cfg max_zeros a s) in
  sink (os s') = sink (os s)
  \/ exists pts, sink (os s') = sink (os s) ++ [pts]
                 /\ pts <> [] /\ write_accepted a = true.
Proof.
  cbn zeta. destruct (iteration_frame cfg max_zeros a s) as [_ ->].
  rewrite iteration_body_run, poll_and_write_run. cbn zeta.
  cbn [vars os set_iterations last_timestamp].
  destruct (match dbf_file a with
            | None => Raise SourceError
            | Some table => new_rows_loop table (last_timestamp (vars s)) []
            end) as [[|r rows]|e].
  - left.
    match goal with
    | |- context [restart_if_stalled cfg max_zeros a ?st] =>
        destruct (restart_if_stalled_frame cfg max_zeros a st)
          as [_ [_ [-> _]]]
    end.
    reflexivity.
  - pose proof (write_to_influxdb_outcome cfg (write_accepted a) (r :: rows)
                  (log (EvLoad (dbf_path cfg)) (os s))) as Hout.
    cbn zeta in Hout.
    destruct (write_to_influxdb cfg _ (r :: rows) _) as [[u|e] w2];
      cbn [fst snd] in Hout; destruct Hout as [_ [_ [_ Hsink]]].
    + destruct Hsink as [[_ [Hacc [pts [Hs Hlen]]]] | [[e He] _]];
        [|discriminate].
      assert (pts <> []) as Hne by (intros ->; discriminate Hlen).
      destruct (max_row_time (r :: rows)); cbn [fst snd vars os].
      * match goal with
        | |- context [restart_if_stalled cfg max_zeros a ?st] =>
            destruct (restart_if_stalled_frame cfg max_zeros a st)
              as [_ [_ [-> _]]]
        end.
        right. exists pts. auto.
      * right. exists pts. auto.
    + destruct Hsink as [[He _] | [_ Hs]]; [discriminate|]. left. exact Hs.
  - left. reflexivity.
Qed.

(** X12.  The main loop only ever appends to the sink: after any run the
    sink is what it was, followed by the batches of the run.  No batch is
    empty, and there are no more batches than turns in which the sink
    accepted a write. *)
Theorem main_loop_sink_grows (max_zeros : Z) (script : list answers)
    (s : state) :
  exists batches,
    sink (os (snd (main_loop cfg max_zeros script s))) =
    sink (os s) ++ batches
    /\ Forall (fun batch => batch <> []) batches
    /\ (List.length batches <=
        List.length (filter write_accepted script))%nat.
Proof.
  revert s. induction script as [|a rest IH]; intros s.
  - exists []. cbn. rewrite app_nil_r. auto.
  - rewrite main_loop_step.
    pose proof (iteration_batch max_zeros a s) as Hb. cbn zeta in Hb.
    destruct (iteration cfg max_zeros a s) as [[u|e] s1]; cbn [fst snd] in *.
    + destruct (IH s1) as [batches [Hs [Hne Hlen]]].
      destruct Hb as [Hb | [pts [Hb [Hp Hacc]]]].
      * exists batches. rewrite Hs, Hb. split; [reflexivity|].
        split; [exact Hne|]. cbn [filter].
        destruct (write_accepted a); cbn [List.length]; lia.
      * exists (pts :: batches). rewrite Hs, Hb, <- app_assoc.
        split; [reflexivity|]. split; [now constructor|].
        cbn [filter]. rewrite Hacc. cbn [List.length]. lia.
    + destruct Hb as [Hb | [pts [Hb [Hp Hacc]]]].
      * exists []. rewrite Hb, app_nil_r. split; [reflexivity|].
        split; [constructor | cbn; lia].
      * exists [pts]. rewrite Hb. split; [reflexivity|].
        split; [now constructor|]. cbn [filter]. rewrite Hacc.
        cbn [List.length]. lia.
Qed.

(** ** The supervisor calls of the loop *)

(** The sleep and the [ERROR] line that end a turn are no supervisor
    calls. *)
Lemma iteration_calls (max_zeros : Z) (a : answers) (s : state) :
  supervisor_calls (trace (os (snd (iteration cfg max_zeros a s)))) =
  supervisor_calls (trace (os (snd (iteration_body cfg max_zeros a s)))).
Proof.
  rewrite iteration_run.
  destruct (iteration_body cfg max_zeros a s) as [[u|e] s1]; cbn [fst snd].
  - destruct (timer cfg <? 0); cbn [snd os trace]; [reflexivity|].
    unfold supervisor_calls. rewrite filter_app. cbn. now rewrite app_nil_r.
  - assert (supervisor_calls
              (trace (os (snd (if error_timer cfg <? 0
                  then (@Raise unit ValueError,
                        mkState (vars s1) (log (EvError e) (os s1)))
                  else (Ok tt,
                        mkState (vars s1)
                          (mkWorld (clock (os s1) + error_timer cfg)
                             (procs (os s1)) (sink (os s1))
                             (trace (os s1)
                                ++ [EvError e;
                                    EvSleep (error_timer cfg)])))))))
            = supervisor_calls (trace (os s1))) as Hh.
    { destruct (error_timer cfg <? 0); cbn [snd os trace log];
        unfold supervisor_calls; rewrite filter_app; cbn;
        now rewrite app_nil_r. }
    destruct e; try exact Hh. reflexivity.
Qed.

(** The supervisor calls of one turn: none, or [kill_winmeteo] alone, or
    [kill_winmeteo] and then [start_winmeteo_if_not_running]; a restart is
    counted only in a turn that called both. *)
Lemma iteration_supervisor_calls (max_zeros : Z) (a : answers) (s : state) :
  let s' := snd (iteration cfg max_zeros a s) in
  let K := EvKill (winmeteo_process cfg) (wait_for_kill cfg) in
  let S := EvStart (winmeteo_process cfg) in
  exists calls,
    supervisor_calls (trace (os s')) = supervisor_calls (trace (os s)) ++ calls
    /\ ((calls = [] \/ calls = [K])
        /\ restarts (vars s') = restarts (vars s)
        \/ calls = [K; S]
           /\ restarts (vars s) <= restarts (vars s') <= restarts (vars s) + 1).
Proof.
  cbn zeta. rewrite iteration_calls.
  destruct (iteration_frame cfg max_zeros a s) as [-> _].
  rewrite iteration_body_run.
  pose proof (poll_and_write_outcome cfg a
                (mkState (set_iterations (iterations (vars s) + 1) (vars s))
                         (os s))) as [_ [_ [_ [Hr [_ [Hq _]]]]]].
  destruct (poll_and_write cfg a _) as [[u|e] s1]; cbn [fst snd vars os] in *.
  - pose proof (restart_if_stalled_outcome max_zeros a s1)
      as [_ [calls [Hcalls Hcases]]].
    cbn zeta in Hcases. cbn in Hr. exists calls. rewrite Hcalls, Hq.
    split; [reflexivity|].
    destruct Hcases
      as [[-> [_ [-> _]]] | [_ [[[-> | ->] [_ ->]] | [-> [_ ->]]]]];
      cbn [vars set_zeros set_last_restart set_restarts restarts];
      first [ solve [left; split; [auto | lia]]
            | solve [right; split; [auto | lia]] ].
  - exists []. rewrite app_nil_r, Hq. cbn in Hr. auto.
Qed.

(** X13.  The supervisor calls of a run of the main loop come in groups,
    at most one per turn: [kill_winmeteo], or [kill_winmeteo] and then
    [start_winmeteo_if_not_running].  So the loop never launches WinMeteo
    but right after a call of [kill_winmeteo] that returned, and [restarts]
    grows by no more than the number of such launches. *)
Theorem launches_follow_kills (max_zeros : Z) (script : list answers)
    (s : state) :
  let s' := snd (main_loop cfg max_zeros script s) in
  let K := EvKill (winmeteo_process cfg) (wait_for_kill cfg) in
  let S := EvStart (winmeteo_process cfg) in
  exists groups,
    supervisor_calls (trace (os s')) =
    supervisor_calls (trace (os s)) ++ List.concat groups
    /\ Forall (fun g => g = [K] \/ g = [K; S]) groups
    /\ (List.length groups <= List.length script)%nat
    /\ restarts (vars s) <= restarts (vars s')
       <= restarts (vars s)
          + Z.of_nat (List.length (filter is_start (List.concat groups))).
Proof.
  cbn zeta. revert s. induction script as [|a rest IH]; intros s.
  - exists []. cbn. rewrite app_nil_r. repeat split; auto; lia.
  - rewrite main_loop_step.
    pose proof (iteration_supervisor_calls max_zeros a s)
      as [calls [Hcalls Hcases]].
    cbn zeta in Hcases.
    destruct (iteration cfg max_zeros a s) as [[u|e] s1]; cbn [fst snd] in *.
    + destruct (IH s1) as [groups [Hg [Hall [Hlen Hr]]]].
      rewrite Hg, Hcalls, <- app_assoc.
      destruct Hcases as [[[-> | ->] Hr1] | [-> Hr1]].
      * exists groups. cbn [app List.length]. repeat split; auto; lia.
      * eexists (_ :: groups). cbn [List.concat].
        split; [reflexivity|]. split; [constructor; auto|].
        cbn [List.length app filter is_start]. repeat split; lia.
      * eexists (_ :: groups). cbn [List.concat].
        split; [reflexivity|]. split; [constructor; auto|].
        cbn [List.length app filter is_start]. repeat split; lia.
    + rewrite Hcalls.
      destruct Hcases as [[[-> | ->] Hr1] | [-> Hr1]].
      * exists []. cbn. repeat split; auto; lia.
      * eexists [_]. cbn [List.concat]. rewrite app_nil_r.
        split; [reflexivity|]. split; [constructor; auto|].
        cbn. repeat split; lia.
      * eexists [_]. cbn [List.concat]. rewrite app_nil_r.
        split; [reflexivity|]. split; [constructor; auto|].
        cbn. repeat split; lia.
Qed.

(** ** Polls that fail, and what is retried *)

(** X14.  A turn whose poll cannot be completed, because the DBF file does
    not load or one of its rows has no readable date and time, is no stall:
    the count of empty polls stays as it is, as do the watermark, the
    restart counter, the sink and the processes, and neither supervisor
    function is called.  The turn is counted, reports the error and sleeps
    [error_timer] seconds. *)
Theorem unreadable_source_is_no_stall (max_zeros : Z) (a : answers)
    (s : state) :
  source_unreadable a ->
  runtime_answers a = true ->
  0 <= error_timer cfg ->
  exists e,
    iteration cfg max_zeros a s =
    (Ok tt,
     mkState (set_iterations (iterations (vars s) + 1) (vars s))
             (mkWorld (clock (os s) + error_timer cfg) (procs (os s))
                      (sink (os s))
                      (trace (os s)
                         ++ [EvLoad (dbf_path cfg); EvError e;
                             EvSleep (error_timer cfg)]))).
Proof.
  unfold source_unreadable, runtime_answers. intros Hu Ha He.
  rewrite iteration_run, iteration_body_run, poll_and_write_run. cbn zeta.
  cbn [vars os set_iterations last_timestamp].
  destruct (Z.ltb_spec (error_timer cfg) 0); [lia|].
  assert (exists e,
            match dbf_file a with
            | None => Raise SourceError
            | Some table => new_rows_loop table (last_timestamp (vars s)) []
            end = Raise e /\ e <> Unfinished) as [e [-> Hne]].
  { destruct (dbf_file a) as [table|].
    - destruct (new_rows_loop_raises table (last_timestamp (vars s)) [] Hu)
        as [e E].
      exists e. split; [exact E|]. intros ->.
      destruct (new_rows_loop_raise _ _ _ _ E) as [r [Hin Hr]].
      rewrite forallb_forall in Ha. specialize (Ha r Hin).
      unfold runtime_answers_row in Ha. rewrite Hr in Ha. discriminate.
    - exists SourceError. split; [reflexivity | discriminate]. }
  exists e. destruct e; try contradiction; cbn [vars os log clock procs sink
                                                 trace];
    now rewrite <- app_assoc.
Qed.

Lemma polls_empty_filter (a : answers) (watermark : datetime)
    (table : list row) :
  dbf_file a = Some table ->
  forallb well_formed table = true ->
  filter (newer watermark) table = [] ->
  polls_empty watermark a = true.
Proof.
  intros Hf Hw Hn. unfold polls_empty. rewrite Hf.
  rewrite forallb_forall in *. intros r Hin. rewrite (Hw r Hin). cbn.
  destruct (newer watermark r) eqn:N; [|reflexivity].
  assert (In r (filter (newer watermark) table)) as Hin'
    by (apply filter_In; auto).
  rewrite Hn in Hin'. destruct Hin'.
Qed.

(** A turn whose poll finds nothing leaves the watermark and the sink. *)
Lemma polls_empty_turn (max_zeros : Z) (a : answers) (s : state) :
  polls_empty (last_timestamp (vars s)) a = true ->
  last_timestamp (vars (snd (iteration cfg max_zeros a s))) =
  last_timestamp (vars s)
  /\ sink (os (snd (iteration cfg max_zeros a s))) = sink (os s).
Proof.
  intros He. destruct (iteration_frame cfg max_zeros a s) as [-> ->].
  rewrite iteration_body_run, poll_and_write_empty by exact He.
  match goal with
  | |- context [restart_if_stalled cfg max_zeros a ?st] =>
      destruct (restart_if_stalled_frame cfg max_zeros a st)
        as [-> [_ [-> _]]]
  end.
  auto.
Qed.

(** The poll and the write of a turn end well when the file loads with
    well-formed rows, the cells of the new rows convert and the sink accepts
    the batch. *)
Lemma poll_and_write_completes (a : answers) (s : state) (table : list row) :
  dbf_file a = Some table ->
  forallb well_formed table = true ->
  forallb coercible (filter (newer (last_timestamp (vars s))) table) = true ->
  write_accepted a = true ->
  fst (poll_and_write cfg a s) = Ok tt.
Proof.
  intros Hf Hw Hc Hacc.
  destruct (filter (newer (last_timestamp (vars s))) table) as [|r rows]
    eqn:Rows.
  - rewrite poll_and_write_empty; [reflexivity|].
    now apply (polls_empty_filter a _ table).
  - destruct (poll_and_write_writes cfg a s table (r :: rows))
      as [m [pts [s' [E _]]]]; auto; try discriminate.
    now rewrite E.
Qed.

Lemma filter_kill_calls (tr : list event) :
  filter is_kill tr = filter is_kill (supervisor_calls tr).
Proof.
  unfold supervisor_calls. induction tr as [|e tr IH]; [reflexivity|].
  destruct e; cbn; now rewrite ?IH.
Qed.

(** X15.  With [0 <= kill_timer < timer] the threshold
    [kill_timer // timer] is [0], and then every turn whose poll and write
    end well calls [kill_winmeteo], also a turn that has just written new
    rows. *)
Theorem short_kill_timer_restarts_every_turn (a : answers) (s : state)
    (table : list row) :
  0 <= kill_timer cfg < timer cfg ->
  0 <= zeros (vars s) ->
  dbf_file a = Some table ->
  forallb well_formed table = true ->
  forallb coercible (filter (newer (last_timestamp (vars s))) table) = true ->
  write_accepted a = true ->
  floordiv (kill_timer cfg) (timer cfg) = Ok 0
  /\ filter is_kill (trace (os (snd (iteration cfg 0 a s)))) =
     filter is_kill (trace (os s))
       ++ [EvKill (winmeteo_process cfg) (wait_for_kill cfg)].
Proof.
  intros Hk Hz Hf Hw Hc Hacc. split.
  - unfold floordiv. destruct (Z.eqb_spec (timer cfg) 0); [lia|].
    now rewrite Z.div_small.
  - rewrite (filter_kill_calls (trace (os s))),
      (filter_kill_calls (trace (os (snd (iteration cfg 0 a s))))),
      iteration_calls, iteration_body_run.
    pose proof (poll_and_write_outcome cfg a
                  (mkState (set_iterations (iterations (vars s) + 1) (vars s))
                           (os s))) as [_ [_ [_ [_ [_ [Hq Hcases]]]]]].
    pose proof (poll_and_write_completes a
                  (mkState (set_iterations (iterations (vars s) + 1) (vars s))
                           (os s)) table Hf Hw Hc Hacc) as Hok.
    destruct (poll_and_write cfg a _) as [[u|e] s1];
      cbn [fst snd vars os] in *; [|discriminate].
    assert (0 <= zeros (vars s1)) as Hz1.
    { cbn in Hcases.
      destruct Hcases as [[_ [_ [-> _]]] | [_ [_ [-> | [_ ->]]]]]; lia. }
    pose proof (restart_if_stalled_outcome 0 a s1)
      as [_ [calls [Hcalls Hr]]].
    cbn zeta in Hr. rewrite Hcalls, Hq, filter_app. f_equal.
    destruct Hr as [[_ [_ [_ Hlt]]] | [_ [[[-> | ->] _] | [-> _]]]];
      [lia | reflexivity..].
Qed.

(** X16.  Rows that were written are not sent again: after a turn that
    found the file readable and wrote what was new, the same file holds
    nothing newer than the watermark, and a second turn on it hands nothing
    to the sink. *)
Theorem written_rows_are_not_sent_again (max_zeros : Z) (a a' : answers)
    (s : state) (table : list row) :
  dbf_file a = Some table ->
  dbf_file a' = Some table ->
  forallb well_formed table = true ->
  forallb coercible (filter (newer (last_timestamp (vars s))) table) = true ->
  write_accepted a = true ->
  let s1 := snd (iteration cfg max_zeros a s) in
  polls_empty (last_timestamp (vars s1)) a' = true
  /\ sink (os (snd (iteration cfg max_zeros a' s1))) = sink (os s1).
Proof.
  intros Hf Hf' Hw Hc Hacc. cbn zeta.
  assert (polls_empty
            (last_timestamp (vars (snd (iteration cfg max_zeros a s)))) a'
          = true) as He.
  { destruct (filter (newer (last_timestamp (vars s))) table) as [|r rows]
      eqn:Rows.
    - pose proof (polls_empty_filter a _ table Hf Hw Rows) as He.
      destruct (polls_empty_turn max_zeros a s He) as [-> _].
      now apply (polls_empty_filter a' _ table).
    - destruct (iteration_frame cfg max_zeros a s) as [-> _].
      rewrite iteration_body_run.
      destruct (poll_and_write_writes cfg a
                  (mkState (set_iterations (iterations (vars s) + 1) (vars s))
                           (os s)) table (r :: rows))
        as [m [pts [s' [E [Em [Hlt [Hv _]]]]]]]; auto; try discriminate.
      rewrite E.
      destruct (restart_if_stalled_frame cfg max_zeros a s') as [-> _].
      rewrite Hv. cbn [last_timestamp set_zeros set_last_timestamp].
      destruct (max_row_time_newer (last_timestamp (vars s)) (r :: rows))
        as [m' [Em' [_ [_ Hmax]]]];
        [discriminate | rewrite <- Rows; apply filter_forallb |].
      assert (m' = m) as -> by (cbn in Em; congruence).
      unfold polls_empty. rewrite Hf'. rewrite forallb_forall in *.
      intros r0 Hin. rewrite (Hw r0 Hin). cbn [andb].
      unfold newer. pose proof (Hw r0 Hin) as Hwf. unfold well_formed in Hwf.
      destruct (row_time r0) as [t|e] eqn:T; [|discriminate].
      cbn in Hlt. destruct (Z.ltb_spec m t) as [Hmt|]; [|reflexivity].
      assert (In r0 (r :: rows)) as Hin'.
      { rewrite <- Rows. apply filter_In. split; [exact Hin|].
        unfold newer. rewrite T. apply Z.ltb_lt. lia. }
      specialize (Hmax r0 t Hin' T). lia. }
  split; [exact He|]. now destruct (polls_empty_turn max_zeros a' _ He).
Qed.

(** X17.  Rows the sink refused are offered again: a turn whose batch the
    sink refuses leaves the watermark and the sink as they were, and the
    next turn on the same file, with a sink that accepts, writes one point
    for each of those rows and moves the watermark past them. *)
Theorem refused_batch_is_retried (max_zeros : Z) (a a' : answers) (s : state)
    (table : list row) :
  dbf_file a = Some table ->
  dbf_file a' = Some table ->
  forallb well_formed table = true ->
  filter (newer (last_timestamp (vars s))) table <> [] ->
  forallb coercible (filter (newer (last_timestamp (vars s))) table) = true ->
  write_accepted a = false ->
  write_accepted a' = true ->
  let rows := filter (newer (last_timestamp (vars s))) table in
  let s1 := snd (iteration cfg max_zeros a s) in
  let s2 := snd (iteration cfg max_zeros a' s1) in
  last_timestamp (vars s1) = last_timestamp (vars s)
  /\ sink (os s1) = sink (os s)
  /\ max_row_time rows = Ok (last_timestamp (vars s2))
  /\ exists pts, sink (os s2) = sink (os s) ++ [pts]
                 /\ List.length pts = List.length rows.
Proof.
  intros Hf Hf' Hw Hne Hc Hrej Hacc. cbn zeta.
  assert (last_timestamp (vars (snd (iteration cfg max_zeros a s))) =
          last_timestamp (vars s)
          /\ sink (os (snd (iteration cfg max_zeros a s))) = sink (os s))
    as [Hl Hs].
  { destruct (iteration_watermark cfg max_zeros a s)
      as [[_ [Ht _]] | H]; [congruence | exact H]. }
  split; [exact Hl|]. split; [exact Hs|].
  destruct (iteration_frame cfg max_zeros a'
              (snd (iteration cfg max_zeros a s))) as [-> ->].
  rewrite iteration_body_run.
  destruct (poll_and_write_writes cfg a'
              (mkState (set_iterations
                          (iterations
                             (vars (snd (iteration cfg max_zeros a s))) + 1)
                          (vars (snd (iteration cfg max_zeros a s))))
                       (os (snd (iteration cfg max_zeros a s))))
              table (filter (newer (last_timestamp (vars s))) table))
    as [m [pts [s' [E [Em [_ [Hv [Hsink [Hlen _]]]]]]]]]; auto.
  { cbn [vars set_iterations last_timestamp]. now rewrite Hl. }
  rewrite E.
  destruct (restart_if_stalled_frame cfg max_zeros a' s') as [-> [_ [-> _]]].
  rewrite Hv. cbn [last_timestamp set_zeros set_last_timestamp].
  split; [exact Em|]. exists pts. cbn [os] in Hsink. rewrite Hsink, Hs. auto.
Qed.

(** X8.  A launch that fails during a restart is caught by the handler of
    the loop and not counted: with no process of that name listed and an
    executable that cannot be started, the turn at the threshold calls
    [kill_winmeteo], which finds nothing to kill, tries the launch, reports
    its [OSError] and sleeps [error_timer] seconds.  [restarts] and the time
    of the last restart stay, and the count of empty polls is kept, so the
    next empty poll tries again. *)
Theorem failed_launch_is_not_counted (max_zeros : Z) (a : answers)
    (s : state) :
  polls_empty (last_timestamp (vars s)) a = true ->
  max_zeros <= zeros (vars s) + 1 ->
  listed_at (winmeteo_process cfg) (clock (os s)) (procs (os s)) = false ->
  popen_launches a = false ->
  0 <= error_timer cfg ->
  let name := winmeteo_process cfg in
  iteration cfg max_zeros a s =
  (Ok tt,
   mkState (set_zeros (zeros (vars s) + 1)
              (set_iterations (iterations (vars s) + 1) (vars s)))
           (mkWorld (clock (os s) + error_timer cfg) (procs (os s))
                    (sink (os s))
                    (trace (os s)
                       ++ [EvLoad (dbf_path cfg);
                           EvKill name (wait_for_kill cfg);
                           EvEnum name false;
                           EvStart name; EvEnum name false;
                           EvPopen (winmeteo_path cfg) (winmeteo_dir cfg);
                           EvError OSError;
                           EvSleep (error_timer cfg)]))).
Proof.
  intros He Hz Hl Hp Ht. cbn zeta.
  rewrite iteration_run, iteration_body_run, poll_and_write_empty
    by exact He.
  rewrite restart_if_stalled_run. cbn [vars os zeros set_zeros set_iterations].
  destruct (Z.geb_spec (zeros (vars s) + 1) max_zeros); [|lia].
  rewrite kill_winmeteo_not_running by exact Hl.
  rewrite start_winmeteo_absent by exact Hl. rewrite Hp.
  destruct (Z.ltb_spec (error_timer cfg) 0); [lia|].
  unfold log. cbn [vars os clock procs sink trace].
  repeat first [ rewrite <- app_assoc
               | rewrite <- app_comm_cons
               | progress cbn [app] ].
  reflexivity.
Qed.

(** ** main, from its first line *)

(** A run of the main loop on files the runtime answers ends, with every
    turn counted and no turn shorter than the shorter pause. *)
Lemma main_loop_returns (max_zeros : Z) (script : list answers) (s : state) :
  forallb runtime_answers script = true ->
  0 <= timer cfg -> 0 <= error_timer cfg ->
  exists s',
    main_loop cfg max_zeros script s = (Ok tt, s')
    /\ iterations (vars s') =
       iterations (vars s) + Z.of_nat (List.length script)
    /\ restarts (vars s) <= restarts (vars s')
                         <= restarts (vars s) + Z.of_nat (List.length script)
    /\ clock (os s)
       + Z.of_nat (List.length script) * Z.min (timer cfg) (error_timer cfg)
       <= clock (os s').
Proof.
  intros Ha Ht He. revert s. induction script as [|a rest IH]; intros s.
  - exists s. cbn. repeat split; lia.
  - cbn [forallb] in Ha. apply andb_prop in Ha as [Ha Hrest].
    rewrite main_loop_step.
    pose proof (iteration_returns max_zeros a s Ha Ht He) as [Hok [Hlo _]].
    pose proof (iteration_counters max_zeros a s) as [Hi Hr].
    destruct (iteration cfg max_zeros a s) as [[u|e] s1]; cbn [fst snd] in *;
      [|discriminate].
    destruct (IH Hrest s1) as [s' [E [Hi' [Hr' Hc']]]].
    exists s'. change (List.length (a :: rest)) with (S (List.length rest)).
    rewrite Nat2Z.inj_succ. split; [exact E|]. repeat split; nia.
Qed.

(** X18.  [main] as a whole.  When WinMeteo runs or can be launched,
    [timer] is positive, [error_timer] is not negative and the runtime
    answers the files, [main] comes through [n] failed connection attempts,
    a successful one and any number of turns of its loop without an
    exception.  It has then counted every turn, counted no more restarts than
    turns, kept the watermark at or after the time of the last record the
    sink held at the start ([datetime.min] for an empty sink), and spent at
    least [error_timer] seconds per failed attempt and the shorter pause per
    turn. *)
Theorem main_runs (launched : bool) (n : nat) (tables : list (list datetime))
    (rest : list (option (list (list datetime)))) (script : list answers)
    (w : world) :
  0 <= error_timer cfg ->
  0 < timer cfg ->
  listed_at (winmeteo_process cfg) (clock w) (procs w) || launched = true ->
  forallb runtime_answers script = true ->
  let attempts := repeat None n ++ Some tables :: rest in
  let seed := match get_last_timestamp tables with
              | Some t => t
              | None => datetime_min
              end in
  let turns := Z.of_nat (List.length script) in
  exists l w',
    main cfg launched attempts script w = (Ok l, w')
    /\ iterations l = turns
    /\ 0 <= restarts l <= turns
    /\ seed <= last_timestamp l
    /\ clock w + Z.of_nat n * error_timer cfg
       + turns * Z.min (timer cfg) (error_timer cfg) <= clock w'.
Proof.
  intros He Ht Hrun Ha. cbn zeta. unfold main. rewrite startup_run.
  rewrite start_winmeteo_run. cbn zeta. rewrite Hrun.
  rewrite connect_loop_succeeds by assumption.
  unfold floordiv. destruct (Z.eqb_spec (timer cfg) 0) as [E|_]; [lia|].
  cbn [clock].
  match goal with
  | |- context [main_loop cfg ?mz script ?st] =>
      destruct (main_loop_returns mz script st Ha) as [s' [E [Hi [Hr Hc]]]];
      [lia | assumption |];
      pose proof (main_loop_watermark cfg mz script st) as Hw
  end.
  rewrite E in *. cbn [fst snd vars os iterations restarts last_timestamp
                       clock] in *.
  exists (vars s'), (os s'). split; [reflexivity|]. repeat split; lia.
Qed.

(** ** Rows without a date or a time *)

Lemma row_get_missing (key : string) (r : row) :
  ~ In key (map fst r) -> row_get key r = Raise KeyError.
Proof.
  induction r as [|[k v] r IH]; cbn; [reflexivity|].
  intros H. destruct (String.eqb_spec k key) as [-> | Hne]; [tauto|].
  apply IH. tauto.
Qed.

Lemma row_get_raise (key : string) (r : row) (e : exn) :
  row_get key r = Raise e -> e = KeyError.
Proof.
  induction r as [|[k v] r IH]; cbn.
  - now intros [= <-].
  - destruct (String.eqb k key); [discriminate | exact IH].
Qed.

Lemma row_time_missing (r : row) :
  ~ In "DAT" (map fst r) \/ ~ In "CAS" (map fst r) ->
  row_time r = Raise KeyError.
Proof.
  unfold row_time. intros [H | H].
  - now rewrite (row_get_missing "DAT" r H).
  - rewrite (row_get_missing "CAS" r H).
    destruct (row_get "DAT" r) as [d|e] eqn:E; [reflexivity|].
    now rewrite (row_get_raise _ _ _ E).
Qed.

Lemma new_rows_loop_app (before rest : list row) (watermark : datetime)
    (acc : list row) :
  forallb well_formed before = true ->
  new_rows_loop (before ++ rest) watermark acc =
  new_rows_loop rest watermark (acc ++ filter (newer watermark) before).
Proof.
  revert acc. induction before as [|r before IH]; intros acc Hw.
  - cbn. now rewrite app_nil_r.
  - cbn [forallb] in Hw. apply andb_prop in Hw as [Hr Hw].
    cbn [app new_rows_loop filter]. unfold well_formed, newer in *.
    destruct (row_time r) as [t|e]; [|discriminate].
    destruct (watermark <? t); rewrite IH by exact Hw;
      now rewrite <- ?app_assoc.
Qed.

(** X19.  A row that lacks the column [DAT] or the column [CAS] makes the
    poll fail with [KeyError] when the rows before it are well formed: the
    rows of the file that are newer than the watermark are not returned,
    also those before the row. *)
Theorem row_without_date_raises_KeyError (before after : list row) (r : row)
    (watermark : datetime) (w : world) :
  forallb well_formed before = true ->
  ~ In "DAT" (map fst r) \/ ~ In "CAS" (map fst r) ->
  read_new_rows_from_dbf cfg (Some (before ++ r :: after)) watermark w =
  (Raise KeyError, log (EvLoad (dbf_path cfg)) w).
Proof.
  intros Hw Hr. rewrite read_new_rows_from_dbf_run.
  rewrite new_rows_loop_app by exact Hw.
  cbn [new_rows_loop]. now rewrite (row_time_missing r Hr).
Qed.

End Behaviour.

(** * The properties on the scenarios *)

Import Ref Scenario.

Lemma watermark_never_rewound_witness :
  stamp_1000 <=
  last_timestamp
    (vars (snd (main_loop meteoconfig 6 [nothing_new; new_data; hung]
                          caught_up)))
  /\ (write_accepted sink_down = false
      /\ last_timestamp (vars (snd (iteration meteoconfig 6 sink_down
                                              first_turn)))
         = datetime_min).
Proof.
  destruct (watermark_never_rewound meteoconfig 6) as [Mono [_ Refused]].
  split.
  - exact (Mono [nothing_new; new_data; hung] caught_up).
  - split; [reflexivity|]. exact (Refused sink_down first_turn eq_refl).
Defined.

Lemma watermark_advances_to_newest_witness :
  last_timestamp (vars (snd (iteration meteoconfig 6 new_data first_turn)))
  = stamp_1015
  /\ zeros (vars (snd (iteration meteoconfig 6 new_data first_turn))) = 0.
Proof.
  assert (forallb well_formed three_readings = true) as Hw
    by (vm_compute; reflexivity).
  assert (three_readings =
          filter (newer (last_timestamp (vars first_turn))) three_readings)
    as Hrows by (vm_compute; reflexivity).
  assert (three_readings <> []) as Hne by discriminate.
  assert (forallb coercible three_readings = true) as Hc
    by (vm_compute; reflexivity).
  destruct (watermark_advances_to_newest meteoconfig 6 new_data first_turn
              three_readings three_readings eq_refl Hw Hrows Hne Hc eq_refl)
    as [m [pts [_ [_ [Hm [_ [_ [Hperm Hz]]]]]]]].
  split; [|exact Hz].
  rewrite Hm. specialize (Hperm three_readings (Permutation_refl _)).
  vm_compute in Hperm. injection Hperm as <-. reflexivity.
Defined.

Lemma stall_restart_witness :
  floordiv (kill_timer meteoconfig) (timer meteoconfig) = Ok 6
  /\ supervisor_calls
       (trace (os (snd (main_loop meteoconfig 6
                          (repeat nothing_new 5 ++ [nothing_new])
                          caught_up))))
     = [EvKill "WinMeteo.exe" 20; EvStart "WinMeteo.exe"]
  /\ restarts (vars (snd (main_loop meteoconfig 6
                            (repeat nothing_new 5 ++ [nothing_new])
                            caught_up))) = 1
  /\ zeros (vars (snd (main_loop meteoconfig 6
                         (repeat nothing_new 5 ++ [nothing_new])
                         caught_up))) = 0.
Proof.
  assert (polls_empty (last_timestamp (vars caught_up)) nothing_new = true)
    as He by (vm_compute; reflexivity).
  assert (Forall (fun x => polls_empty (last_timestamp (vars caught_up)) x
                           = true)
                 (repeat nothing_new 5 ++ [nothing_new])) as Hall
    by (repeat (apply Forall_cons; [exact He|]); apply Forall_nil).
  assert (0 < timer meteoconfig) as Ht by reflexivity.
  assert (1 <= 6) as Hmz by lia.
  destruct (stall_restart meteoconfig 6 (repeat nothing_new 5) nothing_new
              caught_up eq_refl Ht Hmz eq_refl eq_refl Hall eq_refl eq_refl)
    as [_ [_ [_ [_ [_ [_ [Calls [Restarts [_ Zeros]]]]]]]]].
  split; [reflexivity|].
  split; [exact Calls|]. split; [exact Restarts | exact Zeros].
Defined.

Lemma read_new_rows_exact_witness :
  fst (read_new_rows_from_dbf meteoconfig (Some three_readings) stamp_1000
                              idle)
  = Ok [at_1015; at_1005]
  /\ exists e,
       fst (read_new_rows_from_dbf meteoconfig (Some [at_1015; no_time])
                                   stamp_1000 idle) = Raise e.
Proof.
  assert (forallb well_formed three_readings = true) as Hw
    by (vm_compute; reflexivity).
  assert (forallb well_formed [at_1015; no_time] = false) as Hm
    by (vm_compute; reflexivity).
  destruct (read_new_rows_exact meteoconfig three_readings stamp_1000 idle)
    as [Reads _].
  destruct (read_new_rows_exact meteoconfig [at_1015; no_time] stamp_1000 idle)
    as [_ Raises].
  split; [|exact (Raises Hm)].
  destruct (Reads Hw) as [Rows _]. rewrite Rows. vm_compute. reflexivity.
Defined.

Lemma hung_times_out : termination_times_out meteoconfig 6 hung stalled.
Proof.
  split; [vm_compute; reflexivity|].
  split; [vm_compute; discriminate|].
  split; [vm_compute; reflexivity|].
  split; [now exists None | vm_compute; reflexivity].
Defined.

Lemma termination_timeout_witness :
  fst (iteration meteoconfig 6 hung stalled) = Ok tt
  /\ filter is_start (trace (os (snd (iteration meteoconfig 6 hung stalled))))
     = []
  /\ restarts (vars (snd (iteration meteoconfig 6 hung stalled))) = 0.
Proof.
  assert (0 <= error_timer meteoconfig) as Ht by discriminate.
  destruct (termination_timeout meteoconfig 6 hung stalled hung_times_out Ht)
    as [_ [Caught [_ [Starts [Restarts _]]]]].
  split; [exact Caught|]. split; [exact Starts | exact Restarts].
Defined.

Lemma retry_on_next_empty_poll_witness :
  exists delta,
    trace (os (snd (iteration meteoconfig 6 hung
                      (snd (iteration meteoconfig 6 hung stalled))))) =
    trace (os (snd (iteration meteoconfig 6 hung stalled)))
      ++ EvLoad "C:/WinMeteo/Data/meteo.DBF"
      :: EvKill "WinMeteo.exe" 20 :: delta.
Proof.
  assert (0 <= error_timer meteoconfig) as Ht by discriminate.
  assert (polls_empty
            (last_timestamp
               (vars (snd (iteration meteoconfig 6 hung stalled)))) hung
          = true) as He by (vm_compute; reflexivity).
  destruct (retry_on_next_empty_poll meteoconfig 6 hung hung stalled
              hung_times_out Ht He) as [_ [_ Again]].
  exact Again.
Defined.

Lemma failed_kill_counts_as_restart_witness :
  iteration meteoconfig 6 kill_refused stalled =
  (Ok tt,
   mkState (mkLocals stamp_1000 7 0 1 1000)
           (mkWorld 1030 [mkProc "WinMeteo.exe" None] []
                    [EvLoad "C:/WinMeteo/Data/meteo.DBF";
                     EvKill "WinMeteo.exe" 20; EvEnum "WinMeteo.exe" true;
                     EvTaskkill "WinMeteo.exe";
                     EvStart "WinMeteo.exe"; EvEnum "WinMeteo.exe" true;
                     EvSleep 30])).
Proof.
  assert (polls_empty (last_timestamp (vars stalled)) kill_refused = true)
    as He by (vm_compute; reflexivity).
  assert (6 <= zeros (vars stalled) + 1) as Hz by (vm_compute; discriminate).
  assert (listed_at (winmeteo_process meteoconfig) (clock (os stalled))
                    (procs (os stalled)) = true) as Hl
    by (vm_compute; reflexivity).
  assert (0 <= timer meteoconfig) as Ht by discriminate.
  destruct (failed_kill_counts_as_restart meteoconfig 6 kill_refused stalled
              He Hz Hl eq_refl Ht) as [_ Turn].
  rewrite Turn. reflexivity.
Defined.

Lemma startup_ensures_running_witness :
  fst (startup meteoconfig true (repeat None 3) idle) = Raise Unfinished
  /\ listed_at "WinMeteo.exe"
       (clock (snd (startup meteoconfig true (repeat None 3) idle)))
       (procs (snd (startup meteoconfig true (repeat None 3) idle))) = true.
Proof.
  assert (0 <= error_timer meteoconfig) as Ht by discriminate.
  destruct (startup_ensures_running meteoconfig true (repeat None 3) idle)
    as [delta [_ [_ [_ Forever]]]].
  destruct (Forever 3%nat eq_refl Ht eq_refl) as [Turning [_ Listed]].
  split; [exact Turning | exact (Listed eq_refl)].
Defined.

Lemma coercion_failure_aborts_batch_witness :
  (exists e, fst (write_to_influxdb meteoconfig true [at_1015; no_number] idle)
             = Raise e)
  /\ sink (snd (write_to_influxdb meteoconfig true [at_1015; no_number] idle))
     = []
  /\ exists delta,
       iteration meteoconfig 6 bad_cell caught_up =
       (Ok tt,
        mkState (mkLocals stamp_1000 2 0 0 1000)
          (mkWorld 1120 [mkProc "WinMeteo.exe" None] []
             (EvLoad "C:/WinMeteo/Data/meteo.DBF"
              :: delta ++ [EvError ValueError; EvSleep 120]))).
Proof.
  assert (forallb coercible [at_1015; no_number] = false) as Hc
    by (vm_compute; reflexivity).
  assert (new_rows_loop [at_1015; no_number]
            (last_timestamp (vars caught_up)) []
          = Ok [at_1015; no_number]) as Hrows by (vm_compute; reflexivity).
  assert (runtime_answers bad_cell = true) as Ha by (vm_compute; reflexivity).
  assert (0 <= error_timer meteoconfig) as Ht by discriminate.
  destruct (coercion_failure_aborts_batch meteoconfig true
              [at_1015; no_number] idle Hc) as [Raised [Sink [_ [_ Caught]]]].
  split; [exact Raised|]. split; [exact Sink|].
  destruct (Caught 6 bad_cell caught_up [at_1015; no_number] eq_refl Hrows
              Ha Ht) as [e [delta [Hwrite [Turn _]]]].
  vm_compute in Hwrite. injection Hwrite as <-.
  exists delta. rewrite Turn. reflexivity.
Defined.

Lemma field_mapper_outcomes_witness :
  map_column "FOO" = Unknown
  /\ fst (fields_loop with_extra (Point "winmeteo") idle) =
     fst (fields_loop at_1000 (Point "winmeteo") idle).
Proof.
  destruct (@field_mapper_outcomes RefLib)
    as [_ [_ [_ [_ [_ [Other [_ [Rest _]]]]]]]].
  split.
  - apply Other. intros K. apply is_known_In in K.
    vm_compute in K. discriminate K.
  - exact (Rest with_extra (Point "winmeteo") idle).
Defined.

(** The file with the reading of 10:15 and a reading whose time is 25:00:
    the first is newer than the watermark of 10:00, and yet no row is
    returned. *)
Lemma malformed_row_returns_nothing :
  ~ returns_newer_rows_of_every_file meteoconfig.
Proof.
  intros Claim.
  pose proof (Claim [at_1015; no_time] stamp_1000 idle) as Rows.
  vm_compute in Rows. discriminate Rows.
Qed.

(** The batch of 10:15 and of the reading with no number: the sink takes
    every batch, both rows are well formed, and yet nothing is written. *)
Lemma coercion_failure_is_not_per_field :
  ~ writes_despite_coercion_failure meteoconfig.
Proof.
  intros Claim.
  assert (forallb well_formed [at_1015; no_number] = true) as Hw
    by (vm_compute; reflexivity).
  destruct (Claim [at_1015; no_number] idle Hw) as [Written _].
  vm_compute in Written. discriminate Written.
Qed.

(** Threshold 6, five empty polls counted, the process hangs: the sixth
    empty poll brings a termination that times out, and the single empty
    poll after it brings the next one. *)
Lemma restart_does_not_wait_for_new_run :
  ~ restart_waits_for_new_run meteoconfig 6.
Proof.
  intros Claim.
  assert (polls_empty
            (last_timestamp
               (vars (snd (iteration meteoconfig 6 hung stalled)))) hung
          = true) as He by (vm_compute; reflexivity).
  assert (Z.of_nat (List.length [hung]) < 6) as Hlen by reflexivity.
  pose proof (Claim hung stalled [hung] hung_times_out
                (Forall_cons _ He (Forall_nil _)) Hlen) as Calls.
  apply (f_equal (@List.length _)) in Calls.
  vm_compute in Calls. discriminate Calls.
Qed.

(** ** The further behaviour on the scenarios *)

Lemma startup_seeds_loop_witness :
  fst (startup meteoconfig true [None; None; Some last_record] idle) =
  Ok (mkLocals (astimezone_local stamp_1000) 0 0 0 1240, 6)
  /\ sink (snd (startup meteoconfig true [None; None; Some last_record]
                        idle)) = [].
Proof.
  assert (0 <= error_timer meteoconfig) as He by discriminate.
  assert (timer meteoconfig <> 0) as Ht by discriminate.
  assert (listed_at (winmeteo_process meteoconfig) (clock idle) (procs idle)
          || true = true) as Hrun by apply orb_true_r.
  pose proof (startup_seeds_loop meteoconfig true 2 last_record [] idle
                He Ht Hrun) as H.
  cbn zeta in H. destruct H as [R [C [S _]]].
  split; [|exact S]. rewrite C in R. exact R.
Defined.

Lemma kill_winmeteo_gone_on_return_witness :
  listed_at "WinMeteo.exe"
    (clock (snd (kill_winmeteo (TkAccepted (Some 3)) "WinMeteo.exe" 20
                               running)))
    (procs (snd (kill_winmeteo (TkAccepted (Some 3)) "WinMeteo.exe" 20
                               running))) = false.
Proof.
  assert (fst (kill_winmeteo (TkAccepted (Some 3)) "WinMeteo.exe" 20 running)
          = Ok tt) as Hr by (vm_compute; reflexivity).
  assert (TkAccepted (Some 3) <> TkExit) as Htk by discriminate.
  exact (kill_winmeteo_gone_on_return (TkAccepted (Some 3)) "WinMeteo.exe" 20
           running Hr Htk).
Defined.

Lemma start_winmeteo_idempotent_witness :
  let start b :=
    start_winmeteo_if_not_running b (winmeteo_process meteoconfig)
      (winmeteo_path meteoconfig) (winmeteo_dir meteoconfig) in
  fst (start false (snd (start true idle))) = Ok tt.
Proof.
  cbn zeta.
  assert (fst (start_winmeteo_if_not_running true
                 (winmeteo_process meteoconfig) (winmeteo_path meteoconfig)
                 (winmeteo_dir meteoconfig) idle) = Ok tt) as Hok
    by reflexivity.
  pose proof (start_winmeteo_idempotent meteoconfig true false idle Hok) as H.
  cbn zeta in H. destruct H as [_ Again]. rewrite Again. reflexivity.
Defined.

Lemma main_zero_timer_witness :
  fst (main zero_timer true [None; Some last_record] [new_data] idle) =
  Raise ZeroDivisionError.
Proof.
  assert (timer zero_timer = 0) as Ht by reflexivity.
  assert (0 <= error_timer zero_timer) as He by discriminate.
  assert (listed_at (winmeteo_process zero_timer) (clock idle) (procs idle)
          || true = true) as Hrun by apply orb_true_r.
  pose proof (main_zero_timer zero_timer true 1 last_record [] [new_data]
                idle Ht He Hrun) as H.
  cbn zeta in H. destruct H as [R _]. exact R.
Defined.

Lemma main_launch_failure_witness :
  fst (main meteoconfig false [Some last_record] [new_data] idle) =
  Raise OSError.
Proof.
  assert (listed_at (winmeteo_process meteoconfig) (clock idle) (procs idle)
          = false) as Hl by reflexivity.
  rewrite (main_launch_failure meteoconfig [Some last_record] [new_data] idle
             Hl).
  reflexivity.
Defined.

Lemma failed_launch_is_not_counted_witness :
  restarts (vars (snd (iteration meteoconfig 6 launch_fails stalled_idle))) = 0
  /\ zeros (vars (snd (iteration meteoconfig 6 launch_fails stalled_idle)))
     = 6.
Proof.
  assert (polls_empty (last_timestamp (vars stalled_idle)) launch_fails
          = true) as He by (vm_compute; reflexivity).
  assert (6 <= zeros (vars stalled_idle) + 1) as Hz
    by (vm_compute; discriminate).
  assert (listed_at (winmeteo_process meteoconfig) (clock (os stalled_idle))
                    (procs (os stalled_idle)) = false) as Hl by reflexivity.
  assert (0 <= error_timer meteoconfig) as Ht by discriminate.
  pose proof (failed_launch_is_not_counted meteoconfig 6 launch_fails
                stalled_idle He Hz Hl eq_refl Ht) as Turn.
  cbn zeta in Turn. rewrite Turn. split; reflexivity.
Defined.

Lemma write_to_influxdb_points_witness :
  exists pts,
    sink (snd (write_to_influxdb meteoconfig true [at_1000; at_1015] idle))
    = [pts]
    /\ Forall2 (rendered meteoconfig) [at_1000; at_1015] pts.
Proof.
  assert (Forall (fun r : row => NoDup (map fst r)) [at_1000; at_1015])
    as Hd.
  { repeat (apply Forall_cons;
            [repeat (apply NoDup_cons; [cbn; intuition discriminate|]);
             apply NoDup_nil |]).
    apply Forall_nil. }
  assert (fst (write_to_influxdb meteoconfig true [at_1000; at_1015] idle)
          = Ok tt) as Hok by (vm_compute; reflexivity).
  exact (write_to_influxdb_points meteoconfig true [at_1000; at_1015] idle
           Hd Hok).
Defined.

Lemma main_loop_counts_witness :
  iterations
    (vars (snd (main_loop meteoconfig 6 [new_data; garbled; hung]
                          first_turn))) = 3.
Proof.
  assert (forallb runtime_answers [new_data; garbled; hung] = true) as Ha
    by (vm_compute; reflexivity).
  assert (0 <= timer meteoconfig) as Ht by discriminate.
  assert (0 <= error_timer meteoconfig) as He by discriminate.
  pose proof (main_loop_counts meteoconfig 6 [new_data; garbled; hung]
                first_turn Ha Ht He) as H.
  cbn zeta in H. destruct H as [Hi _]. rewrite Hi. reflexivity.
Defined.

Lemma main_loop_never_stops_witness :
  fst (main_loop meteoconfig 6 [new_data; garbled; hung] first_turn) = Ok tt
  /\ 1090 <= clock (os (snd (main_loop meteoconfig 6 [new_data; garbled; hung]
                                       first_turn))).
Proof.
  assert (forallb runtime_answers [new_data; garbled; hung] = true) as Ha
    by (vm_compute; reflexivity).
  assert (0 <= timer meteoconfig) as Ht by discriminate.
  assert (0 <= error_timer meteoconfig) as He by discriminate.
  pose proof (main_loop_never_stops meteoconfig 6 [new_data; garbled; hung]
                first_turn Ha Ht He) as H.
  cbn zeta in H. destruct H as [Hok [Hlo _]]. split; [exact Hok | exact Hlo].
Defined.

Lemma unreadable_source_is_no_stall_witness :
  zeros (vars (snd (iteration meteoconfig 6 garbled stalled))) = 5
  /\ sink (os (snd (iteration meteoconfig 6 garbled stalled))) = []
  /\ clock (os (snd (iteration meteoconfig 6 garbled stalled))) = 1120.
Proof.
  assert (source_unreadable garbled) as Hu by (vm_compute; reflexivity).
  assert (runtime_answers garbled = true) as Ha by (vm_compute; reflexivity).
  assert (0 <= error_timer meteoconfig) as He by discriminate.
  destruct (unreadable_source_is_no_stall meteoconfig 6 garbled stalled
              Hu Ha He) as [e Turn].
  rewrite Turn. repeat split.
Defined.

Lemma short_kill_timer_restarts_every_turn_witness :
  floordiv (kill_timer short_kill) (timer short_kill) = Ok 0
  /\ filter is_kill
       (trace (os (snd (iteration short_kill 0 new_data first_turn)))) =
     [EvKill (winmeteo_process short_kill) (wait_for_kill short_kill)].
Proof.
  assert (0 <= kill_timer short_kill < timer short_kill) as Hk
    by (split; [discriminate | reflexivity]).
  assert (0 <= zeros (vars first_turn)) as Hz by discriminate.
  assert (forallb well_formed three_readings = true) as Hw
    by (vm_compute; reflexivity).
  assert (forallb coercible
            (filter (newer (last_timestamp (vars first_turn)))
                    three_readings) = true) as Hc
    by (vm_compute; reflexivity).
  exact (short_kill_timer_restarts_every_turn short_kill new_data first_turn
           three_readings Hk Hz eq_refl Hw Hc eq_refl).
Defined.

Lemma written_rows_are_not_sent_again_witness :
  sink (os (snd (iteration meteoconfig 6 new_data
                   (snd (iteration meteoconfig 6 new_data first_turn))))) =
  sink (os (snd (iteration meteoconfig 6 new_data first_turn))).
Proof.
  assert (forallb well_formed three_readings = true) as Hw
    by (vm_compute; reflexivity).
  assert (forallb coercible
            (filter (newer (last_timestamp (vars first_turn)))
                    three_readings) = true) as Hc
    by (vm_compute; reflexivity).
  pose proof (written_rows_are_not_sent_again meteoconfig 6 new_data new_data
                first_turn three_readings eq_refl eq_refl Hw Hc eq_refl) as H.
  cbn zeta in H. destruct H as [_ Hs]. exact Hs.
Defined.

Lemma refused_batch_is_retried_witness :
  sink (os (snd (iteration meteoconfig 6 sink_down first_turn))) = []
  /\ exists pts,
       sink (os (snd (iteration meteoconfig 6 new_data
                        (snd (iteration meteoconfig 6 sink_down
                                        first_turn))))) = [pts]
       /\ List.length pts = 3%nat.
Proof.
  assert (forallb well_formed three_readings = true) as Hw
    by (vm_compute; reflexivity).
  assert (filter (newer (last_timestamp (vars first_turn))) three_readings
          = three_readings) as Hrows by (vm_compute; reflexivity).
  assert (filter (newer (last_timestamp (vars first_turn))) three_readings
          <> []) as Hne by (rewrite Hrows; discriminate).
  assert (forallb coercible
            (filter (newer (last_timestamp (vars first_turn)))
                    three_readings) = true) as Hc
    by (vm_compute; reflexivity).
  pose proof (refused_batch_is_retried meteoconfig 6 sink_down new_data
                first_turn three_readings eq_refl eq_refl Hw Hne Hc eq_refl
                eq_refl) as H.
  cbn zeta in H. destruct H as [_ [Hs [_ [pts [Hs2 Hlen]]]]].
  split; [exact Hs|]. exists pts. split; [exact Hs2|].
  rewrite Hlen, Hrows. reflexivity.
Defined.

Lemma main_runs_witness :
  exists l w',
    main meteoconfig true [None; Some last_record] [new_data; nothing_new]
         idle = (Ok l, w')
    /\ iterations l = 2
    /\ astimezone_local stamp_1000 <= last_timestamp l.
Proof.
  assert (0 <= error_timer meteoconfig) as He by discriminate.
  assert (0 < timer meteoconfig) as Ht by reflexivity.
  assert (listed_at (winmeteo_process meteoconfig) (clock idle) (procs idle)
          || true = true) as Hrun by apply orb_true_r.
  assert (forallb runtime_answers [new_data; nothing_new] = true) as Ha
    by (vm_compute; reflexivity).
  pose proof (main_runs meteoconfig true 1 last_record [] [new_data;
                nothing_new] idle He Ht Hrun Ha) as H.
  cbn zeta in H. destruct H as [l [w' [E [Hi [_ [Hseed _]]]]]].
  exists l, w'. split; [exact E|]. split; [exact Hi | exact Hseed].
Defined.

Lemma row_without_date_raises_KeyError_witness :
  fst (read_new_rows_from_dbf meteoconfig (Some [at_1000; no_date])
                              datetime_min idle) = Raise KeyError.
Proof.
  assert (forallb well_formed [at_1000] = true) as Hw
    by (vm_compute; reflexivity).
  assert (~ In "DAT" (map fst no_date) \/ ~ In "CAS" (map fst no_date))
    as Hr by (left; cbn; intuition discriminate).
  pose proof (row_without_date_raises_KeyError meteoconfig [at_1000] []
                no_date datetime_min idle Hw Hr) as H.
  cbn [app] in H. rewrite H. reflexivity.
Defined.
